(** * Credential leasing engine of the chess review bot

    A shallow embedding of the database layer and of the handlers of
    [bot.py] (SQLite store) and [bot_v2.0.py] (Firestore store): the
    administrative commands, [/start], [/mydetails], the two listings and
    the purchase conversation; and the properties proved about them.

    Modelling conventions, shared by both stores:
    - a timestamp is an integer number of microseconds since the epoch (the
      resolution of Python's [datetime]); [datetime.now(timezone.utc)] is an
      input of every function that reads the clock, one input per reading;
      the range limits of [datetime] and [timedelta] are not modelled, and
      SQLite's comparison of the stored ISO texts of UTC timestamps is taken
      as the comparison of the instants;
    - the two values ever written to the [status] column/field are an
      enumeration;
    - every effect on the outside world (log records, chat messages, the
      creation of the background cleanup task) is appended to an output
      trace, oldest first; Telegram and store calls are assumed not to fail
      for reasons of transport or configuration, so the only store exception
      modelled is Firestore's NotFound on [update] of a missing document;
    - a chat message in the trace records that the handler makes the call.
      What Telegram answers to a call is modelled in two places, where the
      source decides it: a text of the cleanup task in which a dot stands
      unescaped is refused ([unescaped_dot]), and the message that
      [handle_buy_plan] has had deleted cannot be edited by [start]
      ([message_left]);
    - a handler is modelled from its admin check on, with [context.args]
      already split; an argument that [int()] rejects is [None]. *)

From stdpp Require Import gmap strings list fin_maps sorting pretty.
From Stdlib Require Import ZArith Lia.

Local Open Scope Z_scope.

(** ** Data model *)

(** The [status] of a credential: ['available'] or ['in_use']. *)
Inductive cred_status : Type :=
  | available
  | in_use.

Global Instance cred_status_eq_dec : EqDecision cred_status.
Proof. solve_decision. Defined.

(** A row of [users] / a document of the [users] collection. The key
    [user_id] is the key of the map that holds the record. *)
Record user : Type := User {
  is_bot_use : bool;
  plan_expiry_date : option Z;
  assigned_username : option string;
  assigned_password : option string
}.

(** A row of [credentials] / a document of the [credentials] collection.
    [credential_expiry_date] is nullable in the SQLite schema. *)
Record credential : Type := Credential {
  username : string;
  password : string;
  status : cred_status;
  credential_expiry_date : option Z
}.

Global Instance user_eq_dec : EqDecision user.
Proof. solve_decision. Defined.

Global Instance credential_eq_dec : EqDecision credential.
Proof. solve_decision. Defined.

(** The record a user gets on first contact: [INSERT INTO users (user_id)]
    with the column defaults, resp. the literal [user_data] dictionary. *)
Definition new_user : user :=
  {| is_bot_use := false; plan_expiry_date := None;
     assigned_username := None; assigned_password := None |}.

(** Field updates, one per [UPDATE ... SET] / [update({...})] of the source. *)
Definition set_assigned (u p : option string) (r : user) : user :=
  {| is_bot_use := is_bot_use r; plan_expiry_date := plan_expiry_date r;
     assigned_username := u; assigned_password := p |}.

Definition set_access (b : bool) (e : option Z) (r : user) : user :=
  {| is_bot_use := b; plan_expiry_date := e;
     assigned_username := assigned_username r;
     assigned_password := assigned_password r |}.

Definition set_status (s : cred_status) (c : credential) : credential :=
  {| username := username c; password := password c; status := s;
     credential_expiry_date := credential_expiry_date c |}.

Definition set_secret (p : string) (e : option Z) (c : credential) : credential :=
  {| username := username c; password := p; status := status c;
     credential_expiry_date := e |}.

(** ** Time *)

(** [timedelta(days=d)] in microseconds. *)
Definition timedelta_days (d : Z) : Z := d * 86400000000.

(** [timedelta.days] of a difference of two timestamps (floor division). *)
Definition delta_days (t : Z) : Z := t `div` 86400000000.

(** ** Python truthiness of an optional string: [None] and [''] are false. *)
Definition truthy (o : option string) : option string :=
  match o with
  | Some s => if decide (s = "") then None else Some s
  | None => None
  end.

(** The name for which [not user or not user['assigned_username']] is false,
    if there is one. *)
Definition held_username (user : option user) : option string :=
  match user with
  | Some r => truthy (assigned_username r)
  | None => None
  end.

(** ** The outside world *)

Inductive chat : Type :=
  | AdminChat                  (* chat_id=ADMIN_USERID *)
  | UserChat (user_id : Z).    (* chat_id=<a user id> *)

(** Records written through [logger]. *)
Inductive log_record : Type :=
  | LogStartedBot (user_id : Z)
  | LogNewUser (user_id : Z)
  | LogDuplicateCredential (username : string)
  | LogAssigned (username : string) (user_id : Z)
  | LogGranted (user_id days expiry_date : Z)
  | LogRevoked (user_id : Z)
  | LogFreed (username : string) (user_id : Z)
  | LogExecutingCleanup (user_id : Z)
  | LogErrorEdit (username : string)
  | LogErrorStatus (username : string)
  | LogErrorAssign (user_id : Z)
  | LogErrorGrant (user_id : Z)
  | LogErrorRevoke (user_id : Z)
  | LogErrorFree (user_id : Z)
  | LogErrorCleanup (user_id : Z).

(** The texts sent to a chat, by what they say. *)
Inductive text : Type :=
  | Welcome (durations : list Z)
  | UsagePermit
  | UsagePermitExample
  | UserNotFound (user_id : Z)
  | OutOfStock (days : Z)
  | AccessGranted (user_id days : Z) (username : string)
  | Congratulations (days : Z)
  | RevokedManually (user_id : Z)
  | RevokedByAdmin
  | UsageRestrict
  | CredentialFreed (username : string) (user_id : Z)
  | PlanEnded (user_id : Z)
  | PlanEndedByAdmin
  | NoCredentialAssigned (user_id : Z)
  | UsageFree
  | CleanupComplete (user_id : Z) (username : string)
  | PlanExpired
  | CleanupSkippedCheckManually (user_id : Z)
  | CleanupSkippedAccessRevoked (user_id : Z).

Inductive event : Type :=
  | Log (r : log_record)
  | ReplyText (t : text)                     (* update.message.reply_text *)
  | SendMessage (chat_id : chat) (t : text)  (* context.bot.send_message *)
  | CreateTask (user_id delay_seconds : Z).  (* asyncio.create_task(run_cleanup_task_after_delay(..)) *)

(** ** A state monad for code that reads and writes the store *)

Definition State (S A : Type) : Type := S → A * S.

Global Instance state_ret {S} : MRet (State S) := λ A a s, (a, s).
Global Instance state_bind {S} : MBind (State S) :=
  λ A B k m s, let '(a, s') := m s in k a s'.

Definition gets {S A} (f : S → A) : State S A := λ s, (f s, s).
Definition modify {S} (f : S → S) : State S unit := λ s, (tt, f s).

(** ** Ordering of query results *)

(** [ORDER BY credential_expiry_date ASC] / [order_by('credential_expiry_date')]:
    a missing date sorts first. *)
Definition expiry_le (a b : option Z) : Prop :=
  match a, b with
  | None, _ => True
  | Some _, None => False
  | Some x, Some y => x ≤ y
  end.

Global Instance expiry_le_dec : RelDecision expiry_le.
Proof. intros [x|] [y|]; simpl; apply _. Defined.

Global Instance expiry_le_trans : Transitive expiry_le.
Proof. intros [x|] [y|] [z|]; simpl; try done. lia. Qed.

Global Instance expiry_le_total : Total expiry_le.
Proof. intros [x|] [y|]; simpl; auto. lia. Qed.

(** The order on rows by expiry date alone. SQL leaves the order of rows
    with equal dates open; the sort used below fixes one. *)
Definition by_expiry (a b : credential) : Prop :=
  expiry_le (credential_expiry_date a) (credential_expiry_date b).

Global Instance by_expiry_dec : RelDecision by_expiry.
Proof. intros a b. unfold by_expiry. apply _. Defined.

Global Instance by_expiry_trans : Transitive by_expiry.
Proof. intros a b c. unfold by_expiry. apply expiry_le_trans. Qed.

Global Instance by_expiry_total : Total by_expiry.
Proof. intros a b. unfold by_expiry. apply expiry_le_total. Qed.

(** The filter of both [get_available_credential] queries:
    [status = 'available' AND credential_expiry_date >= ?]. A comparison
    with a missing date is not true. *)
Definition fits (required_expiry_date : Z) (c : credential) : Prop :=
  status c = available ∧
  match credential_expiry_date c with
  | Some e => required_expiry_date ≤ e
  | None => False
  end.

Global Instance fits_dec t c : Decision (fits t c).
Proof. unfold fits. destruct (credential_expiry_date c); apply _. Defined.

(** States of the purchase conversation ([range(3)] in the source). *)
Inductive conversation_state : Type :=
  | CHOOSING_PLAN
  | AWAITING_PAYMENT_CONFIRM
  | AWAITING_SCREENSHOT.

(** ** Helpers of the handlers *)

(** The characters [escape_markdown] puts a backslash before. *)
Definition escape_chars : list Ascii.ascii :=
  String.list_ascii_of_string "_*[]()~`>#+-=|{}.!".

Definition backslash : Ascii.ascii := Ascii.ascii_of_nat 92.

(** [re.sub] over the text, character by character; the empty text is
    returned as it is. Texts are byte strings: the characters escaped are
    ASCII, which no byte of a longer UTF-8 sequence equals. *)
Fixpoint escape_markdown (text : string) : string :=
  match text with
  | EmptyString => EmptyString
  | String c rest =>
      if decide (c ∈ escape_chars)
      then String backslash (String c (escape_markdown rest))
      else String c (escape_markdown rest)
  end.

(** An f-string of the source: its literal text and the fields it
    interpolates. *)
Inductive piece : Type :=
  | Lit (literal : string)
  | Field (value : string).

(** Telegram refuses a text sent with [ParseMode.MARKDOWN_V2] in which a
    reserved character stands unescaped, and the call raises [BadRequest].
    Of this rule the model keeps the case of the dot, which no markup uses:
    outside a code span (between backticks) a dot of the literal text must
    follow a backslash. A backslash escapes the character after it; what a
    field interpolates (a user id, an escaped username) is taken not to
    disturb the text. *)
Record scan : Type := Scan {
  in_code : bool;
  after_backslash : bool;
  refused : bool
}.

Definition backtick : Ascii.ascii := Ascii.ascii_of_nat 96.
Definition dot : Ascii.ascii := Ascii.ascii_of_nat 46.

Definition scan_char (st : scan) (c : Ascii.ascii) : scan :=
  if after_backslash st then Scan (in_code st) false (refused st)
  else if decide (c = backslash) then Scan (in_code st) true (refused st)
  else if decide (c = backtick) then Scan (negb (in_code st)) false (refused st)
  else if decide (c = dot)
       then Scan (in_code st) false (refused st || negb (in_code st))
  else st.

Definition scan_piece (st : scan) (p : piece) : scan :=
  match p with
  | Lit literal => foldl scan_char st (String.list_ascii_of_string literal)
  | Field _ => st
  end.

Definition unescaped_dot (source : list piece) : bool :=
  refused (foldl scan_piece (Scan false false false) source).

(** The line feed that the source writes as a backslash and an n. *)
Definition newline : string := String (Ascii.ascii_of_nat 10) EmptyString.

(** [timedelta.seconds]: the seconds within the day, between 0 and 86399. *)
Definition timedelta_seconds (t : Z) : Z := (t `mod` 86400000000) `div` 1000000.

(** [str(user_id) == ADMIN_USERID]; the variable may be unset. *)
Definition is_admin (ADMIN_USERID : option string) (user_id : Z) : bool :=
  bool_decide (Some (pretty user_id) = ADMIN_USERID).

(** The shape of a user record that the handlers keep: a plan expiry exactly
    when access is active, a credential on record whenever access is active,
    and the username and the password of the credential together. *)
Definition lease_record (r : user) : Prop :=
  (is_bot_use r = true ↔ is_Some (plan_expiry_date r)) ∧
  (is_bot_use r = true → is_Some (assigned_username r)) ∧
  (is_Some (assigned_username r) ↔ is_Some (assigned_password r)).

(** What a listing of the admin shows for the lifetime of a credential. *)
Inductive lifetime : Type :=
  | Expired
  | Remaining (days hours : Z).

(** What an admin's listing command answers. *)
Inductive listing (A : Type) : Type :=
  | Silent               (* the caller is not the admin *)
  | NothingToList
  | Lines (lines : list A)
  | Raised.              (* a row without expiry date: AttributeError *)
Arguments Silent {A}.
Arguments NothingToList {A}.
Arguments Lines {A} lines.
Arguments Raised {A}.

(** The answer built from the lines, when each could be rendered. *)
Definition render {A} (lines : option (list A)) : listing A :=
  match lines with
  | Some l => Lines l
  | None => Raised
  end.

(** What [/mydetails] shows. *)
Inductive details_view : Type :=
  | NoActivePlan
  | YourDetails (shown_username shown_password : string)
      (plan_expires : option Z).

(** The plan staged in [context.user_data] during a purchase. *)
Inductive plan_label : Type :=
  | OneWeek
  | TwoWeeks
  | Days (duration : Z).

Record plan : Type := Plan {
  price : Z;
  duration : Z;
  plan_text : plan_label
}.

(** The messages of the purchase conversation. *)
Inductive screen : Type :=
  | InvalidSelection
  | PlanOutOfStock
  | PaymentInstructions (selected_plan : plan)
  | AskForScreenshot
  | SomethingWentWrong
  | OrderConfirmation (user_id : Z) (selected_plan : plan)
  | PermitCommand (user_id duration : Z)
  | OrderBeingVerified.

(** How a conversation handler ends: it returns the next state, [None] for
    [ConversationHandler.END], or an exception leaves it. *)
Inductive ending : Type :=
  | Returns (next_state : option conversation_state)
  | Raises.

(** What a conversation handler leaves behind: how it ended,
    [context.user_data['plan']], and the messages it sent besides those of
    [start]. *)
Record step_result : Type := StepResult {
  ended : ending;
  user_data : option plan;
  shown : list (chat * screen)
}.

(** * bot.py: the SQLite store *)

Module Sqlite.

(** The database file and the output trace. [credentials] lists the rows in
    rowid order; [username] is declared UNIQUE, which [add_credential_to_pool]
    enforces below. *)
Record world : Type := World {
  users : gmap Z user;
  credentials : list credential;
  output : list event
}.

Abbreviation M := (State world).

Definition emit (e : event) : M unit :=
  modify (λ w, World (users w) (credentials w) (output w ++ [e])).

Definition update_users (f : gmap Z user → gmap Z user) : M unit :=
  modify (λ w, World (f (users w)) (credentials w) (output w)).

Definition update_credentials (f : list credential → list credential) : M unit :=
  modify (λ w, World (users w) (f (credentials w)) (output w)).

(** [UPDATE credentials SET ... WHERE username = ?]. *)
Definition sql_update (name : string) (f : credential → credential)
    (rows : list credential) : list credential :=
  (λ c, if decide (username c = name) then f c else c) <$> rows.

(** [SELECT ... WHERE username = ?] followed by [fetchone()]. *)
Definition select_by_username (name : string) (rows : list credential)
    : option credential :=
  head (filter (λ c, username c = name) rows).

Definition get_user (user_id : Z) : M (option user) :=
  gets (λ w, users w !! user_id).

Definition get_credential (name : string) : M (option credential) :=
  gets (λ w, select_by_username name (credentials w)).

Definition add_or_get_user (user_id : Z) : M (option user) :=
  user ← get_user user_id;
  match user with
  | None =>
      update_users (insert user_id new_user);;
      emit (Log (LogNewUser user_id));;
      get_user user_id
  | Some r => mret (Some r)
  end.

Definition add_credential_to_pool (now : Z) (name pass : string) (days : Z)
    : M bool :=
  let expiry_date := now + timedelta_days days in
  taken ← gets (λ w, bool_decide (name ∈ username <$> credentials w));
  if (taken : bool) then
    (* sqlite3.IntegrityError: UNIQUE constraint *)
    emit (Log (LogDuplicateCredential name));;
    mret false
  else
    update_credentials
      (λ rows, rows ++ [Credential name pass available (Some expiry_date)]);;
    mret true.

Definition edit_credential_in_pool (now : Z) (name new_password : string)
    (new_days : Z) : M bool :=
  let new_expiry_date := now + timedelta_days new_days in
  found ← gets (λ w, select_by_username name (credentials w));
  match found with
  | None => mret false
  | Some _ =>
      update_credentials
        (sql_update name (set_secret new_password (Some new_expiry_date)));;
      mret true
  end.

Definition get_available_credential (now required_days : Z)
    : M (option credential) :=
  let required_expiry_date := now + timedelta_days required_days in
  gets (λ w, head (merge_sort by_expiry
                     (filter (fits required_expiry_date) (credentials w)))).

Definition update_credential_status (name : string) (s : cred_status) : M unit :=
  update_credentials (sql_update name (set_status s)).

Definition assign_credential_to_user (user_id : Z) (cred : credential) : M unit :=
  update_users
    (alter (set_assigned (Some (username cred)) (Some (password cred))) user_id);;
  update_credential_status (username cred) in_use;;
  emit (Log (LogAssigned (username cred) user_id)).

Definition grant_user_access (now : Z) (user_id days : Z) : M unit :=
  let expiry_date := now + timedelta_days days in
  update_users (alter (set_access true (Some expiry_date)) user_id);;
  emit (Log (LogGranted user_id days expiry_date)).

Definition revoke_user_access (user_id : Z) : M unit :=
  update_users (alter (set_access false None) user_id);;
  emit (Log (LogRevoked user_id)).

Definition free_credential_from_user (user_id : Z) : M (option string) :=
  user ← get_user user_id;
  match held_username user with
  | None => mret None
  | Some username_to_free =>
      update_users (alter (set_assigned None None) user_id);;
      update_credential_status username_to_free available;;
      emit (Log (LogFreed username_to_free user_id));;
      mret (Some username_to_free)
  end.

(** *** Handlers *)

Definition check_user_permission (user_id : Z) : M bool :=
  user_record ← add_or_get_user user_id;
  mret (default false (is_bot_use <$> user_record)).

Definition default_plans : list Z := [14; 7].
Definition dynamic_durations : list Z := [2; 3; 4; 5; 8; 9; 10; 11; 12; 13].

(** The loop of [start] over [dynamic_durations]; [clock d] is the clock
    reading of the query for duration [d]. *)
Fixpoint offered (clock : Z → Z) (durations : list Z) : M (list Z) :=
  match durations with
  | [] => mret []
  | duration :: rest =>
      cred ← get_available_credential (clock duration) duration;
      more ← offered clock rest;
      mret (if cred is Some _ then duration :: more else more)
  end.

Definition start (user_id : Z) (clock : Z → Z) : M conversation_state :=
  emit (Log (LogStartedBot user_id));;
  add_or_get_user user_id;;
  keyboard ← offered clock dynamic_durations;
  emit (ReplyText (Welcome (default_plans ++ keyboard)));;
  mret CHOOSING_PLAN.

(** The texts of the cleanup task, as bot.py writes them. *)
Definition cleanup_complete_notice (user_id : Z) (freed_username : string)
    : list piece :=
  [Lit "ü§ñ *Automated Cleanup Complete* ü§ñ";
   Lit newline;
   Lit newline;
   Lit "Plan for user `";
   Field (pretty user_id);
   Lit "` has expired\. Credential `";
   Field (escape_markdown freed_username);
   Lit "` has been automatically freed and is now available in the pool\."].

Definition plan_expired_notice : list piece :=
  [Lit "Your plan has expired\. Please use /start to purchase a new one\."].

Definition cleanup_skipped_notice (user_id : Z) : list piece :=
  [Lit "üîî *Plan Expired Notification* üîî";
   Lit newline;
   Lit newline;
   Lit "The plan for user `";
   Field (pretty user_id);
   Lit "` has ended\. Automatic cleanup was skipped as they had no credential assigned\. Please check manually if needed\."].

(** [context.bot.send_message(..., parse_mode=ParseMode.MARKDOWN_V2)] inside
    the [try] of the cleanup task, followed by the rest of the [try]: when
    Telegram refuses the text, the call raises, the rest is skipped and
    [except Exception] logs the failure. *)
Definition send_in_cleanup (user_id : Z) (c : chat) (t : text)
    (source : list piece) (rest : M unit) : M unit :=
  if unescaped_dot source then emit (Log (LogErrorCleanup user_id))
  else (emit (SendMessage c t);; rest).

(** The task body once [asyncio.sleep(delay_seconds)] has returned. *)
Definition run_cleanup_task_after_delay (user_id : Z) : M unit :=
  emit (Log (LogExecutingCleanup user_id));;
  freed_username ← free_credential_from_user user_id;
  match truthy freed_username with
  | Some name =>
      revoke_user_access user_id;;
      send_in_cleanup user_id AdminChat (CleanupComplete user_id name)
        (cleanup_complete_notice user_id name)
        (send_in_cleanup user_id (UserChat user_id) PlanExpired
           plan_expired_notice (mret tt))
  | None =>
      send_in_cleanup user_id AdminChat (CleanupSkippedCheckManually user_id)
        (cleanup_skipped_notice user_id) (mret tt)
  end.

Definition permit_bot_use (caller_is_admin : bool) (args : list (option Z))
    (now_find now_grant : Z) : M unit :=
  if negb caller_is_admin then mret tt else
  match args with
  | [Some target_user_id; Some days_to_grant] =>
      user ← get_user target_user_id;
      match user with
      | None => emit (ReplyText (UserNotFound target_user_id))
      | Some _ =>
          available_cred ← get_available_credential now_find days_to_grant;
          match available_cred with
          | None => emit (ReplyText (OutOfStock days_to_grant))
          | Some cred =>
              assign_credential_to_user target_user_id cred;;
              grant_user_access now_grant target_user_id days_to_grant;;
              let seconds_to_wait := days_to_grant * 86400 in
              emit (CreateTask target_user_id seconds_to_wait);;
              emit (ReplyText (AccessGranted target_user_id days_to_grant
                                 (username cred)));;
              emit (SendMessage (UserChat target_user_id)
                      (Congratulations days_to_grant))
          end
      end
  | [_; _] => emit (ReplyText UsagePermitExample)   (* ValueError *)
  | _ => emit (ReplyText UsagePermit)               (* len(context.args) != 2 *)
  end.

Definition restrict_bot_use (caller_is_admin : bool) (args : list (option Z))
    : M unit :=
  if negb caller_is_admin then mret tt else
  match args with
  | Some target_user_id :: _ =>
      user ← get_user target_user_id;
      match user with
      | Some _ =>
          revoke_user_access target_user_id;;
          emit (ReplyText (RevokedManually target_user_id));;
          emit (SendMessage (UserChat target_user_id) RevokedByAdmin)
      | None => emit (ReplyText (UserNotFound target_user_id))
      end
  | _ => emit (ReplyText UsageRestrict)   (* IndexError, ValueError *)
  end.

Definition free_credential (caller_is_admin : bool) (args : list (option Z))
    : M unit :=
  if negb caller_is_admin then mret tt else
  match args with
  | Some target_user_id :: _ =>
      freed_username ← free_credential_from_user target_user_id;
      match truthy freed_username with
      | Some name =>
          revoke_user_access target_user_id;;
          emit (ReplyText (CredentialFreed name target_user_id));;
          emit (SendMessage AdminChat (PlanEnded target_user_id))
      | None => emit (ReplyText (NoCredentialAssigned target_user_id))
      end
  | _ => emit (ReplyText UsageFree)   (* IndexError, ValueError *)
  end.

(** *** The bot as a whole

    A request is one update dispatched to a handler, or the firing of a
    cleanup timer. Between two [await]s a handler runs alone, and every
    handler does all of its store accesses before its first message is sent,
    so requests are served one after the other. [ChessLink] stands for the
    permission check of [handle_chess_link], [AddCredential] and
    [EditCredential] for the call the admin's command makes into the pool. *)
Inductive request : Type :=
  | StartCommand (user_id : Z) (clock : Z → Z)
  | ChessLink (user_id : Z)
  | AddCredential (now : Z) (name pass : string) (days : Z)
  | EditCredential (now : Z) (name new_password : string) (new_days : Z)
  | PermitBotUse (caller_is_admin : bool) (args : list (option Z))
      (now_find now_grant : Z)
  | RestrictBotUse (caller_is_admin : bool) (args : list (option Z))
  | FreeCredential (caller_is_admin : bool) (args : list (option Z))
  | CleanupTimer (user_id : Z).

Definition serve (r : request) : M unit :=
  match r with
  | StartCommand user_id clock => start user_id clock;; mret tt
  | ChessLink user_id => check_user_permission user_id;; mret tt
  | AddCredential now name pass days =>
      add_credential_to_pool now name pass days;; mret tt
  | EditCredential now name new_password new_days =>
      edit_credential_in_pool now name new_password new_days;; mret tt
  | PermitBotUse a args now_find now_grant =>
      permit_bot_use a args now_find now_grant
  | RestrictBotUse a args => restrict_bot_use a args
  | FreeCredential a args => free_credential a args
  | CleanupTimer user_id => run_cleanup_task_after_delay user_id
  end.

Definition run (rs : list request) (w : world) : world :=
  foldl (λ w r, (serve r w).2) w rs.

(** The store after [init_db] on a fresh file. *)
Definition initial : world := World ∅ [] [].

(** The request returns the credential called [name] to the pool. *)
Definition frees (name : string) (r : request) (w : world) : Prop :=
  match r with
  | FreeCredential true (Some user_id :: _) | CleanupTimer user_id =>
      (free_credential_from_user user_id w).1 = Some name
  | _ => False
  end.

Fixpoint never_frees (name : string) (rs : list request) (w : world) : Prop :=
  match rs with
  | [] => True
  | r :: rs' => ¬ frees name r w ∧ never_frees name rs' (serve r w).2
  end.

(** The credential called [name] is in the pool and in use. *)
Definition pinned (name : string) (w : world) : Prop :=
  (∃ c, c ∈ credentials w ∧ username c = name) ∧
  ∀ c, c ∈ credentials w → username c = name → status c = in_use.

(** The integrity of the store: usernames are unique in the pool, a
    credential written into a user's record is in the pool and in use, and
    no two users carry the same one. *)
Record consistent (w : world) : Prop := Consistent {
  unique_usernames : NoDup (username <$> credentials w);
  held_in_use : ∀ user_id r name,
    users w !! user_id = Some r → assigned_username r = Some name →
    ∃ c, c ∈ credentials w ∧ username c = name ∧ status c = in_use;
  one_holder : ∀ u1 u2 r1 r2 name,
    users w !! u1 = Some r1 → users w !! u2 = Some r2 →
    assigned_username r1 = Some name → assigned_username r2 = Some name →
    u1 = u2
}.

(** No user record carries the credential called [name]. *)
Definition unheld (name : string) (w : world) : Prop :=
  ∀ user_id r, users w !! user_id = Some r → assigned_username r ≠ Some name.

(** *** Listings and the purchase conversation *)

(** The filter of [get_all_available_credentials]:
    [status = 'available' AND credential_expiry_date > ?]. *)
Definition unexpired (now : Z) (c : credential) : Prop :=
  status c = available ∧
  match credential_expiry_date c with
  | Some e => now < e
  | None => False
  end.

Global Instance unexpired_dec t c : Decision (unexpired t c).
Proof. unfold unexpired. destruct (credential_expiry_date c); apply _. Defined.

Definition get_all_available_credentials (now : Z) : M (list credential) :=
  gets (λ w, merge_sort by_expiry (filter (unexpired now) (credentials w))).

(** A row of the join of [get_all_used_credentials]. *)
Record used_row : Type := UsedRow {
  used_username : string;
  used_expiry : option Z;
  used_by : Z
}.

(** [credentials c JOIN users u ON c.username = u.assigned_username WHERE
    c.status = 'in_use']; SQL leaves the order of the rows open. *)
Definition get_all_used_credentials : M (list used_row) :=
  gets (λ w,
    c ← credentials w;
    ur ← map_to_list (users w);
    if decide (status c = in_use ∧ assigned_username ur.2 = Some (username c))
    then [UsedRow (username c) (credential_expiry_date c) ur.1]
    else []).

(** [see_available_credentials]: a line per credential with the days and
    hours of its remaining time. *)
Definition see_available_credentials (caller_is_admin : bool)
    (now_query now : Z) : M (listing (string * Z * Z)) :=
  if negb caller_is_admin then mret Silent else
  creds ← get_all_available_credentials now_query;
  match creds with
  | [] => mret NothingToList
  | _ =>
      mret (render (mapM (λ cred,
        match credential_expiry_date cred with
        | Some expiry_date =>
            let remaining_time := expiry_date - now in
            Some (escape_markdown (username cred), delta_days remaining_time,
                  timedelta_seconds remaining_time `div` 3600)
        | None => None
        end) creds))
  end.

(** [see_used_credentials]: a line per row of the join. *)
Definition see_used_credentials (caller_is_admin : bool) (now : Z)
    : M (listing (string * Z * lifetime)) :=
  if negb caller_is_admin then mret Silent else
  creds ← get_all_used_credentials;
  match creds with
  | [] => mret NothingToList
  | _ =>
      mret (render (mapM (λ cred,
        match used_expiry cred with
        | Some expiry_date =>
            let remaining_time := expiry_date - now in
            Some (escape_markdown (used_username cred), used_by cred,
                  if decide (remaining_time < 0) then Expired
                  else Remaining (delta_days remaining_time)
                         (timedelta_seconds remaining_time `div` 3600))
        | None => None
        end) creds))
  end.

(** [my_details], for an update that carries a message. *)
Definition my_details (user_id : Z) : M details_view :=
  user_record ← get_user user_id;
  let shown_username :=
    default "Not set" (user_record ≫= λ r, truthy (assigned_username r)) in
  let shown_password :=
    default "Not set" (user_record ≫= λ r, truthy (assigned_password r)) in
  let expiry_date :=
    r ← user_record;
    _ ← truthy (assigned_username r);
    plan_expiry_date r in
  mret (YourDetails (escape_markdown shown_username)
          (escape_markdown shown_password) expiry_date).

(** [start] entered from a callback query: it answers with [edit_text] on
    the message of the query. On a message that is gone Telegram refuses
    the call, which raises [BadRequest] after the upsert and the queries of
    [start]; [None] stands for the exception. *)
Definition start_from_callback (user_id : Z) (clock : Z → Z)
    (message_left : bool) : M (option conversation_state) :=
  if message_left then
    state ← start user_id clock;
    mret (Some state)
  else
    emit (Log (LogStartedBot user_id));;
    add_or_get_user user_id;;
    offered clock dynamic_durations;;
    mret None.

(** [handle_buy_plan]; [data] is the duration read from the callback data,
    [None] when it cannot be read. For a plan out of stock the handler
    writes its notice into the message of the query, asks Telegram to delete
    that message ([BadRequest] caught) and calls [start], which edits the
    same message: [message_left] says whether the message is still there
    then, which it is only if Telegram refused to delete it. *)
Definition handle_buy_plan (user_id : Z) (data : option Z)
    (staged : option plan) (now : Z) (clock : Z → Z) (message_left : bool)
    : M step_result :=
  match data with
  | None =>
      mret (StepResult (Returns None) staged
              [(UserChat user_id, InvalidSelection)])
  | Some duration =>
      let selected_plan :=
        if decide (duration = 7) then Plan 7 duration OneWeek
        else if decide (duration = 14) then Plan 14 duration TwoWeeks
        else Plan duration duration (Days duration) in
      cred ← get_available_credential now duration;
      match cred with
      | None =>
          state ← start_from_callback user_id clock message_left;
          match state with
          | Some _ =>
              mret (StepResult (Returns None) staged
                      [(UserChat user_id, PlanOutOfStock)])
          | None =>
              mret (StepResult Raises staged
                      [(UserChat user_id, PlanOutOfStock)])
          end
      | Some _ =>
          mret (StepResult (Returns (Some AWAITING_PAYMENT_CONFIRM))
                  (Some selected_plan)
                  [(UserChat user_id, PaymentInstructions selected_plan)])
      end
  end.

Definition handle_payment_confirmation (user_id : Z) (staged : option plan)
    : M step_result :=
  mret (StepResult (Returns (Some AWAITING_SCREENSHOT)) staged
          [(UserChat user_id, AskForScreenshot)]).

Definition handle_screenshot (user_id : Z) (staged : option plan)
    : M step_result :=
  match staged with
  | None =>
      mret (StepResult (Returns None) staged
              [(UserChat user_id, SomethingWentWrong)])
  | Some selected_plan =>
      mret (StepResult (Returns None) None
              [(AdminChat, OrderConfirmation user_id selected_plan);
               (AdminChat, PermitCommand user_id (duration selected_plan));
               (UserChat user_id, OrderBeingVerified)])
  end.

End Sqlite.

(** * bot_v2.0.py: the Firestore store *)

Module Firestore.

(** The two collections and the output trace. A document is found by its
    id: [str(user_id)] for a user, the username for a credential. *)
Record world : Type := World {
  users : gmap Z user;
  credentials : gmap string credential;
  output : list event
}.

Abbreviation M := (State world).

Definition emit (e : event) : M unit :=
  modify (λ w, World (users w) (credentials w) (output w ++ [e])).

(** [document(id).set(data)]: creates or overwrites. *)
Definition users_set (user_id : Z) (data : user) : M unit :=
  modify (λ w, World (<[user_id := data]> (users w)) (credentials w) (output w)).

Definition credentials_set (id : string) (data : credential) : M unit :=
  modify (λ w, World (users w) (<[id := data]> (credentials w)) (output w)).

(** [document(id).update(fields)]: raises NotFound when there is no such
    document. The result tells whether the call returned ([true]) or raised. *)
Definition users_update (user_id : Z) (f : user → user) : M bool :=
  λ w, match users w !! user_id with
       | Some r => (true, World (<[user_id := f r]> (users w)) (credentials w) (output w))
       | None => (false, w)
       end.

Definition credentials_update (id : string) (f : credential → credential) : M bool :=
  λ w, match credentials w !! id with
       | Some c => (true, World (users w) (<[id := f c]> (credentials w)) (output w))
       | None => (false, w)
       end.

(** The order of a query with [order_by('credential_expiry_date')]: by the
    field, then by document id. *)
Definition by_expiry_then_id (a b : string * credential) : Prop :=
  if decide (credential_expiry_date a.2 = credential_expiry_date b.2)
  then String.le a.1 b.1
  else by_expiry a.2 b.2.

Global Instance by_expiry_then_id_dec : RelDecision by_expiry_then_id.
Proof. intros a b. unfold by_expiry_then_id. case_decide; apply _. Defined.

(** [where(...).where(...).order_by(...)] over the credentials collection,
    as the list of document snapshots the stream yields. *)
Definition query (P : credential → Prop) `{∀ c, Decision (P c)}
    (docs : gmap string credential) : list (string * credential) :=
  merge_sort by_expiry_then_id (filter (λ kv, P kv.2) (map_to_list docs)).

Definition get_user (user_id : Z) : M (option user) :=
  gets (λ w, users w !! user_id).

Definition get_credential (name : string) : M (option credential) :=
  gets (λ w, credentials w !! name).

Definition add_or_get_user (user_id : Z) : M (option user) :=
  user ← get_user user_id;
  match user with
  | None =>
      let user_data := new_user in
      users_set user_id user_data;;
      emit (Log (LogNewUser user_id));;
      mret (Some user_data)
  | Some r => mret (Some r)
  end.

Definition add_credential_to_pool (now : Z) (name pass : string) (days : Z)
    : M bool :=
  existing ← get_credential name;
  match existing with
  | Some _ =>
      emit (Log (LogDuplicateCredential name));;
      mret false
  | None =>
      let expiry_date := now + timedelta_days days in
      credentials_set name (Credential name pass available (Some expiry_date));;
      mret true
  end.

Definition edit_credential_in_pool (now : Z) (name new_password : string)
    (new_days : Z) : M bool :=
  existing ← get_credential name;
  match existing with
  | None => mret false
  | Some _ =>
      let new_expiry_date := now + timedelta_days new_days in
      ok ← credentials_update name (set_secret new_password (Some new_expiry_date));
      if (ok : bool) then mret true
      else emit (Log (LogErrorEdit name));; mret false
  end.

Definition get_available_credential (now required_days : Z)
    : M (option credential) :=
  let required_expiry_date := now + timedelta_days required_days in
  gets (λ w, snd <$> head (query (fits required_expiry_date) (credentials w))).

(** The filter of [get_all_available_credentials]:
    [status == 'available'] and [credential_expiry_date > now]. *)
Definition unexpired (now : Z) (c : credential) : Prop :=
  status c = available ∧
  match credential_expiry_date c with
  | Some e => now < e
  | None => False
  end.

Global Instance unexpired_dec t c : Decision (unexpired t c).
Proof. unfold unexpired. destruct (credential_expiry_date c); apply _. Defined.

Definition get_all_available_credentials (now : Z) : M (list credential) :=
  gets (λ w, snd <$> query (unexpired now) (credentials w)).

Definition update_credential_status (name : string) (s : cred_status) : M unit :=
  ok ← credentials_update name (set_status s);
  if (ok : bool) then mret tt else emit (Log (LogErrorStatus name)).

Definition assign_credential_to_user (user_id : Z) (cred : credential) : M unit :=
  ok ← users_update user_id
         (set_assigned (Some (username cred)) (Some (password cred)));
  if (ok : bool) then
    update_credential_status (username cred) in_use;;
    emit (Log (LogAssigned (username cred) user_id))
  else emit (Log (LogErrorAssign user_id)).

Definition grant_user_access (now : Z) (user_id days : Z) : M unit :=
  let expiry_date := now + timedelta_days days in
  ok ← users_update user_id (set_access true (Some expiry_date));
  if (ok : bool) then emit (Log (LogGranted user_id days expiry_date))
  else emit (Log (LogErrorGrant user_id)).

Definition revoke_user_access (user_id : Z) : M unit :=
  ok ← users_update user_id (set_access false None);
  if (ok : bool) then emit (Log (LogRevoked user_id))
  else emit (Log (LogErrorRevoke user_id)).

Definition free_credential_from_user (user_id : Z) : M (option string) :=
  user ← get_user user_id;
  match held_username user with
  | None => mret None
  | Some username_to_free =>
      ok ← users_update user_id (set_assigned None None);
      if (ok : bool) then
        update_credential_status username_to_free available;;
        emit (Log (LogFreed username_to_free user_id));;
        mret (Some username_to_free)
      else emit (Log (LogErrorFree user_id));; mret None
  end.

(** *** Handlers *)

Definition check_user_permission (user_id : Z) : M bool :=
  user_record ← add_or_get_user user_id;
  mret (default false (is_bot_use <$> user_record)).

(** One round of the loop of [start] over the available credentials; the
    durations on the keyboard are the members of [durations_offered]. *)
Definition offer (now : Z) (keyboard : list Z) (cred : credential) : list Z :=
  match credential_expiry_date cred with
  | Some expiry_date =>
      let remaining_time := expiry_date - now in
      if decide (0 < remaining_time) then
        let remaining_days := delta_days remaining_time in
        if decide (1 ≤ remaining_days ∧ remaining_days ∉ keyboard)
        then keyboard ++ [remaining_days]
        else keyboard
      else keyboard
  | None => keyboard
  end.

Definition start (user_id : Z) (now_query now : Z) : M conversation_state :=
  emit (Log (LogStartedBot user_id));;
  add_or_get_user user_id;;
  available_creds ← get_all_available_credentials now_query;
  let keyboard := foldl (offer now) [] available_creds in
  emit (ReplyText (Welcome (merge_sort Z.le keyboard)));;
  mret CHOOSING_PLAN.

(** The texts of the cleanup task, as bot_v2.0.py writes them. *)
Definition cleanup_complete_notice (user_id : Z) (freed_username : string)
    : list piece :=
  [Lit "🤖 *Automated Cleanup Complete* 🤖";
   Lit newline;
   Lit newline;
   Lit "Plan for user `";
   Field (pretty user_id);
   Lit "` has expired\. Credential `";
   Field (escape_markdown freed_username);
   Lit "` has been automatically freed and is now available in the pool\."].

Definition plan_expired_notice : list piece :=
  [Lit "Your plan has expired\. Please use /start to purchase a new one\."].

Definition cleanup_skipped_notice (user_id : Z) : list piece :=
  [Lit "🔔 *Plan Expired Notification* 🔔";
   Lit newline;
   Lit newline;
   Lit "The plan for user `";
   Field (pretty user_id);
   Lit "` has ended\. Automatic cleanup was skipped as they had no credential assigned\. Their access has been revoked."].

(** [context.bot.send_message(..., parse_mode=ParseMode.MARKDOWN_V2)] inside
    the [try] of the cleanup task, followed by the rest of the [try]: when
    Telegram refuses the text, the call raises, the rest is skipped and
    [except Exception] logs the failure. *)
Definition send_in_cleanup (user_id : Z) (c : chat) (t : text)
    (source : list piece) (rest : M unit) : M unit :=
  if unescaped_dot source then emit (Log (LogErrorCleanup user_id))
  else (emit (SendMessage c t);; rest).

(** The task body once [asyncio.sleep(delay_seconds)] has returned. *)
Definition run_cleanup_task_after_delay (user_id : Z) : M unit :=
  emit (Log (LogExecutingCleanup user_id));;
  freed_username ← free_credential_from_user user_id;
  match truthy freed_username with
  | Some name =>
      revoke_user_access user_id;;
      send_in_cleanup user_id AdminChat (CleanupComplete user_id name)
        (cleanup_complete_notice user_id name)
        (send_in_cleanup user_id (UserChat user_id) PlanExpired
           plan_expired_notice (mret tt))
  | None =>
      revoke_user_access user_id;;
      send_in_cleanup user_id AdminChat (CleanupSkippedAccessRevoked user_id)
        (cleanup_skipped_notice user_id) (mret tt)
  end.

Definition permit_bot_use (caller_is_admin : bool) (args : list (option Z))
    (now_find now_grant : Z) : M unit :=
  if negb caller_is_admin then mret tt else
  match args with
  | [Some target_user_id; Some days_to_grant] =>
      user ← get_user target_user_id;
      match user with
      | None => emit (ReplyText (UserNotFound target_user_id))
      | Some _ =>
          available_cred ← get_available_credential now_find days_to_grant;
          match available_cred with
          | None => emit (ReplyText (OutOfStock days_to_grant))
          | Some cred =>
              assign_credential_to_user target_user_id cred;;
              grant_user_access now_grant target_user_id days_to_grant;;
              let seconds_to_wait := days_to_grant * 86400 in
              emit (CreateTask target_user_id seconds_to_wait);;
              emit (ReplyText (AccessGranted target_user_id days_to_grant
                                 (username cred)));;
              emit (SendMessage (UserChat target_user_id)
                      (Congratulations days_to_grant))
          end
      end
  | [_; _] => emit (ReplyText UsagePermitExample)   (* ValueError *)
  | _ => emit (ReplyText UsagePermit)               (* len(context.args) != 2 *)
  end.

Definition restrict_bot_use (caller_is_admin : bool) (args : list (option Z))
    : M unit :=
  if negb caller_is_admin then mret tt else
  match args with
  | Some target_user_id :: _ =>
      user ← get_user target_user_id;
      match user with
      | Some _ =>
          revoke_user_access target_user_id;;
          emit (ReplyText (RevokedManually target_user_id));;
          emit (SendMessage (UserChat target_user_id) RevokedByAdmin)
      | None => emit (ReplyText (UserNotFound target_user_id))
      end
  | _ => emit (ReplyText UsageRestrict)   (* IndexError, ValueError *)
  end.

Definition free_credential (caller_is_admin : bool) (args : list (option Z))
    : M unit :=
  if negb caller_is_admin then mret tt else
  match args with
  | Some target_user_id :: _ =>
      freed_username ← free_credential_from_user target_user_id;
      match truthy freed_username with
      | Some name =>
          revoke_user_access target_user_id;;
          emit (ReplyText (CredentialFreed name target_user_id));;
          emit (SendMessage (UserChat target_user_id) PlanEndedByAdmin)
      | None => emit (ReplyText (NoCredentialAssigned target_user_id))
      end
  | _ => emit (ReplyText UsageFree)   (* IndexError, ValueError *)
  end.

(** *** The bot as a whole: requests as for the SQLite store. *)
Inductive request : Type :=
  | StartCommand (user_id : Z) (now_query now : Z)
  | ChessLink (user_id : Z)
  | AddCredential (now : Z) (name pass : string) (days : Z)
  | EditCredential (now : Z) (name new_password : string) (new_days : Z)
  | PermitBotUse (caller_is_admin : bool) (args : list (option Z))
      (now_find now_grant : Z)
  | RestrictBotUse (caller_is_admin : bool) (args : list (option Z))
  | FreeCredential (caller_is_admin : bool) (args : list (option Z))
  | CleanupTimer (user_id : Z).

Definition serve (r : request) : M unit :=
  match r with
  | StartCommand user_id now_query now => start user_id now_query now;; mret tt
  | ChessLink user_id => check_user_permission user_id;; mret tt
  | AddCredential now name pass days =>
      add_credential_to_pool now name pass days;; mret tt
  | EditCredential now name new_password new_days =>
      edit_credential_in_pool now name new_password new_days;; mret tt
  | PermitBotUse a args now_find now_grant =>
      permit_bot_use a args now_find now_grant
  | RestrictBotUse a args => restrict_bot_use a args
  | FreeCredential a args => free_credential a args
  | CleanupTimer user_id => run_cleanup_task_after_delay user_id
  end.

Definition run (rs : list request) (w : world) : world :=
  foldl (λ w r, (serve r w).2) w rs.

(** The store with both collections empty. *)
Definition initial : world := World ∅ ∅ [].

(** The request returns the credential called [name] to the pool. *)
Definition frees (name : string) (r : request) (w : world) : Prop :=
  match r with
  | FreeCredential true (Some user_id :: _) | CleanupTimer user_id =>
      (free_credential_from_user user_id w).1 = Some name
  | _ => False
  end.

Fixpoint never_frees (name : string) (rs : list request) (w : world) : Prop :=
  match rs with
  | [] => True
  | r :: rs' => ¬ frees name r w ∧ never_frees name rs' (serve r w).2
  end.

(** The credential called [name] is in the pool and in use. *)
Definition pinned (name : string) (w : world) : Prop :=
  ∃ c, credentials w !! name = Some c ∧ status c = in_use.

(** Every credential document is stored under its own username. *)
Definition keyed (w : world) : Prop :=
  ∀ id c, credentials w !! id = Some c → username c = id.

(** The integrity of the store: documents are keyed by username, a
    credential written into a user's record is in the pool and in use, and
    no two users carry the same one. *)
Record consistent (w : world) : Prop := Consistent {
  keyed_by_username : keyed w;
  held_in_use : ∀ user_id r name,
    users w !! user_id = Some r → assigned_username r = Some name →
    ∃ c, credentials w !! name = Some c ∧ status c = in_use;
  one_holder : ∀ u1 u2 r1 r2 name,
    users w !! u1 = Some r1 → users w !! u2 = Some r2 →
    assigned_username r1 = Some name → assigned_username r2 = Some name →
    u1 = u2
}.

(** No user record carries the credential called [name]. *)
Definition unheld (name : string) (w : world) : Prop :=
  ∀ user_id r, users w !! user_id = Some r → assigned_username r ≠ Some name.

(** *** Listings and the purchase conversation *)

(** The order in which a collection streams its documents: by id. *)
Definition by_id {A} (a b : string * A) : Prop := String.le a.1 b.1.

Global Instance by_id_dec {A} : RelDecision (@by_id A).
Proof. intros a b. unfold by_id. apply _. Defined.

(** [users_ref.stream()] gathered into [all_users]: the documents in the
    order of their ids, which are [str(user_id)]. *)
Definition all_users (w : world) : list (string * user) :=
  merge_sort by_id (prod_map pretty id <$> map_to_list (users w)).

(** [get_all_used_credentials]: each credential in use, with the id of the
    first user document that carries its username, if there is one. *)
Definition get_all_used_credentials : M (list (credential * string)) :=
  gets (λ w,
    let docs :=
      merge_sort by_id
        (filter (λ kv, status kv.2 = in_use) (map_to_list (credentials w))) in
    omap (λ cred_doc,
      let cred_data := cred_doc.2 in
      match list_find
              (λ ud : string * user,
                 assigned_username ud.2 = Some (username cred_data))
              (all_users w) with
      | Some (_, (user_id, _)) => Some (cred_data, user_id)
      | None => None
      end) docs).

Definition see_available_credentials (caller_is_admin : bool)
    (now_query now : Z) : M (listing (string * Z * Z)) :=
  if negb caller_is_admin then mret Silent else
  creds ← get_all_available_credentials now_query;
  match creds with
  | [] => mret NothingToList
  | _ =>
      mret (render (mapM (λ cred,
        match credential_expiry_date cred with
        | Some expiry_date =>
            let remaining_time := expiry_date - now in
            Some (escape_markdown (username cred), delta_days remaining_time,
                  timedelta_seconds remaining_time `div` 3600)
        | None => None
        end) creds))
  end.

Definition see_used_credentials (caller_is_admin : bool) (now : Z)
    : M (listing (string * string * lifetime)) :=
  if negb caller_is_admin then mret Silent else
  creds ← get_all_used_credentials;
  match creds with
  | [] => mret NothingToList
  | _ =>
      mret (render (mapM (λ cred : credential * string,
        match credential_expiry_date cred.1 with
        | Some expiry_date =>
            let remaining_time := expiry_date - now in
            Some (escape_markdown (username cred.1), escape_markdown cred.2,
                  if decide (remaining_time < 0) then Expired
                  else Remaining (delta_days remaining_time)
                         (timedelta_seconds remaining_time `div` 3600))
        | None => None
        end) creds))
  end.

(** [my_details], for an update that carries a message; a field that is
    [None] is shown as the empty text, as [escape_markdown(None)] is. *)
Definition my_details (user_id : Z) : M details_view :=
  user_record ← get_user user_id;
  match user_record with
  | None => mret NoActivePlan
  | Some r =>
      if negb (is_bot_use r) then mret NoActivePlan
      else
        mret (YourDetails
                (escape_markdown (default "" (assigned_username r)))
                (escape_markdown (default "" (assigned_password r)))
                (plan_expiry_date r))
  end.

(** [start] entered from a callback query: it answers with [edit_text] on
    the message of the query. On a message that is gone Telegram refuses
    the call, which raises [BadRequest] after the upsert and the query of
    [start]; [None] stands for the exception. *)
Definition start_from_callback (user_id : Z) (now_query now : Z)
    (message_left : bool) : M (option conversation_state) :=
  if message_left then
    state ← start user_id now_query now;
    mret (Some state)
  else
    emit (Log (LogStartedBot user_id));;
    add_or_get_user user_id;;
    get_all_available_credentials now_query;;
    mret None.

(** [handle_buy_plan]. For a plan out of stock the handler writes its notice
    into the message of the query, asks Telegram to delete that message
    ([BadRequest] caught) and calls [start], which edits the same message:
    [message_left] says whether the message is still there then, which it is
    only if Telegram refused to delete it. *)
Definition handle_buy_plan (user_id : Z) (data : option Z)
    (staged : option plan) (now now_query now_start : Z)
    (message_left : bool) : M step_result :=
  match data with
  | None =>
      mret (StepResult (Returns None) staged
              [(UserChat user_id, InvalidSelection)])
  | Some duration =>
      let selected_plan := Plan (duration * 2) duration (Days duration) in
      cred ← get_available_credential now duration;
      match cred with
      | None =>
          state ← start_from_callback user_id now_query now_start message_left;
          match state with
          | Some _ =>
              mret (StepResult (Returns None) staged
                      [(UserChat user_id, PlanOutOfStock)])
          | None =>
              mret (StepResult Raises staged
                      [(UserChat user_id, PlanOutOfStock)])
          end
      | Some _ =>
          mret (StepResult (Returns (Some AWAITING_PAYMENT_CONFIRM))
                  (Some selected_plan)
                  [(UserChat user_id, PaymentInstructions selected_plan)])
      end
  end.

Definition handle_payment_confirmation (user_id : Z) (staged : option plan)
    : M step_result :=
  mret (StepResult (Returns (Some AWAITING_SCREENSHOT)) staged
          [(UserChat user_id, AskForScreenshot)]).

Definition handle_screenshot (user_id : Z) (staged : option plan)
    : M step_result :=
  match staged with
  | None =>
      mret (StepResult (Returns None) staged
              [(UserChat user_id, SomethingWentWrong)])
  | Some selected_plan =>
      mret (StepResult (Returns None) None
              [(AdminChat, OrderConfirmation user_id selected_plan);
               (AdminChat, PermitCommand user_id (duration selected_plan));
               (UserChat user_id, OrderBeingVerified)])
  end.

End Firestore.

(** * Properties *)

(** ** The first row of a sorted query result *)

Section sorted_head.
Context {A : Type} (R : relation A) `{!RelDecision R, !Transitive R, !Total R}.

Lemma head_merge_sort_None (l : list A) :
  head (merge_sort R l) = None → l = [].
Proof.
  intros H. pose proof (merge_sort_Permutation R l) as Hp.
  destruct (merge_sort R l); [|done].
  by apply Permutation_nil_l in Hp.
Qed.

Lemma head_merge_sort_Some (l : list A) (x : A) :
  head (merge_sort R l) = Some x → x ∈ l ∧ ∀ y, y ∈ l → R x y.
Proof.
  intros H.
  pose proof (merge_sort_Permutation R l) as Hp.
  pose proof (StronglySorted_merge_sort R l) as Hs.
  destruct (merge_sort R l) as [|x' t]; simplify_eq/=.
  split.
  - rewrite <- Hp. left.
  - intros y Hy. rewrite <- Hp in Hy.
    apply elem_of_cons in Hy as [->|Hy].
    + destruct (total R x x); done.
    + apply StronglySorted_inv in Hs as [_ Hall].
      rewrite Forall_forall in Hall. by apply Hall.
Qed.
End sorted_head.

(** ** Facts shared by both stores *)

(** Unfolds the monadic plumbing of a store function. *)
Ltac run_state :=
  unfold mbind, state_bind, mret, state_ret, gets, modify; simpl.

Lemma held_username_Some o name :
  held_username o = Some name ↔
  ∃ r, o = Some r ∧ assigned_username r = Some name ∧ name ≠ "".
Proof.
  unfold held_username, truthy. split.
  - destruct o as [r|]; [|done].
    destruct (assigned_username r) as [s|] eqn:Ha; [|done].
    case_decide; [done|]. intros [= <-]. by exists r.
  - intros (r & -> & -> & Hne). by rewrite decide_False.
Qed.

(** An empty assigned username counts as none, as [not ''] is true. *)
Lemma held_username_empty r :
  assigned_username r = Some "" → held_username (Some r) = None.
Proof. intros H. simpl. by rewrite H. Qed.

Lemma no_credential_held (us : gmap Z user) u :
  (∀ r, us !! u = Some r → assigned_username r = None) →
  held_username (us !! u) = None.
Proof.
  intros H. destruct (us !! u) as [r|] eqn:Hu; [|done].
  simpl. by rewrite (H r).
Qed.

Lemma lookup_alter_assigned (f : user → user) uid (us : gmap Z user) u r' :
  (∀ r, assigned_username (f r) = assigned_username r) →
  alter f uid us !! u = Some r' →
  ∃ r, us !! u = Some r ∧ assigned_username r = assigned_username r'.
Proof.
  intros Hf. rewrite lookup_alter. case_decide as Hd.
  - subst u. destruct (us !! uid) as [r|]; simpl; [|done].
    intros [= <-]. exists r. by rewrite Hf.
  - intros H. by exists r'.
Qed.

(** * Facts about the SQLite store *)

Module SqliteFacts.
Import Sqlite.

Lemma sq_elem_of_sql_update name f (rows : list credential) c' :
  c' ∈ sql_update name f rows ↔
  ∃ c, c ∈ rows ∧ c' = if decide (username c = name) then f c else c.
Proof.
  unfold sql_update. rewrite list_elem_of_fmap. split.
  - intros (c & -> & Hin). by exists c.
  - intros (c & Hin & ->). by exists c.
Qed.

Lemma sq_sql_update_other name f (rows : list credential) c :
  username c ≠ name → (∀ x, username (f x) = username x) →
  c ∈ sql_update name f rows ↔ c ∈ rows.
Proof.
  intros Hne Hf. rewrite sq_elem_of_sql_update. split.
  - intros (c0 & Hin & ->). case_decide as Hd; [|done].
    rewrite Hf in Hne. done.
  - intros Hin. exists c. split; [done|]. by rewrite decide_False.
Qed.

Lemma sq_sql_update_usernames name f (rows : list credential) :
  (∀ x, username (f x) = username x) →
  username <$> sql_update name f rows = username <$> rows.
Proof.
  intros Hf. unfold sql_update. rewrite <- list_fmap_compose.
  apply list_fmap_ext. intros i c _. simpl. by case_decide.
Qed.

Lemma sq_select_by_username_None name (rows : list credential) :
  select_by_username name rows = None ↔ ∀ c, c ∈ rows → username c ≠ name.
Proof.
  unfold select_by_username. rewrite head_None. split.
  - intros H c Hin Hn.
    assert (c ∈ filter (λ c, username c = name) rows) as Hc
      by by apply list_elem_of_filter.
    rewrite H in Hc. by apply not_elem_of_nil in Hc.
  - intros H. apply elem_of_nil_inv. intros c Hc.
    apply list_elem_of_filter in Hc as [Hn Hin]. by apply (H c).
Qed.

(** ** FindBestFit *)

Lemma sq_find_read_only now d w : (get_available_credential now d w).2 = w.
Proof. reflexivity. Qed.

Lemma sq_find_sound now d w c :
  (get_available_credential now d w).1 = Some c →
  c ∈ credentials w ∧ status c = available ∧
  ∃ e, credential_expiry_date c = Some e ∧ now + timedelta_days d ≤ e ∧
    ∀ c' e', c' ∈ credentials w → status c' = available →
      credential_expiry_date c' = Some e' → now + timedelta_days d ≤ e' → e ≤ e'.
Proof.
  unfold get_available_credential, gets. simpl. intros H.
  apply head_merge_sort_Some in H as [Hin Hmin]; [|apply _..].
  apply list_elem_of_filter in Hin as [[Hst Hex] Hin].
  destruct (credential_expiry_date c) as [e|] eqn:He; [|done].
  split_and!; [done..|]. exists e. split_and!; [done..|].
  intros c' e' Hc' Hst' He' Hle.
  assert (by_expiry c c') as Hb.
  { apply Hmin. apply list_elem_of_filter. split; [|done].
    split; [done|]. by rewrite He'. }
  unfold by_expiry in Hb. by rewrite He, He' in Hb.
Qed.

Lemma sq_find_complete now d w :
  (get_available_credential now d w).1 = None →
  ∀ c e, c ∈ credentials w → status c = available →
    credential_expiry_date c = Some e → ¬ now + timedelta_days d ≤ e.
Proof.
  unfold get_available_credential, gets. simpl. intros H c e Hin Hst He Hle.
  apply head_merge_sort_None in H.
  assert (c ∈ filter (fits (now + timedelta_days d)) (credentials w)) as Hc.
  { apply list_elem_of_filter. split; [|done]. split; [done|]. by rewrite He. }
  rewrite H in Hc. by apply not_elem_of_nil in Hc.
Qed.

(** ** Free *)

Lemma sq_free_nothing user_id w :
  held_username (users w !! user_id) = None →
  free_credential_from_user user_id w = (None, w).
Proof.
  intros H. unfold free_credential_from_user, get_user. run_state.
  by rewrite H.
Qed.

Lemma sq_free_holding user_id w r name :
  users w !! user_id = Some r → assigned_username r = Some name → name ≠ "" →
  free_credential_from_user user_id w =
    (Some name,
     World (<[user_id := set_assigned None None r]> (users w))
           (sql_update name (set_status available) (credentials w))
           (output w ++ [Log (LogFreed name user_id)])).
Proof.
  intros Hu Ha Hn. unfold free_credential_from_user, get_user. run_state.
  rewrite Hu. simpl. rewrite Ha. simpl. rewrite decide_False by done.
  unfold update_credential_status, update_users, update_credentials, emit.
  run_state. f_equal. f_equal.
  apply map_eq. intros i. rewrite lookup_alter.
  destruct (decide (user_id = i)) as [->|]; simplify_map_eq; done.
Qed.

(** ** Frame facts used throughout *)

Lemma sq_add_or_get_user_db user_id w :
  credentials (add_or_get_user user_id w).2 = credentials w ∧
  users (add_or_get_user user_id w).2 =
    match users w !! user_id with
    | Some _ => users w
    | None => <[user_id := new_user]> (users w)
    end.
Proof.
  unfold add_or_get_user, get_user. run_state.
  destruct (users w !! user_id); done.
Qed.

Lemma sq_offered_read_only clock ds w : (offered clock ds w).2 = w.
Proof.
  induction ds as [|d ds IH]; [done|].
  simpl. run_state. unfold get_available_credential. run_state.
  destruct (offered clock ds w) as [more w'] eqn:E. simpl in IH. by subst.
Qed.

Lemma sq_start_db user_id clock w :
  credentials (start user_id clock w).2 = credentials w ∧
  users (start user_id clock w).2 =
    match users w !! user_id with
    | Some _ => users w
    | None => <[user_id := new_user]> (users w)
    end.
Proof.
  unfold start, emit. run_state.
  destruct (add_or_get_user user_id _) as [u w1] eqn:E1.
  pose proof (sq_add_or_get_user_db user_id
    (World (users w) (credentials w) (output w ++ [Log (LogStartedBot user_id)])))
    as [Hc Hu].
  rewrite E1 in Hc, Hu. simpl in Hc, Hu.
  destruct (offered clock dynamic_durations w1) as [kb w2] eqn:E2.
  pose proof (sq_offered_read_only clock dynamic_durations w1) as Ho.
  rewrite E2 in Ho. simpl in Ho. subst w2. simpl. done.
Qed.

(** ** The store stays consistent *)

Lemma sq_unique_row (rows : list credential) c1 c2 :
  NoDup (username <$> rows) → c1 ∈ rows → c2 ∈ rows →
  username c1 = username c2 → c1 = c2.
Proof.
  induction rows as [|c rows IH]; intros Hnd H1 H2 Heq.
  - by apply not_elem_of_nil in H1.
  - rewrite fmap_cons in Hnd. apply NoDup_cons in Hnd as [Hnotin Hnd].
    apply elem_of_cons in H1 as [->|H1]; apply elem_of_cons in H2 as [->|H2].
    + done.
    + exfalso. apply Hnotin. rewrite Heq. by apply list_elem_of_fmap_2.
    + exfalso. apply Hnotin. rewrite <- Heq. by apply list_elem_of_fmap_2.
    + by apply IH.
Qed.

Lemma sq_consistent_access us cs out out' uid b e :
  consistent (World us cs out) →
  consistent (World (alter (set_access b e) uid us) cs out').
Proof.
  intros [Hu Hh Ho]. split; simpl in *.
  - done.
  - intros u r' name Hr' Ha.
    apply lookup_alter_assigned in Hr' as (r & Hr & Heq); [|done].
    apply (Hh u r name); congruence.
  - intros u1 u2 r1' r2' name H1 H2 Ha1 Ha2.
    apply lookup_alter_assigned in H1 as (r1 & H1 & Heq1); [|done].
    apply lookup_alter_assigned in H2 as (r2 & H2 & Heq2); [|done].
    apply (Ho u1 u2 r1 r2 name); congruence.
Qed.

Lemma sq_consistent_output us cs out out' :
  consistent (World us cs out) → consistent (World us cs out').
Proof. intros [Hu Hh Ho]. by split. Qed.

Lemma sq_consistent_new_user us cs out out' uid :
  consistent (World us cs out) → us !! uid = None →
  consistent (World (<[uid := new_user]> us) cs out').
Proof.
  intros [Hu Hh Ho] Hnone. split; simpl in *.
  - done.
  - intros u r name Hr Ha.
    destruct (decide (uid = u)) as [->|Hne]; simplify_map_eq; eauto.
  - intros u1 u2 r1 r2 name H1 H2 Ha1 Ha2.
    destruct (decide (uid = u1)) as [->|]; simplify_map_eq; try done.
    destruct (decide (uid = u2)) as [->|]; simplify_map_eq; try done.
    by apply (Ho u1 u2 r1 r2 name).
Qed.

Lemma sq_consistent_add us cs out out' name pass e :
  consistent (World us cs out) → name ∉ username <$> cs →
  consistent (World us (cs ++ [Credential name pass available e]) out').
Proof.
  intros [Hu Hh Ho] Hfresh. split; simpl in *.
  - rewrite fmap_app. apply NoDup_app. split; [done|]. split.
    + intros x Hx Hx'. apply list_elem_of_singleton in Hx'. by subst x.
    + apply NoDup_singleton.
  - intros u r n Hr Ha. destruct (Hh u r n Hr Ha) as (c & Hc & Hn & Hs).
    exists c. split_and!; [|done..]. apply elem_of_app. by left.
  - done.
Qed.

Lemma sq_consistent_edit us cs out out' name p e :
  consistent (World us cs out) →
  consistent (World us (sql_update name (set_secret p e) cs) out').
Proof.
  intros [Hu Hh Ho]. split; simpl in *.
  - by rewrite sq_sql_update_usernames.
  - intros u r n Hr Ha. destruct (Hh u r n Hr Ha) as (c & Hc & Hn & Hs).
    exists (if decide (username c = name) then set_secret p e c else c).
    split_and!.
    + apply sq_elem_of_sql_update. by exists c.
    + by case_decide.
    + by case_decide.
  - done.
Qed.

Lemma sq_consistent_assign us cs out out' uid c :
  consistent (World us cs out) → c ∈ cs → status c = available →
  consistent
    (World (alter (set_assigned (Some (username c)) (Some (password c))) uid us)
           (sql_update (username c) (set_status in_use) cs) out').
Proof.
  intros [Hu Hh Ho] Hc Hav. split; simpl in *.
  - by rewrite sq_sql_update_usernames.
  - intros u r' n. rewrite lookup_alter. case_decide as Hd.
    + subst u. destruct (us !! uid) as [r|]; simpl; [|done].
      intros [= <-]. simpl. intros [= <-].
      exists (set_status in_use c). split_and!; [|done..].
      apply sq_elem_of_sql_update. exists c. by rewrite decide_True.
    + intros Hr Ha. destruct (Hh u r' n Hr Ha) as (c0 & Hc0 & Hn & Hs).
      exists (if decide (username c0 = username c)
              then set_status in_use c0 else c0).
      split_and!.
      * apply sq_elem_of_sql_update. by exists c0.
      * by case_decide.
      * by case_decide.
  - assert (∀ u r, u ≠ uid → us !! u = Some r →
              assigned_username r ≠ Some (username c)) as Hfree.
    { intros u r _ Hr Ha. destruct (Hh u r _ Hr Ha) as (c0 & Hc0 & Hn & Hs).
      assert (c0 = c) by by apply (sq_unique_row cs).
      subst c0. congruence. }
    intros u1 u2 r1' r2' n. rewrite !lookup_alter.
    destruct (decide (uid = u1)) as [<-|Hn1];
      destruct (decide (uid = u2)) as [<-|Hn2]; [done| | |].
    + destruct (us !! uid) as [r|]; simpl; [|done].
      intros [= <-] H2. simpl. intros [= <-] Ha2.
      exfalso. by apply (Hfree u2 r2').
    + destruct (us !! uid) as [r|]; simpl; [|done].
      intros H1 [= <-] Ha1. simpl. intros [= <-].
      exfalso. by apply (Hfree u1 r1').
    + intros H1 H2 Ha1 Ha2. by apply (Ho u1 u2 r1' r2' n).
Qed.

Lemma sq_consistent_free us cs out out' uid r name :
  consistent (World us cs out) → us !! uid = Some r →
  assigned_username r = Some name →
  consistent
    (World (<[uid := set_assigned None None r]> us)
           (sql_update name (set_status available) cs) out').
Proof.
  intros [Hu Hh Ho] Hr Ha. split; simpl in *.
  - by rewrite sq_sql_update_usernames.
  - intros u r' n Hr' Ha'.
    destruct (decide (uid = u)) as [->|Hne]; simplify_map_eq; try done.
    destruct (Hh u r' n Hr' Ha') as (c0 & Hc0 & Hn & Hs).
    assert (n ≠ name) as Hnn.
    { intros ->. apply Hne. by apply (Ho uid u r r' name). }
    exists c0. split_and!; [|done..].
    apply sq_sql_update_other; [congruence|done|done].
  - intros u1 u2 r1 r2 n H1 H2 Ha1 Ha2.
    destruct (decide (uid = u1)) as [->|]; simplify_map_eq; try done.
    destruct (decide (uid = u2)) as [->|]; simplify_map_eq; try done.
    by apply (Ho u1 u2 r1 r2 n).
Qed.

Lemma sq_initial_consistent : consistent initial.
Proof.
  split; simpl.
  - apply NoDup_nil_2.
  - intros u r n Hr. by rewrite lookup_empty in Hr.
  - intros u1 u2 r1 r2 n Hr. by rewrite lookup_empty in Hr.
Qed.

(** ** The handlers, case by case *)

Lemma sq_permit_no_user u d nf ng w :
  users w !! u = None →
  permit_bot_use true [Some u; Some d] nf ng w =
    (tt, World (users w) (credentials w)
           (output w ++ [ReplyText (UserNotFound u)])).
Proof.
  intros Hu. unfold permit_bot_use, get_user, emit. run_state. by rewrite Hu.
Qed.

Lemma sq_permit_out_of_stock u d nf ng w :
  is_Some (users w !! u) → (get_available_credential nf d w).1 = None →
  permit_bot_use true [Some u; Some d] nf ng w =
    (tt, World (users w) (credentials w)
           (output w ++ [ReplyText (OutOfStock d)])).
Proof.
  intros [r Hu] Hf. unfold get_available_credential in Hf. simpl in Hf.
  unfold permit_bot_use, get_user, emit. run_state. by rewrite Hu, Hf.
Qed.

Lemma sq_permit_granted u d nf ng w c :
  is_Some (users w !! u) → (get_available_credential nf d w).1 = Some c →
  permit_bot_use true [Some u; Some d] nf ng w =
    (tt, World
           (alter (set_access true (Some (ng + timedelta_days d))) u
              (alter (set_assigned (Some (username c)) (Some (password c))) u
                 (users w)))
           (sql_update (username c) (set_status in_use) (credentials w))
           (output w ++
              [Log (LogAssigned (username c) u);
               Log (LogGranted u d (ng + timedelta_days d));
               CreateTask u (d * 86400);
               ReplyText (AccessGranted u d (username c));
               SendMessage (UserChat u) (Congratulations d)])).
Proof.
  intros [r Hu] Hf. unfold get_available_credential in Hf. simpl in Hf.
  unfold permit_bot_use, get_user. run_state. rewrite Hu, Hf.
  unfold assign_credential_to_user, grant_user_access,
    update_credential_status, update_users, update_credentials, emit.
  run_state. by rewrite <- !app_assoc.
Qed.

Lemma sq_free_credential_nothing u rest w :
  held_username (users w !! u) = None →
  free_credential true (Some u :: rest) w =
    (tt, World (users w) (credentials w)
           (output w ++ [ReplyText (NoCredentialAssigned u)])).
Proof.
  intros Hh. unfold free_credential. run_state.
  by rewrite (sq_free_nothing _ _ Hh).
Qed.

Lemma sq_free_credential_freed u rest w r name :
  users w !! u = Some r → assigned_username r = Some name → name ≠ "" →
  free_credential true (Some u :: rest) w =
    (tt, World
           (alter (set_access false None) u
              (<[u := set_assigned None None r]> (users w)))
           (sql_update name (set_status available) (credentials w))
           (output w ++
              [Log (LogFreed name u); Log (LogRevoked u);
               ReplyText (CredentialFreed name u);
               SendMessage AdminChat (PlanEnded u)])).
Proof.
  intros Hu Ha Hne. unfold free_credential. run_state.
  rewrite (sq_free_holding _ _ _ _ Hu Ha Hne).
  unfold truthy. rewrite decide_False by done.
  unfold revoke_user_access, update_users, emit. run_state.
  by rewrite <- !app_assoc.
Qed.

(** A text of the cleanup task that Telegram accepts is sent, and the
    [try] goes on. *)
Lemma sq_send_in_cleanup u c t source rest w :
  unescaped_dot source = false →
  send_in_cleanup u c t source rest w = (emit (SendMessage c t);; rest) w.
Proof. intros H. unfold send_in_cleanup. by rewrite H. Qed.

Lemma sq_cleanup_nothing u w :
  held_username (users w !! u) = None →
  run_cleanup_task_after_delay u w =
    (tt, World (users w) (credentials w)
           (output w ++
              [Log (LogExecutingCleanup u);
               SendMessage AdminChat (CleanupSkippedCheckManually u)])).
Proof.
  intros Hh. unfold run_cleanup_task_after_delay. unfold emit at 1. run_state.
  rewrite sq_free_nothing by done. simpl.
  rewrite sq_send_in_cleanup by reflexivity. unfold emit. run_state.
  by rewrite <- !app_assoc.
Qed.

Lemma sq_cleanup_freed u w r name :
  users w !! u = Some r → assigned_username r = Some name → name ≠ "" →
  run_cleanup_task_after_delay u w =
    (tt, World
           (alter (set_access false None) u
              (<[u := set_assigned None None r]> (users w)))
           (sql_update name (set_status available) (credentials w))
           (output w ++
              [Log (LogExecutingCleanup u); Log (LogFreed name u);
               Log (LogRevoked u);
               SendMessage AdminChat (CleanupComplete u name);
               SendMessage (UserChat u) PlanExpired])).
Proof.
  intros Hu Ha Hne. unfold run_cleanup_task_after_delay. unfold emit at 1.
  run_state. erewrite sq_free_holding by done.
  unfold truthy. rewrite decide_False by done.
  unfold revoke_user_access, update_users, emit. run_state.
  repeat (rewrite sq_send_in_cleanup by reflexivity; unfold emit; run_state).
  by rewrite <- !app_assoc.
Qed.

Lemma sq_serve_consistent r w : consistent w → consistent (serve r w).2.
Proof.
  intros Hc. destruct r as [uid clock|uid|now name pass days|now name p days
                           |a args nf ng|a args|a args|uid]; simpl.
  - (* start *)
    run_state. destruct (start uid clock w) as [st w'] eqn:E. simpl.
    pose proof (sq_start_db uid clock w) as [Hcr Hus]. rewrite E in Hcr, Hus.
    destruct w as [us cs out], w' as [us' cs' out']. simpl in *. subst.
    destruct (us !! uid) eqn:Hu.
    + by eapply sq_consistent_output.
    + by eapply sq_consistent_new_user.
  - (* check_user_permission *)
    unfold check_user_permission. run_state.
    destruct (add_or_get_user uid w) as [st w'] eqn:E. simpl.
    pose proof (sq_add_or_get_user_db uid w) as [Hcr Hus]. rewrite E in Hcr, Hus.
    destruct w as [us cs out], w' as [us' cs' out']. simpl in *. subst.
    destruct (us !! uid) eqn:Hu.
    + by eapply sq_consistent_output.
    + by eapply sq_consistent_new_user.
  - (* add_credential_to_pool *)
    destruct w as [us cs out].
    unfold add_credential_to_pool, update_credentials, emit. run_state.
    case_bool_decide as Hd; simpl.
    + by eapply sq_consistent_output.
    + by eapply sq_consistent_add.
  - (* edit_credential_in_pool *)
    destruct w as [us cs out].
    unfold edit_credential_in_pool, update_credentials. run_state.
    destruct (select_by_username name cs); simpl; [|done].
    by eapply sq_consistent_edit.
  - (* permit_bot_use *)
    destruct a; [|done].
    destruct args as [|[u|] [|[d|] [|? ?]]];
      try (destruct w; by eapply sq_consistent_output).
    destruct (users w !! u) as [r|] eqn:Hu.
    + destruct (get_available_credential nf d w).1 as [c|] eqn:E.
      * rewrite (sq_permit_granted u d nf ng w c) by done. simpl.
        destruct (sq_find_sound nf d w c E) as (Hin & Hav & _).
        destruct w as [us cs out]. simpl in *.
        apply (sq_consistent_access _ _ []). by eapply sq_consistent_assign.
      * rewrite sq_permit_out_of_stock by done.
        destruct w. by eapply sq_consistent_output.
    + rewrite sq_permit_no_user by done.
      destruct w. by eapply sq_consistent_output.
  - (* restrict_bot_use *)
    destruct w as [us cs out].
    unfold restrict_bot_use. destruct a; simpl; [|done].
    destruct args as [|[u|] ?]; simpl; try (by eapply sq_consistent_output).
    unfold get_user. run_state.
    destruct (us !! u) as [r|] eqn:Hu; [|by eapply sq_consistent_output].
    unfold revoke_user_access, update_users, emit. run_state.
    by eapply sq_consistent_access.
  - (* free_credential *)
    destruct a; [|done].
    destruct args as [|[u|] ?]; try (destruct w; by eapply sq_consistent_output).
    destruct (held_username (users w !! u)) as [n|] eqn:Hh.
    + apply held_username_Some in Hh as (r & Hr & Ha & Hne).
      rewrite (sq_free_credential_freed _ _ _ _ _ Hr Ha Hne).
      destruct w as [us cs out]. simpl in *.
      apply (sq_consistent_access _ _ []). by eapply sq_consistent_free.
    + rewrite sq_free_credential_nothing by done.
      destruct w. by eapply sq_consistent_output.
  - (* run_cleanup_task_after_delay *)
    destruct (held_username (users w !! uid)) as [n|] eqn:Hh.
    + apply held_username_Some in Hh as (r & Hr & Ha & Hne).
      rewrite (sq_cleanup_freed _ _ _ _ Hr Ha Hne).
      destruct w as [us cs out]. simpl in *.
      apply (sq_consistent_access _ _ []). by eapply sq_consistent_free.
    + rewrite sq_cleanup_nothing by done.
      destruct w. by eapply sq_consistent_output.
Qed.

Lemma sq_run_consistent rs w : consistent w → consistent (run rs w).
Proof.
  revert w. induction rs as [|r rs IH]; intros w Hc; [done|].
  simpl. apply IH. by apply sq_serve_consistent.
Qed.

(** ** A credential in use stays in use until it is freed *)

Lemma sq_pinned_status name n s us us' cs out out' :
  pinned name (World us cs out) → (n = name → s = in_use) →
  pinned name (World us' (sql_update n (set_status s) cs) out').
Proof.
  intros [(c & Hc & Hn) Hall] Hs. split; simpl in *.
  - exists (if decide (username c = n) then set_status s c else c). split.
    + apply sq_elem_of_sql_update. by exists c.
    + by case_decide.
  - intros c' Hc' Hn'. apply sq_elem_of_sql_update in Hc' as (c0 & Hc0 & ->).
    case_decide as Hd; simpl in *.
    + apply Hs. congruence.
    + by apply Hall.
Qed.

Lemma sq_pinned_edit name n p e us cs out out' :
  pinned name (World us cs out) →
  pinned name (World us (sql_update n (set_secret p e) cs) out').
Proof.
  intros [(c & Hc & Hn) Hall]. split; simpl in *.
  - exists (if decide (username c = n) then set_secret p e c else c). split.
    + apply sq_elem_of_sql_update. by exists c.
    + by case_decide.
  - intros c' Hc' Hn'. apply sq_elem_of_sql_update in Hc' as (c0 & Hc0 & ->).
    case_decide as Hd; simpl in *; by apply Hall.
Qed.

Lemma sq_pinned_add name n p e us cs out out' :
  pinned name (World us cs out) → n ∉ username <$> cs →
  pinned name (World us (cs ++ [Credential n p available e]) out').
Proof.
  intros [(c & Hc & Hn) Hall] Hfresh. split; simpl in *.
  - exists c. split; [|done]. apply elem_of_app. by left.
  - intros c' Hc' Hn'. apply elem_of_app in Hc' as [Hc'|Hc'].
    + by apply Hall.
    + apply list_elem_of_singleton in Hc'. subst c'. simpl in *. subst n.
      exfalso. apply Hfresh. rewrite <- Hn. by apply list_elem_of_fmap_2.
Qed.

Lemma sq_assign_pinned user_id c w :
  c ∈ credentials w → pinned (username c) (assign_credential_to_user user_id c w).2.
Proof.
  intros Hc. unfold assign_credential_to_user, update_credential_status,
    update_users, update_credentials, emit. run_state. split; simpl.
  - exists (set_status in_use c). split; [|done].
    apply sq_elem_of_sql_update. exists c. by rewrite decide_True.
  - intros c' Hc' Hn. apply sq_elem_of_sql_update in Hc' as (c0 & Hc0 & ->).
    case_decide; [done|]. congruence.
Qed.

Lemma sq_pinned_not_found name w now d c :
  pinned name w → (get_available_credential now d w).1 = Some c →
  username c ≠ name.
Proof.
  intros [_ Hall] Hf Hn. apply sq_find_sound in Hf as (Hin & Hav & _).
  specialize (Hall c Hin Hn). congruence.
Qed.

Lemma sq_serve_pinned name r w :
  pinned name w → ¬ frees name r w → pinned name (serve r w).2.
Proof.
  intros Hp Hnf. destruct r as [uid clock|uid|now n pass days|now n p days
                               |a args nf ng|a args|a args|uid]; simpl.
  - run_state. destruct (start uid clock w) as [st w'] eqn:E. simpl.
    pose proof (sq_start_db uid clock w) as [Hcr _]. rewrite E in Hcr.
    destruct w as [us cs out], w' as [us' cs' out']. simpl in *. by subst.
  - unfold check_user_permission. run_state.
    destruct (add_or_get_user uid w) as [st w'] eqn:E. simpl.
    pose proof (sq_add_or_get_user_db uid w) as [Hcr _]. rewrite E in Hcr.
    destruct w as [us cs out], w' as [us' cs' out']. simpl in *. by subst.
  - destruct w as [us cs out].
    unfold add_credential_to_pool, update_credentials, emit. run_state.
    case_bool_decide as Hd; simpl; [done|]. by eapply sq_pinned_add.
  - destruct w as [us cs out].
    unfold edit_credential_in_pool, update_credentials. run_state.
    destruct (select_by_username n cs); simpl; [|done].
    by eapply sq_pinned_edit.
  - destruct a; [|done].
    destruct args as [|[u|] [|[d|] [|? ?]]]; try (by destruct w).
    destruct (users w !! u) as [r|] eqn:Hu.
    + destruct (get_available_credential nf d w).1 as [c|] eqn:E.
      * rewrite (sq_permit_granted u d nf ng w c) by done.
        destruct w as [us cs out]. simpl in *. by eapply sq_pinned_status.
      * rewrite sq_permit_out_of_stock by done. by destruct w.
    + rewrite sq_permit_no_user by done. by destruct w.
  - destruct w as [us cs out].
    unfold restrict_bot_use. destruct a; simpl; [|done].
    destruct args as [|[u|] ?]; simpl; try done.
    unfold get_user. run_state. by destruct (us !! u).
  - destruct a; [|done].
    destruct args as [|[u|] ?]; try (by destruct w).
    simpl in Hnf.
    destruct (held_username (users w !! u)) as [n|] eqn:Hh.
    + apply held_username_Some in Hh as (r & Hr & Ha & Hne).
      rewrite (sq_free_holding _ _ _ _ Hr Ha Hne) in Hnf. simpl in Hnf.
      rewrite (sq_free_credential_freed _ _ _ _ _ Hr Ha Hne).
      destruct w as [us cs out]. simpl in *.
      eapply sq_pinned_status; [done|]. intros ->. done.
    + rewrite sq_free_credential_nothing by done. by destruct w.
  - simpl in Hnf.
    destruct (held_username (users w !! uid)) as [n|] eqn:Hh.
    + apply held_username_Some in Hh as (r & Hr & Ha & Hne).
      rewrite (sq_free_holding _ _ _ _ Hr Ha Hne) in Hnf. simpl in Hnf.
      rewrite (sq_cleanup_freed _ _ _ _ Hr Ha Hne).
      destruct w as [us cs out]. simpl in *.
      eapply sq_pinned_status; [done|]. intros ->. done.
    + rewrite sq_cleanup_nothing by done. by destruct w.
Qed.

Lemma sq_run_pinned name rs w :
  pinned name w → never_frees name rs w → pinned name (run rs w).
Proof.
  revert w. induction rs as [|r rs IH]; intros w Hp Hnf; [done|].
  destruct Hnf as [Hr Hrs]. simpl. apply IH; [|done].
  by apply sq_serve_pinned.
Qed.

(** ** Remaining facts about single operations *)

Lemma sq_free_None_held u w :
  (free_credential_from_user u w).1 = None →
  held_username (users w !! u) = None.
Proof.
  destruct (held_username (users w !! u)) as [n|] eqn:Hh; [|done].
  apply held_username_Some in Hh as (r & Hr & Ha & Hne).
  by rewrite (sq_free_holding _ _ _ _ Hr Ha Hne).
Qed.

Lemma sq_lookup_sql_update name f (rows : list credential) (i : nat) :
  sql_update name f rows !! i =
    (λ c, if decide (username c = name) then f c else c) <$> rows !! i.
Proof. unfold sql_update. apply list_lookup_fmap. Qed.

Lemma sq_select_by_username_Some name (rows : list credential) c :
  c ∈ rows → username c = name → is_Some (select_by_username name rows).
Proof.
  intros Hin Hn. unfold select_by_username.
  destruct (filter _ rows) as [|x l] eqn:Hf; [|by eexists].
  assert (c ∈ filter (λ c, username c = name) rows) as Hc
    by by apply list_elem_of_filter.
  rewrite Hf in Hc. by apply not_elem_of_nil in Hc.
Qed.

Lemma sq_edit_missing now name p days w :
  (∀ c, c ∈ credentials w → username c ≠ name) →
  edit_credential_in_pool now name p days w = (false, w).
Proof.
  intros H. apply sq_select_by_username_None in H.
  unfold edit_credential_in_pool. run_state. by rewrite H.
Qed.

Lemma sq_edit_found now name p days w c :
  c ∈ credentials w → username c = name →
  edit_credential_in_pool now name p days w =
    (true, World (users w)
             (sql_update name
                (set_secret p (Some (now + timedelta_days days)))
                (credentials w))
             (output w)).
Proof.
  intros Hin Hn. destruct (sq_select_by_username_Some _ _ _ Hin Hn) as [x Hx].
  unfold edit_credential_in_pool, update_credentials. run_state. by rewrite Hx.
Qed.

End SqliteFacts.

(** * Facts about the Firestore store *)

Module FirestoreFacts.
Import Firestore.

(** ** The order of query results *)

Lemma fs_expiry_le_strict (x y z : option Z) :
  expiry_le x y → x ≠ y → expiry_le y z → y ≠ z → expiry_le x z ∧ x ≠ z.
Proof.
  destruct x as [x|], y as [y|], z as [z|]; simpl; try done.
  intros Hxy Hne Hyz Hne'. split; [lia|]. intros [= ->].
  assert (y = z) by lia. congruence.
Qed.

Global Instance fs_by_expiry_then_id_trans : Transitive by_expiry_then_id.
Proof.
  intros [ka a] [kb b] [kc c]. unfold by_expiry_then_id, by_expiry. simpl.
  repeat case_decide; intros Hab Hbc; try congruence.
  - by etrans.
  - exfalso. destruct (fs_expiry_le_strict _ _ _ Hab ltac:(done) Hbc ltac:(done)).
    done.
  - by destruct (fs_expiry_le_strict _ _ _ Hab ltac:(done) Hbc ltac:(done)).
Qed.

Global Instance fs_by_expiry_then_id_total : Total by_expiry_then_id.
Proof.
  intros [ka a] [kb b]. unfold by_expiry_then_id, by_expiry. simpl.
  repeat case_decide; try congruence.
  - apply (total String.le).
  - apply (total expiry_le).
Qed.

Lemma fs_elem_of_query (P : credential → Prop) `{∀ c, Decision (P c)}
    (docs : gmap string credential) id c :
  (id, c) ∈ query P docs ↔ docs !! id = Some c ∧ P c.
Proof.
  unfold query. rewrite merge_sort_Permutation, list_elem_of_filter.
  rewrite elem_of_map_to_list. simpl. tauto.
Qed.

Lemma fs_head_query_None (P : credential → Prop) `{∀ c, Decision (P c)}
    (docs : gmap string credential) :
  head (query P docs) = None → ∀ id c, docs !! id = Some c → ¬ P c.
Proof.
  intros Hh id c Hc HP.
  assert ((id, c) ∈ query P docs) as Hin by by apply fs_elem_of_query.
  apply head_None in Hh. rewrite Hh in Hin. by apply not_elem_of_nil in Hin.
Qed.

Lemma fs_head_query_Some (P : credential → Prop) `{∀ c, Decision (P c)}
    (docs : gmap string credential) id c :
  head (query P docs) = Some (id, c) →
  docs !! id = Some c ∧ P c ∧
  ∀ id' c', docs !! id' = Some c' → P c' → by_expiry c c'.
Proof.
  intros Hh. apply head_merge_sort_Some in Hh as [Hin Hmin]; [|apply _..].
  apply list_elem_of_filter in Hin as [HP Hin].
  apply elem_of_map_to_list in Hin. simpl in *. split_and!; [done..|].
  intros id' c' Hc' HP'.
  assert (by_expiry_then_id (id, c) (id', c')) as Hle.
  { apply Hmin. apply list_elem_of_filter. split; [done|].
    by apply elem_of_map_to_list. }
  unfold by_expiry_then_id in Hle. simpl in Hle. case_decide as Hd; [|done].
  unfold by_expiry. rewrite Hd. destruct (total expiry_le
    (credential_expiry_date c') (credential_expiry_date c')); done.
Qed.

(** ** FindBestFit *)

Lemma fs_find_read_only now d w : (get_available_credential now d w).2 = w.
Proof. reflexivity. Qed.

Lemma fs_find_sound now d w c :
  (get_available_credential now d w).1 = Some c →
  (∃ id, credentials w !! id = Some c) ∧ status c = available ∧
  ∃ e, credential_expiry_date c = Some e ∧ now + timedelta_days d ≤ e ∧
    ∀ id' c' e', credentials w !! id' = Some c' → status c' = available →
      credential_expiry_date c' = Some e' → now + timedelta_days d ≤ e' → e ≤ e'.
Proof.
  unfold get_available_credential, gets. simpl. intros H.
  destruct (head (query _ _)) as [[id c0]|] eqn:Hh; simplify_eq/=.
  apply fs_head_query_Some in Hh as (Hc & [Hst Hex] & Hmin).
  destruct (credential_expiry_date c) as [e|] eqn:He; [|done].
  split_and!; [by exists id|done|]. exists e. split_and!; [done..|].
  intros id' c' e' Hc' Hst' He' Hle.
  assert (by_expiry c c') as Hb.
  { apply (Hmin id' c' Hc'). split; [done|]. by rewrite He'. }
  unfold by_expiry in Hb. by rewrite He, He' in Hb.
Qed.

Lemma fs_find_id now d w c :
  (get_available_credential now d w).1 = Some c →
  ∃ id, credentials w !! id = Some c.
Proof. intros H. by apply fs_find_sound in H as [? _]. Qed.

Lemma fs_find_complete now d w :
  (get_available_credential now d w).1 = None →
  ∀ id c e, credentials w !! id = Some c → status c = available →
    credential_expiry_date c = Some e → ¬ now + timedelta_days d ≤ e.
Proof.
  unfold get_available_credential, gets. simpl. intros H id c e Hc Hst He Hle.
  destruct (head (query _ _)) as [[id0 c0]|] eqn:Hh; simplify_eq/=.
  apply (fs_head_query_None _ _ Hh id c Hc). split; [done|]. by rewrite He.
Qed.

(** ** The primitives of the store *)

Lemma fs_insert_alter {K V} `{Countable K} (f : V → V) (m : gmap K V) k v :
  m !! k = Some v → <[k := f v]> m = alter f k m.
Proof.
  intros Hk. apply map_eq. intros i. rewrite lookup_alter.
  destruct (decide (k = i)) as [->|]; simplify_map_eq; done.
Qed.

Lemma fs_alter_missing {K V} `{Countable K} (f : V → V) (m : gmap K V) k :
  m !! k = None → alter f k m = m.
Proof.
  intros Hk. apply map_eq. intros i. rewrite lookup_alter.
  case_decide; [|done]. subst. by rewrite Hk.
Qed.

(** The log record of an [update] of a credential that raised. *)
Lemma fs_update_credential_status name s w :
  update_credential_status name s w =
    (tt, World (users w) (alter (set_status s) name (credentials w))
           (output w ++ match credentials w !! name with
                        | Some _ => []
                        | None => [Log (LogErrorStatus name)]
                        end)).
Proof.
  unfold update_credential_status, credentials_update, emit. run_state.
  destruct (credentials w !! name) as [c|] eqn:Hc.
  - rewrite app_nil_r. by erewrite fs_insert_alter.
  - by rewrite fs_alter_missing.
Qed.

Lemma fs_revoke_user_access user_id w :
  revoke_user_access user_id w =
    (tt, World (alter (set_access false None) user_id (users w)) (credentials w)
           (output w ++ [Log (if users w !! user_id is Some _
                              then LogRevoked user_id
                              else LogErrorRevoke user_id)])).
Proof.
  unfold revoke_user_access, users_update, emit. run_state.
  destruct (users w !! user_id) as [r|] eqn:Hu.
  - by erewrite fs_insert_alter.
  - by rewrite fs_alter_missing.
Qed.

(** ** Free *)

Lemma fs_free_nothing user_id w :
  held_username (users w !! user_id) = None →
  free_credential_from_user user_id w = (None, w).
Proof.
  intros H. unfold free_credential_from_user, get_user. run_state.
  by rewrite H.
Qed.

Lemma fs_free_holding user_id w r name :
  users w !! user_id = Some r → assigned_username r = Some name → name ≠ "" →
  free_credential_from_user user_id w =
    (Some name,
     World (<[user_id := set_assigned None None r]> (users w))
           (alter (set_status available) name (credentials w))
           (output w ++ match credentials w !! name with
                        | Some _ => [Log (LogFreed name user_id)]
                        | None => [Log (LogErrorStatus name);
                                   Log (LogFreed name user_id)]
                        end)).
Proof.
  intros Hu Ha Hn. unfold free_credential_from_user, get_user. run_state.
  rewrite Hu. simpl. rewrite Ha. simpl. rewrite decide_False by done.
  unfold users_update. rewrite Hu. rewrite fs_update_credential_status.
  unfold emit. run_state. f_equal. f_equal.
  destruct (credentials w !! name); by rewrite <- app_assoc.
Qed.

(** ** The handlers, case by case *)

Lemma fs_permit_no_user u d nf ng w :
  users w !! u = None →
  permit_bot_use true [Some u; Some d] nf ng w =
    (tt, World (users w) (credentials w)
           (output w ++ [ReplyText (UserNotFound u)])).
Proof.
  intros Hu. unfold permit_bot_use, get_user, emit. run_state. by rewrite Hu.
Qed.

Lemma fs_permit_out_of_stock u d nf ng w :
  is_Some (users w !! u) → (get_available_credential nf d w).1 = None →
  permit_bot_use true [Some u; Some d] nf ng w =
    (tt, World (users w) (credentials w)
           (output w ++ [ReplyText (OutOfStock d)])).
Proof.
  intros [r Hu] Hf. unfold get_available_credential in Hf. simpl in Hf.
  unfold permit_bot_use, get_user, emit. run_state. rewrite Hu.
  unfold get_available_credential. run_state. by rewrite Hf.
Qed.

Lemma fs_permit_granted u d nf ng w c :
  is_Some (users w !! u) → (get_available_credential nf d w).1 = Some c →
  permit_bot_use true [Some u; Some d] nf ng w =
    (tt, World
           (alter (set_access true (Some (ng + timedelta_days d))) u
              (alter (set_assigned (Some (username c)) (Some (password c))) u
                 (users w)))
           (alter (set_status in_use) (username c) (credentials w))
           (output w ++
              match credentials w !! username c with
              | Some _ => []
              | None => [Log (LogErrorStatus (username c))]
              end ++
              [Log (LogAssigned (username c) u);
               Log (LogGranted u d (ng + timedelta_days d));
               CreateTask u (d * 86400);
               ReplyText (AccessGranted u d (username c));
               SendMessage (UserChat u) (Congratulations d)])).
Proof.
  intros [r Hu] Hf. unfold get_available_credential in Hf. simpl in Hf.
  unfold permit_bot_use, get_user. run_state. rewrite Hu.
  unfold get_available_credential. run_state. rewrite Hf.
  unfold assign_credential_to_user, users_update. run_state. rewrite Hu.
  rewrite fs_update_credential_status.
  unfold grant_user_access, users_update, emit. run_state.
  rewrite lookup_insert_eq. simpl.
  rewrite <- (fs_insert_alter _ (users w) u r) by done.
  rewrite <- (fs_insert_alter _ (<[u:=_]> (users w)) u _)
    by apply lookup_insert_eq.
  by rewrite <- !app_assoc.
Qed.

Lemma fs_free_credential_nothing u rest w :
  held_username (users w !! u) = None →
  free_credential true (Some u :: rest) w =
    (tt, World (users w) (credentials w)
           (output w ++ [ReplyText (NoCredentialAssigned u)])).
Proof.
  intros Hh. unfold free_credential. run_state.
  by rewrite (fs_free_nothing _ _ Hh).
Qed.

Lemma fs_free_credential_freed u rest w r name :
  users w !! u = Some r → assigned_username r = Some name → name ≠ "" →
  free_credential true (Some u :: rest) w =
    (tt, World
           (alter (set_access false None) u
              (<[u := set_assigned None None r]> (users w)))
           (alter (set_status available) name (credentials w))
           (output w ++
              match credentials w !! name with
              | Some _ => []
              | None => [Log (LogErrorStatus name)]
              end ++
              [Log (LogFreed name u); Log (LogRevoked u);
               ReplyText (CredentialFreed name u);
               SendMessage (UserChat u) PlanEndedByAdmin])).
Proof.
  intros Hu Ha Hne. unfold free_credential. run_state.
  rewrite (fs_free_holding _ _ _ _ Hu Ha Hne).
  unfold truthy. rewrite decide_False by done.
  rewrite fs_revoke_user_access. simpl. rewrite lookup_insert_eq.
  unfold emit. run_state.
  destruct (credentials w !! name); simpl; by rewrite <- !app_assoc.
Qed.

(** A text of the cleanup task that Telegram accepts is sent, and the
    [try] goes on; one that it refuses ends the [try] in the log. *)
Lemma fs_send_in_cleanup u c t source rest w :
  unescaped_dot source = false →
  send_in_cleanup u c t source rest w = (emit (SendMessage c t);; rest) w.
Proof. intros H. unfold send_in_cleanup. by rewrite H. Qed.

Lemma fs_refused_in_cleanup u c t source rest w :
  unescaped_dot source = true →
  send_in_cleanup u c t source rest w = emit (Log (LogErrorCleanup u)) w.
Proof. intros H. unfold send_in_cleanup. by rewrite H. Qed.

Lemma fs_cleanup_nothing u w :
  held_username (users w !! u) = None →
  run_cleanup_task_after_delay u w =
    (tt, World (alter (set_access false None) u (users w)) (credentials w)
           (output w ++
              [Log (LogExecutingCleanup u);
               Log (if users w !! u is Some _
                    then LogRevoked u else LogErrorRevoke u);
               Log (LogErrorCleanup u)])).
Proof.
  intros Hh. unfold run_cleanup_task_after_delay. unfold emit at 1. run_state.
  rewrite fs_free_nothing by done. simpl.
  rewrite fs_revoke_user_access. simpl.
  rewrite fs_refused_in_cleanup by reflexivity. unfold emit. run_state.
  by rewrite <- !app_assoc.
Qed.

Lemma fs_cleanup_freed u w r name :
  users w !! u = Some r → assigned_username r = Some name → name ≠ "" →
  run_cleanup_task_after_delay u w =
    (tt, World
           (alter (set_access false None) u
              (<[u := set_assigned None None r]> (users w)))
           (alter (set_status available) name (credentials w))
           (output w ++
              Log (LogExecutingCleanup u) ::
              match credentials w !! name with
              | Some _ => []
              | None => [Log (LogErrorStatus name)]
              end ++
              [Log (LogFreed name u); Log (LogRevoked u);
               SendMessage AdminChat (CleanupComplete u name);
               SendMessage (UserChat u) PlanExpired])).
Proof.
  intros Hu Ha Hne. unfold run_cleanup_task_after_delay. unfold emit at 1.
  run_state. erewrite fs_free_holding by done.
  unfold truthy. rewrite decide_False by done.
  rewrite fs_revoke_user_access. simpl. rewrite lookup_insert_eq.
  repeat (rewrite fs_send_in_cleanup by reflexivity; unfold emit; run_state).
  destruct (credentials w !! name); simpl; by rewrite <- !app_assoc.
Qed.

(** ** Frame facts used throughout *)

Lemma fs_add_or_get_user_db user_id w :
  credentials (add_or_get_user user_id w).2 = credentials w ∧
  users (add_or_get_user user_id w).2 =
    match users w !! user_id with
    | Some _ => users w
    | None => <[user_id := new_user]> (users w)
    end.
Proof.
  unfold add_or_get_user, get_user. run_state.
  destruct (users w !! user_id); done.
Qed.

Lemma fs_start_db user_id now_query now w :
  credentials (start user_id now_query now w).2 = credentials w ∧
  users (start user_id now_query now w).2 =
    match users w !! user_id with
    | Some _ => users w
    | None => <[user_id := new_user]> (users w)
    end.
Proof.
  unfold start, emit. run_state.
  destruct (add_or_get_user user_id _) as [u w1] eqn:E1.
  pose proof (fs_add_or_get_user_db user_id
    (World (users w) (credentials w) (output w ++ [Log (LogStartedBot user_id)])))
    as [Hc Hu].
  rewrite E1 in Hc, Hu. simpl in Hc, Hu.
  unfold get_all_available_credentials. run_state. done.
Qed.

(** ** The store stays consistent *)

Lemma fs_lookup_alter_status (f : credential → credential) n
    (cs : gmap string credential) id c' :
  alter f n cs !! id = Some c' →
  ∃ c, cs !! id = Some c ∧ c' = if decide (n = id) then f c else c.
Proof.
  rewrite lookup_alter. case_decide as Hd.
  - subst id. destruct (cs !! n) as [c|]; simpl; [|done].
    intros [= <-]. by exists c.
  - intros Hc. by exists c'.
Qed.

Lemma fs_keyed_alter (f : credential → credential) n us us' cs out out' :
  (∀ c, username (f c) = username c) →
  keyed (World us cs out) → keyed (World us' (alter f n cs) out').
Proof.
  intros Hf Hk id c' Hc'. simpl in *.
  apply fs_lookup_alter_status in Hc' as (c & Hc & ->).
  case_decide; [rewrite Hf|]; by apply Hk.
Qed.

Lemma fs_keyed_insert name pass s e us us' cs out out' :
  keyed (World us cs out) →
  keyed (World us' (<[name := Credential name pass s e]> cs) out').
Proof.
  intros Hk id c Hc. simpl in *.
  destruct (decide (name = id)) as [->|]; simplify_map_eq; [done|].
  by apply Hk.
Qed.

Lemma fs_consistent_access us cs out out' uid b e :
  consistent (World us cs out) →
  consistent (World (alter (set_access b e) uid us) cs out').
Proof.
  intros [Hk Hh Ho]. split; simpl in *.
  - done.
  - intros u r' name Hr' Ha.
    apply lookup_alter_assigned in Hr' as (r & Hr & Heq); [|done].
    apply (Hh u r name); congruence.
  - intros u1 u2 r1' r2' name H1 H2 Ha1 Ha2.
    apply lookup_alter_assigned in H1 as (r1 & H1 & Heq1); [|done].
    apply lookup_alter_assigned in H2 as (r2 & H2 & Heq2); [|done].
    apply (Ho u1 u2 r1 r2 name); congruence.
Qed.

Lemma fs_consistent_output us cs out out' :
  consistent (World us cs out) → consistent (World us cs out').
Proof. intros [Hk Hh Ho]. by split. Qed.

Lemma fs_consistent_new_user us cs out out' uid :
  consistent (World us cs out) → us !! uid = None →
  consistent (World (<[uid := new_user]> us) cs out').
Proof.
  intros [Hk Hh Ho] Hnone. split; simpl in *.
  - done.
  - intros u r name Hr Ha.
    destruct (decide (uid = u)) as [->|Hne]; simplify_map_eq; eauto.
  - intros u1 u2 r1 r2 name H1 H2 Ha1 Ha2.
    destruct (decide (uid = u1)) as [->|]; simplify_map_eq; try done.
    destruct (decide (uid = u2)) as [->|]; simplify_map_eq; try done.
    by apply (Ho u1 u2 r1 r2 name).
Qed.

Lemma fs_consistent_add us cs out out' name pass e :
  consistent (World us cs out) → cs !! name = None →
  consistent (World us (<[name := Credential name pass available e]> cs) out').
Proof.
  intros [Hk Hh Ho] Hfresh. split; simpl in *.
  - by eapply fs_keyed_insert.
  - intros u r n Hr Ha. destruct (Hh u r n Hr Ha) as (c & Hc & Hs).
    exists c. split; [|done]. rewrite lookup_insert_ne; [done|]. congruence.
  - done.
Qed.

Lemma fs_consistent_edit us cs out out' name p e :
  consistent (World us cs out) →
  consistent (World us (alter (set_secret p e) name cs) out').
Proof.
  intros [Hk Hh Ho]. split; simpl in *.
  - by eapply fs_keyed_alter.
  - intros u r n Hr Ha. destruct (Hh u r n Hr Ha) as (c & Hc & Hs).
    exists (if decide (name = n) then set_secret p e c else c). split.
    + rewrite lookup_alter. case_decide; subst; by rewrite Hc.
    + by case_decide.
  - done.
Qed.

Lemma fs_consistent_assign us cs out out' uid c :
  consistent (World us cs out) → cs !! username c = Some c →
  status c = available →
  consistent
    (World (alter (set_assigned (Some (username c)) (Some (password c))) uid us)
           (alter (set_status in_use) (username c) cs) out').
Proof.
  intros [Hk Hh Ho] Hc Hav. split; simpl in *.
  - by eapply fs_keyed_alter.
  - intros u r' n. rewrite lookup_alter. case_decide as Hd.
    + subst u. destruct (us !! uid) as [r|]; simpl; [|done].
      intros [= <-]. simpl. intros [= <-].
      exists (set_status in_use c). split; [|done].
      by rewrite lookup_alter, Hc, decide_True.
    + intros Hr Ha. destruct (Hh u r' n Hr Ha) as (c0 & Hc0 & Hs).
      exists (if decide (username c = n) then set_status in_use c0 else c0).
      split.
      * rewrite lookup_alter. case_decide; subst; by rewrite Hc0.
      * by case_decide.
  - assert (∀ u r, us !! u = Some r →
              assigned_username r ≠ Some (username c)) as Hfree.
    { intros u r Hr Ha. destruct (Hh u r _ Hr Ha) as (c0 & Hc0 & Hs).
      congruence. }
    intros u1 u2 r1' r2' n. rewrite !lookup_alter.
    destruct (decide (uid = u1)) as [<-|Hn1];
      destruct (decide (uid = u2)) as [<-|Hn2]; [done| | |].
    + destruct (us !! uid) as [r|]; simpl; [|done].
      intros [= <-] H2. simpl. intros [= <-] Ha2.
      exfalso. by apply (Hfree u2 r2').
    + destruct (us !! uid) as [r|]; simpl; [|done].
      intros H1 [= <-] Ha1. simpl. intros [= <-].
      exfalso. by apply (Hfree u1 r1').
    + intros H1 H2 Ha1 Ha2. by apply (Ho u1 u2 r1' r2' n).
Qed.

Lemma fs_consistent_free us cs out out' uid r name :
  consistent (World us cs out) → us !! uid = Some r →
  assigned_username r = Some name →
  consistent
    (World (<[uid := set_assigned None None r]> us)
           (alter (set_status available) name cs) out').
Proof.
  intros [Hk Hh Ho] Hr Ha. split; simpl in *.
  - by eapply fs_keyed_alter.
  - intros u r' n Hr' Ha'.
    destruct (decide (uid = u)) as [->|Hne]; simplify_map_eq; try done.
    destruct (Hh u r' n Hr' Ha') as (c0 & Hc0 & Hs).
    assert (name ≠ n) as Hnn.
    { intros ->. apply Hne. by apply (Ho uid u r r' n). }
    exists c0. split; [|done]. by rewrite lookup_alter_ne.
  - intros u1 u2 r1 r2 n H1 H2 Ha1 Ha2.
    destruct (decide (uid = u1)) as [->|]; simplify_map_eq; try done.
    destruct (decide (uid = u2)) as [->|]; simplify_map_eq; try done.
    by apply (Ho u1 u2 r1 r2 n).
Qed.

Lemma fs_initial_consistent : consistent initial.
Proof.
  split; simpl.
  - intros id c Hc. simpl in Hc. by rewrite lookup_empty in Hc.
  - intros u r n Hr. by rewrite lookup_empty in Hr.
  - intros u1 u2 r1 r2 n Hr. by rewrite lookup_empty in Hr.
Qed.

(** The credential a query returns sits under its own username. *)
Lemma fs_find_keyed now d w c :
  keyed w → (get_available_credential now d w).1 = Some c →
  credentials w !! username c = Some c.
Proof.
  intros Hk Hf. destruct (fs_find_id now d w c Hf) as [id Hc].
  by rewrite (Hk id c Hc).
Qed.

Lemma fs_serve_consistent r w : consistent w → consistent (serve r w).2.
Proof.
  intros Hc. destruct r as [uid nq now|uid|now name pass days|now name p days
                           |a args nf ng|a args|a args|uid]; simpl.
  - (* start *)
    run_state. destruct (start uid nq now w) as [st w'] eqn:E. simpl.
    pose proof (fs_start_db uid nq now w) as [Hcr Hus]. rewrite E in Hcr, Hus.
    destruct w as [us cs out], w' as [us' cs' out']. simpl in *. subst.
    destruct (us !! uid) eqn:Hu.
    + by eapply fs_consistent_output.
    + by eapply fs_consistent_new_user.
  - (* check_user_permission *)
    unfold check_user_permission. run_state.
    destruct (add_or_get_user uid w) as [st w'] eqn:E. simpl.
    pose proof (fs_add_or_get_user_db uid w) as [Hcr Hus]. rewrite E in Hcr, Hus.
    destruct w as [us cs out], w' as [us' cs' out']. simpl in *. subst.
    destruct (us !! uid) eqn:Hu.
    + by eapply fs_consistent_output.
    + by eapply fs_consistent_new_user.
  - (* add_credential_to_pool *)
    destruct w as [us cs out].
    unfold add_credential_to_pool, get_credential, credentials_set, emit.
    run_state. destruct (cs !! name) eqn:Hn; simpl.
    + by eapply fs_consistent_output.
    + by eapply fs_consistent_add.
  - (* edit_credential_in_pool *)
    destruct w as [us cs out].
    unfold edit_credential_in_pool, get_credential, credentials_update.
    run_state. destruct (cs !! name) as [c|] eqn:Hn; simpl; [|done].
    rewrite Hn. simpl.
    rewrite (fs_insert_alter (set_secret p (Some (now + timedelta_days days)))
               cs name c) by done.
    by eapply fs_consistent_edit.
  - (* permit_bot_use *)
    destruct a; [|done].
    destruct args as [|[u|] [|[d|] [|? ?]]];
      try (destruct w; by eapply fs_consistent_output).
    destruct (users w !! u) as [r|] eqn:Hu.
    + destruct (get_available_credential nf d w).1 as [c|] eqn:E.
      * rewrite (fs_permit_granted u d nf ng w c) by done. simpl.
        pose proof (fs_find_keyed nf d w c (keyed_by_username _ Hc) E) as Hk.
        destruct (fs_find_sound nf d w c E) as (_ & Hav & _).
        destruct w as [us cs out]. simpl in *.
        apply (fs_consistent_access _ _ []). by eapply fs_consistent_assign.
      * rewrite fs_permit_out_of_stock by done.
        destruct w. by eapply fs_consistent_output.
    + rewrite fs_permit_no_user by done.
      destruct w. by eapply fs_consistent_output.
  - (* restrict_bot_use *)
    unfold restrict_bot_use. destruct a; simpl; [|done].
    destruct args as [|[u|] ?]; simpl;
      try (destruct w; by eapply fs_consistent_output).
    unfold get_user. run_state.
    destruct (users w !! u) as [r|] eqn:Hu;
      [|destruct w; by eapply fs_consistent_output].
    rewrite fs_revoke_user_access. unfold emit. run_state.
    destruct w as [us cs out]. by eapply fs_consistent_access.
  - (* free_credential *)
    destruct a; [|done].
    destruct args as [|[u|] ?]; try (destruct w; by eapply fs_consistent_output).
    destruct (held_username (users w !! u)) as [n|] eqn:Hh.
    + apply held_username_Some in Hh as (r & Hr & Ha & Hne).
      rewrite (fs_free_credential_freed _ _ _ _ _ Hr Ha Hne).
      destruct w as [us cs out]. simpl in *.
      apply (fs_consistent_access _ _ []). by eapply fs_consistent_free.
    + rewrite fs_free_credential_nothing by done.
      destruct w. by eapply fs_consistent_output.
  - (* run_cleanup_task_after_delay *)
    destruct (held_username (users w !! uid)) as [n|] eqn:Hh.
    + apply held_username_Some in Hh as (r & Hr & Ha & Hne).
      rewrite (fs_cleanup_freed _ _ _ _ Hr Ha Hne).
      destruct w as [us cs out]. simpl in *.
      apply (fs_consistent_access _ _ []). by eapply fs_consistent_free.
    + rewrite fs_cleanup_nothing by done.
      destruct w. by eapply fs_consistent_access.
Qed.

Lemma fs_run_consistent rs w : consistent w → consistent (run rs w).
Proof.
  revert w. induction rs as [|r rs IH]; intros w Hc; [done|].
  simpl. apply IH. by apply fs_serve_consistent.
Qed.

(** ** A credential in use stays in use until it is freed *)

Lemma fs_pinned_status name n s us us' cs out out' :
  pinned name (World us cs out) → (n = name → s = in_use) →
  pinned name (World us' (alter (set_status s) n cs) out').
Proof.
  intros (c & Hc & Hs) Hn. simpl in *.
  exists (if decide (n = name) then set_status s c else c). split; simpl.
  - rewrite lookup_alter. case_decide; subst; by rewrite Hc.
  - case_decide; [by apply Hn|done].
Qed.

Lemma fs_pinned_edit name n p e us us' cs out out' :
  pinned name (World us cs out) →
  pinned name (World us' (alter (set_secret p e) n cs) out').
Proof.
  intros (c & Hc & Hs). simpl in *.
  exists (if decide (n = name) then set_secret p e c else c). split; simpl.
  - rewrite lookup_alter. case_decide; subst; by rewrite Hc.
  - by case_decide.
Qed.

Lemma fs_pinned_add name n c' us us' cs out out' :
  pinned name (World us cs out) → cs !! n = None →
  pinned name (World us' (<[n := c']> cs) out').
Proof.
  intros (c & Hc & Hs) Hfresh. simpl in *. exists c. split; [simpl|done].
  rewrite lookup_insert_ne; [done|]. congruence.
Qed.

Lemma fs_assign_pinned user_id c w :
  is_Some (users w !! user_id) → credentials w !! username c = Some c →
  pinned (username c) (assign_credential_to_user user_id c w).2.
Proof.
  intros [r Hu] Hc. unfold assign_credential_to_user, users_update.
  run_state. rewrite Hu. rewrite fs_update_credential_status.
  unfold emit. run_state. exists (set_status in_use c). split; [|done].
  simpl. by rewrite lookup_alter, decide_True, Hc.
Qed.

(** Without a record for the user the first [update] raises, and the status
    of the credential is never written: [permit_bot_use] checks for the
    record before it assigns. *)
Lemma fs_assign_unknown_user user_id c w :
  users w !! user_id = None →
  assign_credential_to_user user_id c w =
    (tt, World (users w) (credentials w)
           (output w ++ [Log (LogErrorAssign user_id)])).
Proof.
  intros Hu. unfold assign_credential_to_user, users_update, emit.
  run_state. by rewrite Hu.
Qed.

Lemma fs_pinned_not_found name w now d c :
  keyed w → pinned name w → (get_available_credential now d w).1 = Some c →
  username c ≠ name.
Proof.
  intros Hk (c0 & Hc0 & Hs) Hf Hn.
  pose proof (fs_find_keyed now d w c Hk Hf) as Hc.
  apply fs_find_sound in Hf as (_ & Hav & _).
  rewrite Hn in Hc. congruence.
Qed.

Lemma fs_serve_keyed r w : keyed w → keyed (serve r w).2.
Proof.
  intros Hk. destruct r as [uid nq now|uid|now n pass days|now n p days
                           |a args nf ng|a args|a args|uid]; simpl.
  - run_state. destruct (start uid nq now w) as [st w'] eqn:E. simpl.
    pose proof (fs_start_db uid nq now w) as [Hcr _]. rewrite E in Hcr.
    destruct w as [us cs out], w' as [us' cs' out']. simpl in *. by subst.
  - unfold check_user_permission. run_state.
    destruct (add_or_get_user uid w) as [st w'] eqn:E. simpl.
    pose proof (fs_add_or_get_user_db uid w) as [Hcr _]. rewrite E in Hcr.
    destruct w as [us cs out], w' as [us' cs' out']. simpl in *. by subst.
  - destruct w as [us cs out].
    unfold add_credential_to_pool, get_credential, credentials_set, emit.
    run_state. destruct (cs !! n) eqn:Hn; simpl; [done|].
    by eapply fs_keyed_insert.
  - destruct w as [us cs out].
    unfold edit_credential_in_pool, get_credential, credentials_update.
    run_state. destruct (cs !! n) as [c|] eqn:Hn; simpl; [|done].
    rewrite Hn. simpl.
    rewrite (fs_insert_alter (set_secret p (Some (now + timedelta_days days)))
               cs n c) by done.
    by eapply fs_keyed_alter.
  - destruct a; [|done].
    destruct args as [|[u|] [|[d|] [|? ?]]]; try (by destruct w).
    destruct (users w !! u) as [r|] eqn:Hu.
    + destruct (get_available_credential nf d w).1 as [c|] eqn:E.
      * rewrite (fs_permit_granted u d nf ng w c) by done.
        destruct w as [us cs out]. simpl in *. by eapply fs_keyed_alter.
      * rewrite fs_permit_out_of_stock by done. by destruct w.
    + rewrite fs_permit_no_user by done. by destruct w.
  - unfold restrict_bot_use. destruct a; simpl; [|done].
    destruct args as [|[u|] ?]; simpl; try (by destruct w).
    unfold get_user. run_state.
    destruct (users w !! u) as [r|] eqn:Hu; [|by destruct w].
    rewrite fs_revoke_user_access. unfold emit. run_state. by destruct w.
  - destruct a; [|done].
    destruct args as [|[u|] ?]; try (by destruct w).
    destruct (held_username (users w !! u)) as [n|] eqn:Hh.
    + apply held_username_Some in Hh as (r & Hr & Ha & Hne).
      rewrite (fs_free_credential_freed _ _ _ _ _ Hr Ha Hne).
      destruct w as [us cs out]. simpl in *. by eapply fs_keyed_alter.
    + rewrite fs_free_credential_nothing by done. by destruct w.
  - destruct (held_username (users w !! uid)) as [n|] eqn:Hh.
    + apply held_username_Some in Hh as (r & Hr & Ha & Hne).
      rewrite (fs_cleanup_freed _ _ _ _ Hr Ha Hne).
      destruct w as [us cs out]. simpl in *. by eapply fs_keyed_alter.
    + rewrite fs_cleanup_nothing by done. by destruct w.
Qed.

Lemma fs_serve_pinned name r w :
  pinned name w → ¬ frees name r w → pinned name (serve r w).2.
Proof.
  intros Hp Hnf. destruct r as [uid nq now|uid|now n pass days|now n p days
                               |a args nf ng|a args|a args|uid]; simpl.
  - run_state. destruct (start uid nq now w) as [st w'] eqn:E. simpl.
    pose proof (fs_start_db uid nq now w) as [Hcr _]. rewrite E in Hcr.
    destruct w as [us cs out], w' as [us' cs' out']. simpl in *. by subst.
  - unfold check_user_permission. run_state.
    destruct (add_or_get_user uid w) as [st w'] eqn:E. simpl.
    pose proof (fs_add_or_get_user_db uid w) as [Hcr _]. rewrite E in Hcr.
    destruct w as [us cs out], w' as [us' cs' out']. simpl in *. by subst.
  - destruct w as [us cs out].
    unfold add_credential_to_pool, get_credential, credentials_set, emit.
    run_state. destruct (cs !! n) eqn:Hn; simpl; [done|].
    by eapply fs_pinned_add.
  - destruct w as [us cs out].
    unfold edit_credential_in_pool, get_credential, credentials_update.
    run_state. destruct (cs !! n) as [c|] eqn:Hn; simpl; [|done].
    rewrite Hn. simpl.
    rewrite (fs_insert_alter (set_secret p (Some (now + timedelta_days days)))
               cs n c) by done.
    by eapply fs_pinned_edit.
  - destruct a; [|done].
    destruct args as [|[u|] [|[d|] [|? ?]]]; try (by destruct w).
    destruct (users w !! u) as [r|] eqn:Hu.
    + destruct (get_available_credential nf d w).1 as [c|] eqn:E.
      * rewrite (fs_permit_granted u d nf ng w c) by done.
        destruct w as [us cs out]. simpl in *. by eapply fs_pinned_status.
      * rewrite fs_permit_out_of_stock by done. by destruct w.
    + rewrite fs_permit_no_user by done. by destruct w.
  - unfold restrict_bot_use. destruct a; simpl; [|done].
    destruct args as [|[u|] ?]; simpl; try (by destruct w).
    unfold get_user. run_state.
    destruct (users w !! u) as [r|] eqn:Hu; [|by destruct w].
    rewrite fs_revoke_user_access. unfold emit. run_state. by destruct w.
  - destruct a; [|done].
    destruct args as [|[u|] ?]; try (by destruct w).
    simpl in Hnf.
    destruct (held_username (users w !! u)) as [n|] eqn:Hh.
    + apply held_username_Some in Hh as (r & Hr & Ha & Hne).
      rewrite (fs_free_holding _ _ _ _ Hr Ha Hne) in Hnf. simpl in Hnf.
      rewrite (fs_free_credential_freed _ _ _ _ _ Hr Ha Hne).
      destruct w as [us cs out]. simpl in *.
      eapply fs_pinned_status; [done|]. intros ->. done.
    + rewrite fs_free_credential_nothing by done. by destruct w.
  - simpl in Hnf.
    destruct (held_username (users w !! uid)) as [n|] eqn:Hh.
    + apply held_username_Some in Hh as (r & Hr & Ha & Hne).
      rewrite (fs_free_holding _ _ _ _ Hr Ha Hne) in Hnf. simpl in Hnf.
      rewrite (fs_cleanup_freed _ _ _ _ Hr Ha Hne).
      destruct w as [us cs out]. simpl in *.
      eapply fs_pinned_status; [done|]. intros ->. done.
    + rewrite fs_cleanup_nothing by done. by destruct w.
Qed.

Lemma fs_run_pinned name rs w :
  keyed w → pinned name w → never_frees name rs w →
  keyed (run rs w) ∧ pinned name (run rs w).
Proof.
  revert w. induction rs as [|r rs IH]; intros w Hk Hp Hnf; [done|].
  destruct Hnf as [Hr Hrs]. simpl. apply IH; [|
    |done].
  - by apply fs_serve_keyed.
  - by apply fs_serve_pinned.
Qed.

(** ** Remaining facts about single operations *)

Lemma fs_free_None_held u w :
  (free_credential_from_user u w).1 = None →
  held_username (users w !! u) = None.
Proof.
  destruct (held_username (users w !! u)) as [n|] eqn:Hh; [|done].
  apply held_username_Some in Hh as (r & Hr & Ha & Hne).
  by rewrite (fs_free_holding _ _ _ _ Hr Ha Hne).
Qed.

Lemma fs_edit_missing now name p days w :
  credentials w !! name = None →
  edit_credential_in_pool now name p days w = (false, w).
Proof.
  intros H. unfold edit_credential_in_pool, get_credential. run_state.
  by rewrite H.
Qed.

Lemma fs_edit_found now name p days w c :
  credentials w !! name = Some c →
  edit_credential_in_pool now name p days w =
    (true, World (users w)
             (<[name := set_secret p (Some (now + timedelta_days days)) c]>
                (credentials w))
             (output w)).
Proof.
  intros H. unfold edit_credential_in_pool, get_credential, credentials_update.
  run_state. rewrite H. simpl. by rewrite H.
Qed.

End FirestoreFacts.

(** * Leases: the shape of the user records *)

Lemma records_alter (P : user → Prop) (f : user → user) uid (us : gmap Z user) :
  (∀ u r, us !! u = Some r → P r) →
  (∀ r, us !! uid = Some r → P (f r)) →
  ∀ u r, alter f uid us !! u = Some r → P r.
Proof.
  intros Hall Hf u r. rewrite lookup_alter. case_decide as Hd.
  - subst u. destruct (us !! uid) as [r0|] eqn:E; simpl; [|done].
    intros [= <-]. by apply Hf.
  - apply Hall.
Qed.

Lemma records_insert (P : user → Prop) x uid (us : gmap Z user) :
  (∀ u r, us !! u = Some r → P r) → P x →
  ∀ u r, <[uid := x]> us !! u = Some r → P r.
Proof.
  intros Hall Hx u r. destruct (decide (uid = u)) as [->|Hne].
  - rewrite lookup_insert_eq. by intros [= <-].
  - rewrite lookup_insert_ne by done. apply Hall.
Qed.

Lemma lease_record_of_revoke r :
  lease_record r → lease_record (set_access false None r).
Proof.
  intros (H1 & H2 & H3). unfold lease_record. simpl. split_and!; [|done..].
  split; [done|]. by intros [x Hx].
Qed.

Lemma lease_record_of_grant name pass e r :
  lease_record
    (set_access true (Some e) (set_assigned (Some name) (Some pass) r)).
Proof. unfold lease_record. simpl. split_and!; try split; eauto. Qed.

Lemma lease_record_of_reclaim r :
  lease_record (set_access false None (set_assigned None None r)).
Proof.
  unfold lease_record. simpl. split_and!; [|done|].
  - split; [done|]. by intros [x Hx].
  - split; intros [x Hx]; done.
Qed.

Lemma lease_record_new_user : lease_record new_user.
Proof.
  unfold lease_record. simpl. split_and!; [|done|].
  - split; [done|]. by intros [x Hx].
  - split; intros [x Hx]; done.
Qed.

Module SqliteLeases.
Import Sqlite SqliteFacts.

Lemma sq_serve_records r w :
  (∀ u x, users w !! u = Some x → lease_record x) →
  ∀ u x, users (serve r w).2 !! u = Some x → lease_record x.
Proof.
  intros Hall. destruct r as [uid clock|uid|now n pass days|now n p days
                             |a args nf ng|a args|a args|uid]; simpl.
  - run_state. destruct (start uid clock w) as [st w'] eqn:E. simpl.
    pose proof (sq_start_db uid clock w) as [_ Hus]. rewrite E in Hus.
    simpl in Hus. rewrite Hus. destruct (users w !! uid) eqn:Hu; [done|].
    apply records_insert; [done|apply lease_record_new_user].
  - unfold check_user_permission. run_state.
    destruct (add_or_get_user uid w) as [st w'] eqn:E. simpl.
    pose proof (sq_add_or_get_user_db uid w) as [_ Hus]. rewrite E in Hus.
    simpl in Hus. rewrite Hus. destruct (users w !! uid) eqn:Hu; [done|].
    apply records_insert; [done|apply lease_record_new_user].
  - unfold add_credential_to_pool, update_credentials, emit. run_state.
    by case_bool_decide.
  - unfold edit_credential_in_pool, update_credentials. run_state.
    by destruct (select_by_username n (credentials w)).
  - destruct a; [|done].
    destruct args as [|[u|] [|[d|] [|? ?]]]; try done.
    destruct (users w !! u) as [r|] eqn:Hu.
    + destruct (get_available_credential nf d w).1 as [c|] eqn:E.
      * rewrite (sq_permit_granted u d nf ng w c) by done. simpl.
        rewrite alter_alter_eq. apply records_alter; [done|].
        intros r0 _. apply lease_record_of_grant.
      * by rewrite sq_permit_out_of_stock.
    + by rewrite sq_permit_no_user.
  - unfold restrict_bot_use. destruct a; simpl; [|done].
    destruct args as [|[u|] ?]; simpl; try done.
    unfold get_user. run_state.
    destruct (users w !! u) as [r|] eqn:Hu; [|done]. simpl.
    apply records_alter; [done|]. intros r0 Hr0.
    apply lease_record_of_revoke. by apply (Hall u).
  - destruct a; [|done].
    destruct args as [|[u|] ?]; try done.
    destruct (held_username (users w !! u)) as [n|] eqn:Hh.
    + apply held_username_Some in Hh as (r & Hr & Ha & Hne).
      rewrite (sq_free_credential_freed _ _ _ _ _ Hr Ha Hne). simpl.
      rewrite alter_insert_eq.
      apply records_insert; [done|apply lease_record_of_reclaim].
    + by rewrite sq_free_credential_nothing.
  - destruct (held_username (users w !! uid)) as [n|] eqn:Hh.
    + apply held_username_Some in Hh as (r & Hr & Ha & Hne).
      rewrite (sq_cleanup_freed _ _ _ _ Hr Ha Hne). simpl.
      rewrite alter_insert_eq.
      apply records_insert; [done|apply lease_record_of_reclaim].
    + by rewrite sq_cleanup_nothing.
Qed.

Lemma sq_run_records rs w :
  (∀ u x, users w !! u = Some x → lease_record x) →
  ∀ u x, users (run rs w) !! u = Some x → lease_record x.
Proof.
  revert w. induction rs as [|r rs IH]; intros w Hall; [done|].
  simpl. apply IH. by apply sq_serve_records.
Qed.

(** Marking a credential available again undoes marking it in use, when the
    credential was available and is the only one of its name. *)
Lemma sq_status_round_trip (rows : list credential) c :
  NoDup (username <$> rows) → c ∈ rows → status c = available →
  sql_update (username c) (set_status available)
    (sql_update (username c) (set_status in_use) rows) = rows.
Proof.
  intros Hnd Hin Hav. unfold sql_update. rewrite <- list_fmap_compose.
  rewrite <- (list_fmap_id rows) at 2. apply list_fmap_ext.
  intros i x Hx. simpl. apply list_elem_of_lookup_2 in Hx.
  destruct (decide (username x = username c)) as [Heq|Hne]; simpl.
  - rewrite decide_True by done.
    assert (x = c) by by apply (sq_unique_row rows). subst x.
    destruct c as [n p s e]. simpl in *. by subst s.
  - by rewrite decide_False.
Qed.

End SqliteLeases.

Module FirestoreLeases.
Import Firestore FirestoreFacts.

Lemma fs_serve_records r w :
  (∀ u x, users w !! u = Some x → lease_record x) →
  ∀ u x, users (serve r w).2 !! u = Some x → lease_record x.
Proof.
  intros Hall. destruct r as [uid nq now|uid|now n pass days|now n p days
                             |a args nf ng|a args|a args|uid]; simpl.
  - run_state. destruct (start uid nq now w) as [st w'] eqn:E. simpl.
    pose proof (fs_start_db uid nq now w) as [_ Hus]. rewrite E in Hus.
    simpl in Hus. rewrite Hus. destruct (users w !! uid) eqn:Hu; [done|].
    apply records_insert; [done|apply lease_record_new_user].
  - unfold check_user_permission. run_state.
    destruct (add_or_get_user uid w) as [st w'] eqn:E. simpl.
    pose proof (fs_add_or_get_user_db uid w) as [_ Hus]. rewrite E in Hus.
    simpl in Hus. rewrite Hus. destruct (users w !! uid) eqn:Hu; [done|].
    apply records_insert; [done|apply lease_record_new_user].
  - unfold add_credential_to_pool, get_credential, credentials_set, emit.
    run_state. by destruct (credentials w !! n).
  - unfold edit_credential_in_pool, get_credential, credentials_update.
    run_state. destruct (credentials w !! n) as [c|] eqn:Hn; simpl; [|done].
    by rewrite Hn.
  - destruct a; [|done].
    destruct args as [|[u|] [|[d|] [|? ?]]]; try done.
    destruct (users w !! u) as [r|] eqn:Hu.
    + destruct (get_available_credential nf d w).1 as [c|] eqn:E.
      * rewrite (fs_permit_granted u d nf ng w c) by done. simpl.
        rewrite alter_alter_eq. apply records_alter; [done|].
        intros r0 _. apply lease_record_of_grant.
      * by rewrite fs_permit_out_of_stock.
    + by rewrite fs_permit_no_user.
  - unfold restrict_bot_use. destruct a; simpl; [|done].
    destruct args as [|[u|] ?]; simpl; try done.
    unfold get_user. run_state.
    destruct (users w !! u) as [r|] eqn:Hu; [|done].
    rewrite fs_revoke_user_access. unfold emit. run_state.
    apply records_alter; [done|]. intros r0 Hr0.
    apply lease_record_of_revoke. by apply (Hall u).
  - destruct a; [|done].
    destruct args as [|[u|] ?]; try done.
    destruct (held_username (users w !! u)) as [n|] eqn:Hh.
    + apply held_username_Some in Hh as (r & Hr & Ha & Hne).
      rewrite (fs_free_credential_freed _ _ _ _ _ Hr Ha Hne). simpl.
      rewrite alter_insert_eq.
      apply records_insert; [done|apply lease_record_of_reclaim].
    + by rewrite fs_free_credential_nothing.
  - destruct (held_username (users w !! uid)) as [n|] eqn:Hh.
    + apply held_username_Some in Hh as (r & Hr & Ha & Hne).
      rewrite (fs_cleanup_freed _ _ _ _ Hr Ha Hne). simpl.
      rewrite alter_insert_eq.
      apply records_insert; [done|apply lease_record_of_reclaim].
    + rewrite fs_cleanup_nothing by done. simpl.
      apply records_alter; [done|]. intros r0 Hr0.
      apply lease_record_of_revoke. by apply (Hall uid).
Qed.

Lemma fs_run_records rs w :
  (∀ u x, users w !! u = Some x → lease_record x) →
  ∀ u x, users (run rs w) !! u = Some x → lease_record x.
Proof.
  revert w. induction rs as [|r rs IH]; intros w Hall; [done|].
  simpl. apply IH. by apply fs_serve_records.
Qed.

Lemma fs_status_round_trip (docs : gmap string credential) c :
  docs !! username c = Some c → status c = available →
  alter (set_status available) (username c)
    (alter (set_status in_use) (username c) docs) = docs.
Proof.
  intros Hc Hav. rewrite alter_alter_eq. apply map_eq. intros id.
  rewrite lookup_alter. case_decide as Hd; [|done]. subst id.
  rewrite Hc. simpl. f_equal. destruct c as [n p s e]. simpl in *. by subst s.
Qed.

End FirestoreLeases.

(** * The claims about the leasing engine *)

(** C1. FindBestFit ([get_available_credential]), in both stores: a
    credential is returned only if it is in the pool, available, and its
    expiry is at least [now] plus the requested days; no credential of the
    pool that meets these conditions expires sooner; and when nothing is
    returned, no credential of the pool meets them. The call does not change
    the store. *)
Theorem find_best_fit_is_tightest :
  (∀ (now d : Z) (w : Sqlite.world),
     (Sqlite.get_available_credential now d w).2 = w ∧
     match (Sqlite.get_available_credential now d w).1 with
     | Some c =>
         c ∈ Sqlite.credentials w ∧ status c = available ∧
         ∃ e, credential_expiry_date c = Some e ∧ now + timedelta_days d ≤ e ∧
           ∀ c' e', c' ∈ Sqlite.credentials w → status c' = available →
             credential_expiry_date c' = Some e' →
             now + timedelta_days d ≤ e' → e ≤ e'
     | None =>
         ∀ c e, c ∈ Sqlite.credentials w → status c = available →
           credential_expiry_date c = Some e → e < now + timedelta_days d
     end) ∧
  (∀ (now d : Z) (w : Firestore.world),
     (Firestore.get_available_credential now d w).2 = w ∧
     match (Firestore.get_available_credential now d w).1 with
     | Some c =>
         (∃ id, Firestore.credentials w !! id = Some c) ∧
         status c = available ∧
         ∃ e, credential_expiry_date c = Some e ∧ now + timedelta_days d ≤ e ∧
           ∀ id' c' e', Firestore.credentials w !! id' = Some c' →
             status c' = available → credential_expiry_date c' = Some e' →
             now + timedelta_days d ≤ e' → e ≤ e'
     | None =>
         ∀ id c e, Firestore.credentials w !! id = Some c →
           status c = available → credential_expiry_date c = Some e →
           e < now + timedelta_days d
     end).
Proof.
  split; intros now d w; (split; [done|]).
  - destruct (Sqlite.get_available_credential now d w).1 as [c|] eqn:E.
    + by apply SqliteFacts.sq_find_sound.
    + intros c e Hin Hs He.
      pose proof (SqliteFacts.sq_find_complete now d w E c e Hin Hs He). lia.
  - destruct (Firestore.get_available_credential now d w).1 as [c|] eqn:E.
    + by apply FirestoreFacts.fs_find_sound.
    + intros id c e Hin Hs He.
      pose proof (FirestoreFacts.fs_find_complete now d w E id c e Hin Hs He).
      lia.
Qed.

(** C7. RevokeAccess ([revoke_user_access]), in both stores: the user's
    record gets [is_bot_use = false] and no plan expiry and keeps its
    assigned username and password; a missing user stays missing; every other
    user's record and the whole credential pool, the status of every
    credential included, are unchanged. *)
Theorem revoke_access_keeps_credential :
  (∀ (w : Sqlite.world) (u : Z),
     let w' := (Sqlite.revoke_user_access u w).2 in
     Sqlite.users w' !! u =
       (λ r, {| is_bot_use := false; plan_expiry_date := None;
                assigned_username := assigned_username r;
                assigned_password := assigned_password r |})
         <$> Sqlite.users w !! u ∧
     (∀ v, v ≠ u → Sqlite.users w' !! v = Sqlite.users w !! v) ∧
     Sqlite.credentials w' = Sqlite.credentials w) ∧
  (∀ (w : Firestore.world) (u : Z),
     let w' := (Firestore.revoke_user_access u w).2 in
     Firestore.users w' !! u =
       (λ r, {| is_bot_use := false; plan_expiry_date := None;
                assigned_username := assigned_username r;
                assigned_password := assigned_password r |})
         <$> Firestore.users w !! u ∧
     (∀ v, v ≠ u → Firestore.users w' !! v = Firestore.users w !! v) ∧
     Firestore.credentials w' = Firestore.credentials w).
Proof.
  split; intros w u.
  - simpl. split_and!; [|intros v Hv|done].
    + by rewrite lookup_alter, decide_True.
    + by rewrite lookup_alter_ne.
  - rewrite FirestoreFacts.fs_revoke_user_access. simpl.
    split_and!; [|intros v Hv|done].
    + by rewrite lookup_alter, decide_True.
    + by rewrite lookup_alter_ne.
Qed.

(** C8. Edit ([edit_credential_in_pool]), in both stores: when no credential
    has the username the result is [False] and nothing changes; when one
    has, the result is [True], that credential gets the new password and the
    expiry [now] plus the new days and keeps its status, and every other
    credential and every user is unchanged. *)
Theorem edit_keeps_status :
  (∀ (w : Sqlite.world) (now : Z) (name p : string) (days : Z),
     ((∀ c, c ∈ Sqlite.credentials w → username c ≠ name) →
      Sqlite.edit_credential_in_pool now name p days w = (false, w)) ∧
     (∀ c0, c0 ∈ Sqlite.credentials w → username c0 = name →
      let res := Sqlite.edit_credential_in_pool now name p days w in
      res.1 = true ∧
      Sqlite.users res.2 = Sqlite.users w ∧
      Sqlite.output res.2 = Sqlite.output w ∧
      ∀ i : nat, Sqlite.credentials res.2 !! i =
        (λ c, if decide (username c = name)
              then {| username := username c; password := p;
                      status := status c;
                      credential_expiry_date :=
                        Some (now + timedelta_days days) |}
              else c) <$> Sqlite.credentials w !! i)) ∧
  (∀ (w : Firestore.world) (now : Z) (name p : string) (days : Z),
     (Firestore.credentials w !! name = None →
      Firestore.edit_credential_in_pool now name p days w = (false, w)) ∧
     (∀ c, Firestore.credentials w !! name = Some c →
      let res := Firestore.edit_credential_in_pool now name p days w in
      res.1 = true ∧
      Firestore.users res.2 = Firestore.users w ∧
      Firestore.output res.2 = Firestore.output w ∧
      Firestore.credentials res.2 !! name =
        Some {| username := username c; password := p; status := status c;
                credential_expiry_date := Some (now + timedelta_days days) |} ∧
      ∀ id, id ≠ name →
        Firestore.credentials res.2 !! id = Firestore.credentials w !! id)).
Proof.
  split; intros w now name p days; split.
  - apply SqliteFacts.sq_edit_missing.
  - intros c0 Hin Hn.
    rewrite (SqliteFacts.sq_edit_found now name p days w c0 Hin Hn). simpl.
    split_and!; [done..|]. intros i. apply SqliteFacts.sq_lookup_sql_update.
  - apply FirestoreFacts.fs_edit_missing.
  - intros c Hc. rewrite (FirestoreFacts.fs_edit_found now name p days w c Hc).
    simpl. split_and!; [done..| |].
    + by rewrite lookup_insert_eq.
    + intros id Hid. by rewrite lookup_insert_ne.
Qed.

(** C10. The lazy upsert ([add_or_get_user]), in both stores: for a user
    with a record it returns that record and changes nothing; for a user
    without one it stores a record with [is_bot_use = false], no plan expiry
    and no assigned credential, and changes no other user and no credential.
    Hence a permission check ([check_user_permission]) or [/start] by a user
    with a record leaves every user record and every credential as it was. *)
Theorem upsert_never_modifies_existing_user :
  (∀ (w : Sqlite.world) (u : Z),
     (∀ r, Sqlite.users w !! u = Some r →
        Sqlite.add_or_get_user u w = (Some r, w) ∧
        (Sqlite.check_user_permission u w) = (is_bot_use r, w) ∧
        (∀ clock, Sqlite.users (Sqlite.start u clock w).2 = Sqlite.users w ∧
           Sqlite.credentials (Sqlite.start u clock w).2 = Sqlite.credentials w)) ∧
     (Sqlite.users w !! u = None →
        let res := Sqlite.add_or_get_user u w in
        res.1 = Some {| is_bot_use := false; plan_expiry_date := None;
                        assigned_username := None; assigned_password := None |} ∧
        Sqlite.users res.2 !! u = res.1 ∧
        (∀ v, v ≠ u → Sqlite.users res.2 !! v = Sqlite.users w !! v) ∧
        Sqlite.credentials res.2 = Sqlite.credentials w)) ∧
  (∀ (w : Firestore.world) (u : Z),
     (∀ r, Firestore.users w !! u = Some r →
        Firestore.add_or_get_user u w = (Some r, w) ∧
        (Firestore.check_user_permission u w) = (is_bot_use r, w) ∧
        (∀ now_query now,
           Firestore.users (Firestore.start u now_query now w).2 =
             Firestore.users w ∧
           Firestore.credentials (Firestore.start u now_query now w).2 =
             Firestore.credentials w)) ∧
     (Firestore.users w !! u = None →
        let res := Firestore.add_or_get_user u w in
        res.1 = Some {| is_bot_use := false; plan_expiry_date := None;
                        assigned_username := None; assigned_password := None |} ∧
        Firestore.users res.2 !! u = res.1 ∧
        (∀ v, v ≠ u → Firestore.users res.2 !! v = Firestore.users w !! v) ∧
        Firestore.credentials res.2 = Firestore.credentials w)).
Proof.
  split; intros w u; split.
  - intros r Hu.
    assert (Sqlite.add_or_get_user u w = (Some r, w)) as Hadd.
    { unfold Sqlite.add_or_get_user, Sqlite.get_user.
      run_state. by rewrite Hu. }
    split_and!; [done| |].
    + unfold Sqlite.check_user_permission. run_state.
      by rewrite Hadd.
    + intros clock. destruct (SqliteFacts.sq_start_db u clock w) as [Hc Hus].
      rewrite Hu in Hus. done.
  - intros Hu. unfold Sqlite.add_or_get_user, Sqlite.get_user,
      Sqlite.update_users, Sqlite.emit.
    run_state. rewrite Hu. simpl.
    rewrite lookup_insert_eq. split_and!; [done..| |done].
    intros v Hv. by rewrite lookup_insert_ne.
  - intros r Hu.
    assert (Firestore.add_or_get_user u w = (Some r, w)) as Hadd.
    { unfold Firestore.add_or_get_user, Firestore.get_user.
      run_state. by rewrite Hu. }
    split_and!; [done| |].
    + unfold Firestore.check_user_permission. run_state.
      by rewrite Hadd.
    + intros nq now.
      destruct (FirestoreFacts.fs_start_db u nq now w) as [Hc Hus].
      rewrite Hu in Hus. done.
  - intros Hu. unfold Firestore.add_or_get_user, Firestore.get_user,
      Firestore.users_set, Firestore.emit.
    run_state. rewrite Hu. simpl.
    rewrite lookup_insert_eq. split_and!; [done..| |done].
    intros v Hv. by rewrite lookup_insert_ne.
Qed.

(** C5. Free ([free_credential_from_user]), in both stores: for a user
    without a record or without an assigned username it returns [None] and
    leaves the whole store as it was, so a second call does the same; for a
    user whose record carries a (non-empty) username it returns that
    username, clears the assigned username and password of the record,
    leaves the other users alone, and sets the status of the credential of
    that username to [available], leaving the other credentials alone. *)
Theorem free_releases_or_does_nothing :
  (∀ (w : Sqlite.world) (u : Z),
     ((∀ r, Sqlite.users w !! u = Some r → assigned_username r = None) →
      Sqlite.free_credential_from_user u w = (None, w) ∧
      let '(first, w1) := Sqlite.free_credential_from_user u w in
      let '(second, w2) := Sqlite.free_credential_from_user u w1 in
      first = None ∧ second = None ∧ w2 = w) ∧
     (∀ r name,
        Sqlite.users w !! u = Some r → assigned_username r = Some name →
        name ≠ "" →
        let res := Sqlite.free_credential_from_user u w in
        res.1 = Some name ∧
        Sqlite.users res.2 !! u =
          Some {| is_bot_use := is_bot_use r;
                  plan_expiry_date := plan_expiry_date r;
                  assigned_username := None; assigned_password := None |} ∧
        (∀ v, v ≠ u → Sqlite.users res.2 !! v = Sqlite.users w !! v) ∧
        ∀ i : nat, Sqlite.credentials res.2 !! i =
          (λ c, if decide (username c = name)
                then {| username := username c; password := password c;
                        status := available;
                        credential_expiry_date := credential_expiry_date c |}
                else c) <$> Sqlite.credentials w !! i)) ∧
  (∀ (w : Firestore.world) (u : Z),
     ((∀ r, Firestore.users w !! u = Some r → assigned_username r = None) →
      Firestore.free_credential_from_user u w = (None, w) ∧
      let '(first, w1) := Firestore.free_credential_from_user u w in
      let '(second, w2) := Firestore.free_credential_from_user u w1 in
      first = None ∧ second = None ∧ w2 = w) ∧
     (∀ r name,
        Firestore.users w !! u = Some r → assigned_username r = Some name →
        name ≠ "" →
        let res := Firestore.free_credential_from_user u w in
        res.1 = Some name ∧
        Firestore.users res.2 !! u =
          Some {| is_bot_use := is_bot_use r;
                  plan_expiry_date := plan_expiry_date r;
                  assigned_username := None; assigned_password := None |} ∧
        (∀ v, v ≠ u → Firestore.users res.2 !! v = Firestore.users w !! v) ∧
        Firestore.credentials res.2 !! name =
          (λ c, {| username := username c; password := password c;
                   status := available;
                   credential_expiry_date := credential_expiry_date c |})
            <$> Firestore.credentials w !! name ∧
        ∀ id, id ≠ name →
          Firestore.credentials res.2 !! id = Firestore.credentials w !! id)).
Proof.
  split; intros w u; split.
  - intros H. apply no_credential_held in H.
    by rewrite !(SqliteFacts.sq_free_nothing u w H).
  - intros r name Hu Ha Hne.
    rewrite (SqliteFacts.sq_free_holding u w r name Hu Ha Hne). simpl.
    split_and!; [done| | |].
    + by rewrite lookup_insert_eq.
    + intros v Hv. by rewrite lookup_insert_ne.
    + intros i. apply SqliteFacts.sq_lookup_sql_update.
  - intros H. apply no_credential_held in H.
    by rewrite !(FirestoreFacts.fs_free_nothing u w H).
  - intros r name Hu Ha Hne.
    rewrite (FirestoreFacts.fs_free_holding u w r name Hu Ha Hne). simpl.
    split_and!; [done| | | |].
    + by rewrite lookup_insert_eq.
    + intros v Hv. by rewrite lookup_insert_ne.
    + by rewrite lookup_alter, decide_True.
    + intros id Hid. by rewrite lookup_alter_ne.
Qed.

(** C6. FreeCredential (the [/freecredential] handler called by the admin),
    in both stores: when the user's record carries a (non-empty) username the
    handler frees it and revokes access, so the record ends with
    [is_bot_use = false], no plan expiry and no assigned credential; when the
    user has no record or no assigned username, no user record and no
    credential changes, so access is not revoked. *)
Theorem manual_free_revokes_access :
  (∀ (w : Sqlite.world) (u : Z) (rest : list (option Z)),
     let w' := (Sqlite.free_credential true (Some u :: rest) w).2 in
     (∀ r name,
        Sqlite.users w !! u = Some r → assigned_username r = Some name →
        name ≠ "" →
        Sqlite.users w' !! u =
          Some {| is_bot_use := false; plan_expiry_date := None;
                  assigned_username := None; assigned_password := None |}) ∧
     ((∀ r, Sqlite.users w !! u = Some r → assigned_username r = None) →
      Sqlite.users w' = Sqlite.users w ∧
      Sqlite.credentials w' = Sqlite.credentials w)) ∧
  (∀ (w : Firestore.world) (u : Z) (rest : list (option Z)),
     let w' := (Firestore.free_credential true (Some u :: rest) w).2 in
     (∀ r name,
        Firestore.users w !! u = Some r → assigned_username r = Some name →
        name ≠ "" →
        Firestore.users w' !! u =
          Some {| is_bot_use := false; plan_expiry_date := None;
                  assigned_username := None; assigned_password := None |}) ∧
     ((∀ r, Firestore.users w !! u = Some r → assigned_username r = None) →
      Firestore.users w' = Firestore.users w ∧
      Firestore.credentials w' = Firestore.credentials w)).
Proof.
  split; intros w u rest; split.
  - intros r name Hu Ha Hne.
    rewrite (SqliteFacts.sq_free_credential_freed u rest w r name Hu Ha Hne).
    simpl. by rewrite lookup_alter, decide_True, lookup_insert_eq.
  - intros H. apply no_credential_held in H.
    by rewrite (SqliteFacts.sq_free_credential_nothing u rest w H).
  - intros r name Hu Ha Hne.
    rewrite (FirestoreFacts.fs_free_credential_freed u rest w r name Hu Ha Hne).
    simpl. by rewrite lookup_alter, decide_True, lookup_insert_eq.
  - intros H. apply no_credential_held in H.
    by rewrite (FirestoreFacts.fs_free_credential_nothing u rest w H).
Qed.

(** C9. Whenever Free returns a username, the user's record afterwards has
    neither an assigned username nor an assigned password; this holds for the
    bare [free_credential_from_user], for the admin's [/freecredential] and
    for the scheduled cleanup task, in both stores. *)
Theorem free_clears_stored_secret :
  (∀ (w : Sqlite.world) (u : Z) (name : string) (rest : list (option Z)),
     (Sqlite.free_credential_from_user u w).1 = Some name →
     ∀ w',
       w' = (Sqlite.free_credential_from_user u w).2 ∨
       w' = (Sqlite.free_credential true (Some u :: rest) w).2 ∨
       w' = (Sqlite.run_cleanup_task_after_delay u w).2 →
       ∃ r', Sqlite.users w' !! u = Some r' ∧
             assigned_username r' = None ∧ assigned_password r' = None) ∧
  (∀ (w : Firestore.world) (u : Z) (name : string) (rest : list (option Z)),
     (Firestore.free_credential_from_user u w).1 = Some name →
     ∀ w',
       w' = (Firestore.free_credential_from_user u w).2 ∨
       w' = (Firestore.free_credential true (Some u :: rest) w).2 ∨
       w' = (Firestore.run_cleanup_task_after_delay u w).2 →
       ∃ r', Firestore.users w' !! u = Some r' ∧
             assigned_username r' = None ∧ assigned_password r' = None).
Proof.
  split; intros w u name rest Hfree w' Hw'.
  - destruct (held_username (Sqlite.users w !! u)) as [n|] eqn:Hh.
    2: { by rewrite (SqliteFacts.sq_free_nothing u w Hh) in Hfree. }
    apply held_username_Some in Hh as (r & Hu & Ha & Hne).
    destruct Hw' as [->|[->| ->]].
    + rewrite (SqliteFacts.sq_free_holding u w r n Hu Ha Hne). simpl.
      eexists. by rewrite lookup_insert_eq.
    + rewrite (SqliteFacts.sq_free_credential_freed u rest w r n Hu Ha Hne).
      simpl. eexists. by rewrite lookup_alter, decide_True, lookup_insert_eq.
    + rewrite (SqliteFacts.sq_cleanup_freed u w r n Hu Ha Hne).
      simpl. eexists. by rewrite lookup_alter, decide_True, lookup_insert_eq.
  - destruct (held_username (Firestore.users w !! u)) as [n|] eqn:Hh.
    2: { by rewrite (FirestoreFacts.fs_free_nothing u w Hh) in Hfree. }
    apply held_username_Some in Hh as (r & Hu & Ha & Hne).
    destruct Hw' as [->|[->| ->]].
    + rewrite (FirestoreFacts.fs_free_holding u w r n Hu Ha Hne). simpl.
      eexists. by rewrite lookup_insert_eq.
    + rewrite (FirestoreFacts.fs_free_credential_freed u rest w r n Hu Ha Hne).
      simpl. eexists. by rewrite lookup_alter, decide_True, lookup_insert_eq.
    + rewrite (FirestoreFacts.fs_cleanup_freed u w r n Hu Ha Hne).
      simpl. eexists. by rewrite lookup_alter, decide_True, lookup_insert_eq.
Qed.

(** C4. GrantAccess (the [/permitbotuse] handler called by the admin with a
    user id and a number of days), in both stores. Without a record for the
    user it reports that the user was not found; with a record but without a
    fitting credential it reports that none is in stock; in both cases no
    user record and no credential changes. Otherwise the store is the one
    left by Assign of the found credential followed by the grant, whose log
    records precede the creation of the cleanup task in the trace: the user's
    record is active with plan expiry [now] plus the days and carries the
    credential, the credential is in use, and the task is created for exactly
    [days * 86400] seconds. *)
Theorem grant_access_steps :
  (∀ (w : Sqlite.world) (u d nf ng : Z),
     let res := Sqlite.permit_bot_use true [Some u; Some d] nf ng w in
     (Sqlite.users w !! u = None →
      Sqlite.users res.2 = Sqlite.users w ∧
      Sqlite.credentials res.2 = Sqlite.credentials w ∧
      Sqlite.output res.2 = Sqlite.output w ++ [ReplyText (UserNotFound u)]) ∧
     (is_Some (Sqlite.users w !! u) →
      (Sqlite.get_available_credential nf d w).1 = None →
      Sqlite.users res.2 = Sqlite.users w ∧
      Sqlite.credentials res.2 = Sqlite.credentials w ∧
      Sqlite.output res.2 = Sqlite.output w ++ [ReplyText (OutOfStock d)]) ∧
     (∀ r c,
        Sqlite.users w !! u = Some r →
        (Sqlite.get_available_credential nf d w).1 = Some c →
        let w1 := (Sqlite.assign_credential_to_user u c w).2 in
        let w2 := (Sqlite.grant_user_access ng u d w1).2 in
        Sqlite.users res.2 = Sqlite.users w2 ∧
        Sqlite.credentials res.2 = Sqlite.credentials w2 ∧
        Sqlite.output w2 =
          Sqlite.output w ++
            [Log (LogAssigned (username c) u);
             Log (LogGranted u d (ng + timedelta_days d))] ∧
        Sqlite.output res.2 =
          Sqlite.output w2 ++
            [CreateTask u (d * 86400);
             ReplyText (AccessGranted u d (username c));
             SendMessage (UserChat u) (Congratulations d)] ∧
        Sqlite.users res.2 !! u =
          Some {| is_bot_use := true;
                  plan_expiry_date := Some (ng + timedelta_days d);
                  assigned_username := Some (username c);
                  assigned_password := Some (password c) |} ∧
        {| username := username c; password := password c; status := in_use;
           credential_expiry_date := credential_expiry_date c |}
          ∈ Sqlite.credentials res.2)) ∧
  (∀ (w : Firestore.world) (u d nf ng : Z),
     let res := Firestore.permit_bot_use true [Some u; Some d] nf ng w in
     (Firestore.users w !! u = None →
      Firestore.users res.2 = Firestore.users w ∧
      Firestore.credentials res.2 = Firestore.credentials w ∧
      Firestore.output res.2 =
        Firestore.output w ++ [ReplyText (UserNotFound u)]) ∧
     (is_Some (Firestore.users w !! u) →
      (Firestore.get_available_credential nf d w).1 = None →
      Firestore.users res.2 = Firestore.users w ∧
      Firestore.credentials res.2 = Firestore.credentials w ∧
      Firestore.output res.2 =
        Firestore.output w ++ [ReplyText (OutOfStock d)]) ∧
     (∀ r c,
        Firestore.keyed w →
        Firestore.users w !! u = Some r →
        (Firestore.get_available_credential nf d w).1 = Some c →
        let w1 := (Firestore.assign_credential_to_user u c w).2 in
        let w2 := (Firestore.grant_user_access ng u d w1).2 in
        Firestore.users res.2 = Firestore.users w2 ∧
        Firestore.credentials res.2 = Firestore.credentials w2 ∧
        Firestore.output w2 =
          Firestore.output w ++
            [Log (LogAssigned (username c) u);
             Log (LogGranted u d (ng + timedelta_days d))] ∧
        Firestore.output res.2 =
          Firestore.output w2 ++
            [CreateTask u (d * 86400);
             ReplyText (AccessGranted u d (username c));
             SendMessage (UserChat u) (Congratulations d)] ∧
        Firestore.users res.2 !! u =
          Some {| is_bot_use := true;
                  plan_expiry_date := Some (ng + timedelta_days d);
                  assigned_username := Some (username c);
                  assigned_password := Some (password c) |} ∧
        Firestore.credentials res.2 !! username c =
          Some {| username := username c; password := password c;
                  status := in_use;
                  credential_expiry_date := credential_expiry_date c |})).
Proof.
  split; intros w u d nf ng; split_and!.
  - intros Hu. by rewrite (SqliteFacts.sq_permit_no_user u d nf ng w Hu).
  - intros Hu Hf.
    by rewrite (SqliteFacts.sq_permit_out_of_stock u d nf ng w Hu Hf).
  - intros r c Hu Hf.
    rewrite (SqliteFacts.sq_permit_granted u d nf ng w c) by done.
    destruct (SqliteFacts.sq_find_sound nf d w c Hf) as (Hin & _).
    unfold Sqlite.assign_credential_to_user, Sqlite.grant_user_access,
      Sqlite.update_credential_status, Sqlite.update_users,
      Sqlite.update_credentials, Sqlite.emit.
    run_state. split_and!; [done..| | | |].
    + by rewrite <- app_assoc.
    + by rewrite <- !app_assoc.
    + by rewrite !lookup_alter, !decide_True, Hu.
    + apply SqliteFacts.sq_elem_of_sql_update. exists c.
      by rewrite decide_True.
  - intros Hu. by rewrite (FirestoreFacts.fs_permit_no_user u d nf ng w Hu).
  - intros Hu Hf.
    by rewrite (FirestoreFacts.fs_permit_out_of_stock u d nf ng w Hu Hf).
  - intros r c Hk Hu Hf.
    pose proof (FirestoreFacts.fs_find_keyed nf d w c Hk Hf) as Hc.
    rewrite (FirestoreFacts.fs_permit_granted u d nf ng w c) by done.
    rewrite Hc. simpl.
    unfold Firestore.assign_credential_to_user, Firestore.users_update.
    run_state. rewrite Hu.
    rewrite FirestoreFacts.fs_update_credential_status. simpl. rewrite Hc.
    unfold Firestore.grant_user_access, Firestore.users_update, Firestore.emit.
    run_state. rewrite lookup_insert_eq. simpl.
    rewrite <- (FirestoreFacts.fs_insert_alter _ (Firestore.users w) u r)
      by done.
    rewrite <- (FirestoreFacts.fs_insert_alter _
                  (<[u:=_]> (Firestore.users w)) u _)
      by apply lookup_insert_eq.
    split_and!; [done..| | | |].
    + by rewrite app_nil_r, <- app_assoc.
    + by rewrite app_nil_r, <- !app_assoc.
    + by rewrite lookup_insert_eq.
    + by rewrite lookup_alter, decide_True, Hc.
Qed.

(** C2. When the cleanup task fires and [free_credential_from_user]
    returns [None], the user ends inactive in both files. In bot.py, on a
    store reached from the empty one whose pool has no credential with an
    empty username (the admin command takes the username from
    [context.args], whose items are not empty), the record of the user
    already says so: it is inactive with no plan expiry; the task writes
    nothing and tells the operator that the cleanup was skipped. In
    bot_v2.0.py, on any store, the task revokes: the record ends inactive
    with no plan expiry, and nothing else changes. But the text of its
    notice to the operator ends in a dot without a backslash, unlike the
    text of bot.py: Telegram refuses it, and the task ends by logging the
    failure, the operator not having been told. *)
Theorem cleanup_without_credential_leaves_user_inactive :
  (∀ (rs : list Sqlite.request) (u : Z),
     let w := Sqlite.run rs Sqlite.initial in
     (∀ c, c ∈ Sqlite.credentials w → username c ≠ "") →
     (Sqlite.free_credential_from_user u w).1 = None →
     let w' := (Sqlite.run_cleanup_task_after_delay u w).2 in
     (∀ r, Sqlite.users w' !! u = Some r →
        is_bot_use r = false ∧ plan_expiry_date r = None) ∧
     Sqlite.users w' = Sqlite.users w ∧
     Sqlite.credentials w' = Sqlite.credentials w ∧
     unescaped_dot (Sqlite.cleanup_skipped_notice u) = false ∧
     Sqlite.output w' =
       Sqlite.output w ++
         [Log (LogExecutingCleanup u);
          SendMessage AdminChat (CleanupSkippedCheckManually u)]) ∧
  (∀ (w : Firestore.world) (u : Z),
     (Firestore.free_credential_from_user u w).1 = None →
     let w' := (Firestore.run_cleanup_task_after_delay u w).2 in
     (∀ r, Firestore.users w' !! u = Some r →
        is_bot_use r = false ∧ plan_expiry_date r = None) ∧
     Firestore.users w' =
       alter (set_access false None) u (Firestore.users w) ∧
     Firestore.credentials w' = Firestore.credentials w ∧
     unescaped_dot (Firestore.cleanup_skipped_notice u) = true ∧
     Firestore.output w' =
       Firestore.output w ++
         [Log (LogExecutingCleanup u);
          Log (if Firestore.users w !! u is Some _
               then LogRevoked u else LogErrorRevoke u);
          Log (LogErrorCleanup u)]).
Proof.
  split.
  - intros rs u w Hnames Hfree w'.
    pose proof (SqliteFacts.sq_run_consistent rs Sqlite.initial
                  SqliteFacts.sq_initial_consistent) as [_ Hh _].
    fold w in Hh.
    apply SqliteFacts.sq_free_None_held in Hfree. unfold w'.
    rewrite (SqliteFacts.sq_cleanup_nothing u w Hfree). simpl.
    split_and!; [|done..]. intros r Hr.
    rewrite Hr in Hfree. simpl in Hfree.
    destruct (assigned_username r) as [name|] eqn:Ha.
    + destruct (Hh u r name Hr Ha) as (c & Hc & Hn & _).
      assert (name ≠ "") as Hne by (rewrite <- Hn; by apply Hnames).
      unfold truthy in Hfree. by rewrite decide_False in Hfree.
    + destruct (SqliteLeases.sq_run_records rs Sqlite.initial) with u r
        as (Hexp & Hcarry & _); [|done|].
      { intros u' x Hx. simpl in Hx. by rewrite lookup_empty in Hx. }
      destruct (is_bot_use r) eqn:Hb.
      * destruct (Hcarry eq_refl) as [x Hx]. congruence.
      * split; [done|]. destruct (plan_expiry_date r) eqn:He; [|done].
        assert (false = true) by (apply Hexp; by eexists). done.
  - intros w u Hfree w'.
    apply FirestoreFacts.fs_free_None_held in Hfree. unfold w'.
    rewrite (FirestoreFacts.fs_cleanup_nothing u w Hfree). simpl.
    split_and!; [|done..]. intros r. rewrite lookup_alter, decide_True by done.
    destruct (Firestore.users w !! u); [|done]. by intros [= <-].
Qed.

(** C3. In both stores: after Assign of a credential of the pool to a user
    (in bot_v2.0.py: to a user with a record, in a pool whose documents sit
    under their usernames) the credential is in use, and after any further
    requests none of which frees it, FindBestFit returns no credential of
    that username, whatever the clock and the duration. In every store
    reached from the empty one by serving requests, no two users carry the
    username of the same credential, and no user carries the username of an
    available one. *)
Theorem assigned_credential_is_exclusive :
  (∀ (w : Sqlite.world) (u : Z) (c : credential),
     c ∈ Sqlite.credentials w →
     let w1 := (Sqlite.assign_credential_to_user u c w).2 in
     {| username := username c; password := password c; status := in_use;
        credential_expiry_date := credential_expiry_date c |}
       ∈ Sqlite.credentials w1 ∧
     (∀ c', c' ∈ Sqlite.credentials w1 → username c' = username c →
        status c' = in_use) ∧
     ∀ rs, Sqlite.never_frees (username c) rs w1 →
       ∀ now d c',
         (Sqlite.get_available_credential now d (Sqlite.run rs w1)).1 = Some c' →
         username c' ≠ username c) ∧
  (∀ (rs : list Sqlite.request),
     let w := Sqlite.run rs Sqlite.initial in
     ∀ c, c ∈ Sqlite.credentials w →
       (∀ u1 u2 r1 r2,
          Sqlite.users w !! u1 = Some r1 → Sqlite.users w !! u2 = Some r2 →
          assigned_username r1 = Some (username c) →
          assigned_username r2 = Some (username c) → u1 = u2) ∧
       (status c = available →
        ∀ u r, Sqlite.users w !! u = Some r →
          assigned_username r ≠ Some (username c))) ∧
  (∀ (w : Firestore.world) (u : Z) (c : credential),
     Firestore.keyed w → is_Some (Firestore.users w !! u) →
     Firestore.credentials w !! username c = Some c →
     let w1 := (Firestore.assign_credential_to_user u c w).2 in
     Firestore.credentials w1 !! username c =
       Some {| username := username c; password := password c;
               status := in_use;
               credential_expiry_date := credential_expiry_date c |} ∧
     ∀ rs, Firestore.never_frees (username c) rs w1 →
       ∀ now d c',
         (Firestore.get_available_credential now d (Firestore.run rs w1)).1
           = Some c' →
         username c' ≠ username c) ∧
  (∀ (rs : list Firestore.request),
     let w := Firestore.run rs Firestore.initial in
     ∀ id c, Firestore.credentials w !! id = Some c →
       username c = id ∧
       (∀ u1 u2 r1 r2,
          Firestore.users w !! u1 = Some r1 → Firestore.users w !! u2 = Some r2 →
          assigned_username r1 = Some (username c) →
          assigned_username r2 = Some (username c) → u1 = u2) ∧
       (status c = available →
        ∀ u r, Firestore.users w !! u = Some r →
          assigned_username r ≠ Some (username c))).
Proof.
  split_and!.
  - intros w u c Hin.
    pose proof (SqliteFacts.sq_assign_pinned u c w Hin) as Hp.
    split_and!.
    + simpl. apply SqliteFacts.sq_elem_of_sql_update. exists c.
      by rewrite decide_True.
    + apply Hp.
    + intros rs Hnf now d c' Hf.
      eapply SqliteFacts.sq_pinned_not_found; [|exact Hf].
      by apply SqliteFacts.sq_run_pinned.
  - intros rs w c Hin.
    pose proof (SqliteFacts.sq_run_consistent rs Sqlite.initial
                  SqliteFacts.sq_initial_consistent) as [Hu Hh Ho].
    fold w in Hu, Hh, Ho. split.
    + intros u1 u2 r1 r2 H1 H2 Ha1 Ha2. by apply (Ho u1 u2 r1 r2 (username c)).
    + intros Hav u r Hr Ha.
      destruct (Hh u r _ Hr Ha) as (c0 & Hc0 & Hn & Hs).
      assert (c0 = c) by by apply (SqliteFacts.sq_unique_row (Sqlite.credentials w)).
      subst c0. congruence.
  - intros w u c Hk Hu Hc.
    pose proof (FirestoreFacts.fs_assign_pinned u c w Hu Hc) as Hp.
    assert (Firestore.keyed (Firestore.assign_credential_to_user u c w).2) as Hk1.
    { destruct Hu as [r Hu].
      unfold Firestore.assign_credential_to_user, Firestore.users_update.
      run_state. rewrite Hu.
      rewrite FirestoreFacts.fs_update_credential_status.
      unfold Firestore.emit. run_state.
      destruct w as [us cs out]. by eapply FirestoreFacts.fs_keyed_alter. }
    split.
    + destruct Hp as (c1 & Hc1 & Hs1). rewrite Hc1. f_equal.
      destruct Hu as [r Hu]. revert Hc1.
      unfold Firestore.assign_credential_to_user, Firestore.users_update.
      run_state. rewrite Hu.
      rewrite FirestoreFacts.fs_update_credential_status. simpl.
      rewrite lookup_alter, decide_True, Hc by done. by intros [= <-].
    + intros rs Hnf now d c' Hf.
      destruct (FirestoreFacts.fs_run_pinned _ rs _ Hk1 Hp Hnf) as [Hk2 Hp2].
      by eapply FirestoreFacts.fs_pinned_not_found.
  - intros rs w id c Hc.
    pose proof (FirestoreFacts.fs_run_consistent rs Firestore.initial
                  FirestoreFacts.fs_initial_consistent) as [Hk Hh Ho].
    fold w in Hk, Hh, Ho. split_and!.
    + by apply Hk.
    + intros u1 u2 r1 r2 H1 H2 Ha1 Ha2. by apply (Ho u1 u2 r1 r2 (username c)).
    + intros Hav u r Hr Ha.
      destruct (Hh u r _ Hr Ha) as (c0 & Hc0 & Hs).
      rewrite (Hk id c Hc) in Hc0. congruence.
Qed.

(** * The claims at concrete stores *)

(** C2 at the store reached when user 1 is granted the credential A and
    the admin then frees it by hand: the cleanup task of the grant finds
    nothing to free. In bot.py the operator is told; in bot_v2.0.py the task
    ends in the log. *)
Lemma cleanup_without_credential_leaves_user_inactive_witness :
  let rss := [Sqlite.ChessLink 1;
              Sqlite.AddCredential 0 "A" "pa" 10;
              Sqlite.PermitBotUse true [Some 1; Some 5] 0 0;
              Sqlite.FreeCredential true [Some 1]] in
  let rsf := [Firestore.ChessLink 1;
              Firestore.AddCredential 0 "A" "pa" 10;
              Firestore.PermitBotUse true [Some 1; Some 5] 0 0;
              Firestore.FreeCredential true [Some 1]] in
  let ws := Sqlite.run rss Sqlite.initial in
  let wf := Firestore.run rsf Firestore.initial in
  (Sqlite.users (Sqlite.run_cleanup_task_after_delay 1 ws).2 =
     {[ 1 := User false None None None ]} ∧
   Sqlite.output (Sqlite.run_cleanup_task_after_delay 1 ws).2 =
     Sqlite.output ws ++
       [Log (LogExecutingCleanup 1);
        SendMessage AdminChat (CleanupSkippedCheckManually 1)]) ∧
  (Firestore.users (Firestore.run_cleanup_task_after_delay 1 wf).2 =
     {[ 1 := User false None None None ]} ∧
   Firestore.output (Firestore.run_cleanup_task_after_delay 1 wf).2 =
     Firestore.output wf ++
       [Log (LogExecutingCleanup 1); Log (LogRevoked 1);
        Log (LogErrorCleanup 1)]).
Proof.
  intros rss rsf ws wf.
  pose proof cleanup_without_credential_leaves_user_inactive as [Hs Hf]. split.
  - destruct (Hs rss 1) as (_ & H1 & _ & _ & H2).
    + intros c Hc.
      assert (Sqlite.credentials (Sqlite.run rss Sqlite.initial) =
              [Credential "A" "pa" available (Some (timedelta_days 10))]) as E
        by (vm_compute; reflexivity).
      rewrite E in Hc. apply list_elem_of_singleton in Hc. subst c.
      discriminate.
    + vm_compute. reflexivity.
    + split; [|exact H2].
      transitivity (Sqlite.users ws); [exact H1|vm_compute; reflexivity].
  - destruct (Hf wf 1) as (_ & H1 & _ & _ & H2); [vm_compute; reflexivity|].
    split; [|exact H2].
    transitivity (alter (set_access false None) 1 (Firestore.users wf));
      [exact H1|vm_compute; reflexivity].
Defined.

(** C3 at a pool with the single credential A: once A is assigned to user 1,
    a grant to user 2, a revocation and reclaims for user 2 do not free A,
    and no query returns A afterwards. *)
Lemma assigned_credential_is_exclusive_witness :
  let a := Credential "A" "pa" available (Some (timedelta_days 100)) in
  let ws := Sqlite.World {[ 1 := new_user; 2 := new_user ]} [a] [] in
  let rss :=
    [Sqlite.PermitBotUse true [Some 2; Some 1] 0 0;
     Sqlite.RestrictBotUse true [Some 1];
     Sqlite.FreeCredential true [Some 2];
     Sqlite.CleanupTimer 2] in
  let wf := Firestore.run
              [Firestore.ChessLink 1; Firestore.ChessLink 2;
               Firestore.AddCredential 0 "A" "pa" 100] Firestore.initial in
  let rsf :=
    [Firestore.PermitBotUse true [Some 2; Some 1] 0 0;
     Firestore.RestrictBotUse true [Some 1];
     Firestore.FreeCredential true [Some 2];
     Firestore.CleanupTimer 2] in
  (∀ now d c',
     (Sqlite.get_available_credential now d
        (Sqlite.run rss (Sqlite.assign_credential_to_user 1 a ws).2)).1
       = Some c' →
     username c' ≠ "A") ∧
  (∀ now d c',
     (Firestore.get_available_credential now d
        (Firestore.run rsf (Firestore.assign_credential_to_user 1 a wf).2)).1
       = Some c' →
     username c' ≠ "A").
Proof.
  intros a ws rss wf rsf.
  pose proof assigned_credential_is_exclusive as (Hs & _ & Hf & _). split.
  - destruct (Hs ws 1 a) as (_ & _ & H).
    + apply list_elem_of_singleton. reflexivity.
    + apply (H rss). vm_compute.
      repeat split; try (intros H'; exact H'); intros H'; discriminate H'.
  - destruct (Hf wf 1 a) as (_ & H).
    + apply (Firestore.keyed_by_username _
               (FirestoreFacts.fs_run_consistent _ _
                  FirestoreFacts.fs_initial_consistent)).
    + vm_compute. eexists. reflexivity.
    + vm_compute. reflexivity.
    + apply (H rsf). vm_compute.
      repeat split; try (intros H'; exact H'); intros H'; discriminate H'.
Defined.

(** C4 at the pool of the specification's scenario, A expiring in 10 days
    and B in 20: a grant of 5 days to user 1 assigns A and creates the
    cleanup task for 432000 seconds; a grant to the unknown user 9 and a
    grant of 30 days change nothing. *)
Lemma grant_access_steps_witness :
  let a := Credential "A" "pa" available (Some (timedelta_days 10)) in
  let b := Credential "B" "pb" available (Some (timedelta_days 20)) in
  let ws := Sqlite.World {[ 1 := new_user ]} [b; a] [] in
  let wf := Firestore.run
              [Firestore.ChessLink 1;
               Firestore.AddCredential 0 "B" "pb" 20;
               Firestore.AddCredential 0 "A" "pa" 10] Firestore.initial in
  (Sqlite.users (Sqlite.permit_bot_use true [Some 1; Some 5] 0 3 ws).2 !! 1 =
     Some (User true (Some (3 + timedelta_days 5)) (Some "A") (Some "pa")) ∧
   Sqlite.output (Sqlite.permit_bot_use true [Some 1; Some 5] 0 3 ws).2 =
     [Log (LogAssigned "A" 1); Log (LogGranted 1 5 (3 + timedelta_days 5));
      CreateTask 1 432000; ReplyText (AccessGranted 1 5 "A");
      SendMessage (UserChat 1) (Congratulations 5)]) ∧
  Sqlite.credentials (Sqlite.permit_bot_use true [Some 9; Some 5] 0 3 ws).2 =
    [b; a] ∧
  Sqlite.credentials (Sqlite.permit_bot_use true [Some 1; Some 30] 0 3 ws).2 =
    [b; a] ∧
  Firestore.credentials
    (Firestore.permit_bot_use true [Some 1; Some 5] 0 3 wf).2 !! "A" =
    Some (Credential "A" "pa" in_use (Some (timedelta_days 10))) ∧
  Firestore.users (Firestore.permit_bot_use true [Some 9; Some 5] 0 3 wf).2 =
    Firestore.users wf ∧
  Firestore.users (Firestore.permit_bot_use true [Some 1; Some 30] 0 3 wf).2 =
    Firestore.users wf.
Proof.
  intros a b ws wf.
  pose proof grant_access_steps as [Hs Hf]. split_and!.
  - destruct (Hs ws 1 5 0 3) as (_ & _ & H).
    destruct (H new_user a) as (_ & _ & _ & _ & Hu & _);
      [vm_compute; reflexivity..|].
    exact Hu.
  - destruct (Hs ws 1 5 0 3) as (_ & _ & H).
    destruct (H new_user a) as (_ & _ & Hout2 & Hout & _);
      [vm_compute; reflexivity..|].
    rewrite Hout, Hout2. reflexivity.
  - destruct (Hs ws 9 5 0 3) as (H & _).
    destruct H as (_ & H & _); [vm_compute; reflexivity|]. exact H.
  - destruct (Hs ws 1 30 0 3) as (_ & H & _).
    destruct H as (_ & H & _);
      [vm_compute; eexists; reflexivity|vm_compute; reflexivity|].
    exact H.
  - destruct (Hf wf 1 5 0 3) as (_ & _ & H).
    destruct (H new_user a) as (_ & _ & _ & _ & _ & Hc).
    + apply (Firestore.keyed_by_username _
               (FirestoreFacts.fs_run_consistent _ _
                  FirestoreFacts.fs_initial_consistent)).
    + vm_compute. reflexivity.
    + vm_compute. reflexivity.
    + exact Hc.
  - destruct (Hf wf 9 5 0 3) as (H & _).
    destruct H as (H & _); [vm_compute; reflexivity|]. exact H.
  - destruct (Hf wf 1 30 0 3) as (_ & H & _).
    destruct H as (H & _);
      [vm_compute; eexists; reflexivity|vm_compute; reflexivity|].
    exact H.
Defined.

(** C5 at a store where user 1 holds A and user 2 holds nothing. *)
Lemma free_releases_or_does_nothing_witness :
  let r := User true (Some 9) (Some "A") (Some "pa") in
  let a := Credential "A" "pa" in_use (Some 50) in
  let ws := Sqlite.World {[ 1 := r; 2 := new_user ]} [a] [] in
  let wf := Firestore.World {[ 1 := r; 2 := new_user ]} {[ "A" := a ]} [] in
  ((Sqlite.free_credential_from_user 1 ws).1 = Some "A" ∧
   Sqlite.users (Sqlite.free_credential_from_user 1 ws).2 !! 1 =
     Some (User true (Some 9) None None)) ∧
  Sqlite.free_credential_from_user 2 ws = (None, ws) ∧
  Sqlite.free_credential_from_user 3 ws = (None, ws) ∧
  ((Firestore.free_credential_from_user 1 wf).1 = Some "A" ∧
   Firestore.credentials (Firestore.free_credential_from_user 1 wf).2 !! "A" =
     Some (Credential "A" "pa" available (Some 50))) ∧
  Firestore.free_credential_from_user 2 wf = (None, wf) ∧
  Firestore.free_credential_from_user 3 wf = (None, wf).
Proof.
  intros r a ws wf.
  pose proof free_releases_or_does_nothing as [Hs Hf]. split_and!.
  - destruct (Hs ws 1) as [_ H].
    destruct (H r "A") as (H1 & _);
      [vm_compute; reflexivity|reflexivity|discriminate|].
    exact H1.
  - destruct (Hs ws 1) as [_ H].
    destruct (H r "A") as (_ & H2 & _);
      [vm_compute; reflexivity|reflexivity|discriminate|].
    exact H2.
  - destruct (Hs ws 2) as [H _]. destruct H as [H _]; [|exact H].
    intros r' Hr'. vm_compute in Hr'. injection Hr' as <-. reflexivity.
  - destruct (Hs ws 3) as [H _]. destruct H as [H _]; [|exact H].
    intros r' Hr'. vm_compute in Hr'. discriminate Hr'.
  - destruct (Hf wf 1) as [_ H].
    destruct (H r "A") as (H1 & _);
      [vm_compute; reflexivity|reflexivity|discriminate|].
    exact H1.
  - destruct (Hf wf 1) as [_ H].
    destruct (H r "A") as (_ & _ & _ & H2 & _);
      [vm_compute; reflexivity|reflexivity|discriminate|].
    rewrite H2. vm_compute. reflexivity.
  - destruct (Hf wf 2) as [H _]. destruct H as [H _]; [|exact H].
    intros r' Hr'. vm_compute in Hr'. injection Hr' as <-. reflexivity.
  - destruct (Hf wf 3) as [H _]. destruct H as [H _]; [|exact H].
    intros r' Hr'. vm_compute in Hr'. discriminate Hr'.
Defined.

(** C6 at the same store: the admin frees user 1, who held A, and user 2,
    who held nothing. *)
Lemma manual_free_revokes_access_witness :
  let r := User true (Some 9) (Some "A") (Some "pa") in
  let a := Credential "A" "pa" in_use (Some 50) in
  let ws := Sqlite.World {[ 1 := r; 2 := new_user ]} [a] [] in
  let wf := Firestore.World {[ 1 := r; 2 := new_user ]} {[ "A" := a ]} [] in
  Sqlite.users (Sqlite.free_credential true [Some 1] ws).2 !! 1 =
    Some (User false None None None) ∧
  Sqlite.users (Sqlite.free_credential true [Some 2] ws).2 = Sqlite.users ws ∧
  Firestore.users (Firestore.free_credential true [Some 1] wf).2 !! 1 =
    Some (User false None None None) ∧
  Firestore.users (Firestore.free_credential true [Some 2] wf).2 =
    Firestore.users wf.
Proof.
  intros r a ws wf.
  pose proof manual_free_revokes_access as [Hs Hf]. split_and!.
  - destruct (Hs ws 1 []) as [H _].
    apply (H r "A"); [vm_compute; reflexivity|reflexivity|discriminate].
  - destruct (Hs ws 2 []) as [_ H]. destruct H as [H _]; [|exact H].
    intros r' Hr'. vm_compute in Hr'. injection Hr' as <-. reflexivity.
  - destruct (Hf wf 1 []) as [H _].
    apply (H r "A"); [vm_compute; reflexivity|reflexivity|discriminate].
  - destruct (Hf wf 2 []) as [_ H]. destruct H as [H _]; [|exact H].
    intros r' Hr'. vm_compute in Hr'. injection Hr' as <-. reflexivity.
Defined.

(** C8 at a pool whose credential A is in use: editing A keeps it in use,
    editing the unknown Z changes nothing. *)
Lemma edit_keeps_status_witness :
  let a := Credential "A" "old" in_use (Some 50) in
  let ws := Sqlite.World ∅ [a] [] in
  let wf := Firestore.World ∅ {[ "A" := a ]} [] in
  Sqlite.credentials (Sqlite.edit_credential_in_pool 7 "A" "new" 2 ws).2
    !! 0%nat = Some (Credential "A" "new" in_use (Some (7 + timedelta_days 2))) ∧
  Sqlite.edit_credential_in_pool 7 "Z" "new" 2 ws = (false, ws) ∧
  Firestore.credentials (Firestore.edit_credential_in_pool 7 "A" "new" 2 wf).2
    !! "A" = Some (Credential "A" "new" in_use (Some (7 + timedelta_days 2))) ∧
  Firestore.edit_credential_in_pool 7 "Z" "new" 2 wf = (false, wf).
Proof.
  intros a ws wf.
  pose proof edit_keeps_status as [Hs Hf]. split_and!.
  - destruct (Hs ws 7 "A" "new" 2) as [_ H].
    destruct (H a) as (_ & _ & _ & Hc);
      [apply list_elem_of_singleton; reflexivity|reflexivity|].
    rewrite Hc. reflexivity.
  - destruct (Hs ws 7 "Z" "new" 2) as [H _]. apply H.
    intros c Hc. apply list_elem_of_singleton in Hc. subst c. discriminate.
  - destruct (Hf wf 7 "A" "new" 2) as [_ H].
    destruct (H a) as (_ & _ & _ & Hc & _); [vm_compute; reflexivity|].
    exact Hc.
  - destruct (Hf wf 7 "Z" "new" 2) as [H _]. apply H.
    vm_compute. reflexivity.
Defined.

(** C9 at a store whose user 1 holds A. *)
Lemma free_clears_stored_secret_witness :
  let r := User true (Some 9) (Some "A") (Some "pa") in
  let a := Credential "A" "pa" in_use (Some 50) in
  let ws := Sqlite.World {[ 1 := r ]} [a] [] in
  let wf := Firestore.World {[ 1 := r ]} {[ "A" := a ]} [] in
  (∃ r', Sqlite.users (Sqlite.run_cleanup_task_after_delay 1 ws).2 !! 1
           = Some r' ∧
         assigned_username r' = None ∧ assigned_password r' = None) ∧
  (∃ r', Firestore.users (Firestore.free_credential true [Some 1] wf).2 !! 1
           = Some r' ∧
         assigned_username r' = None ∧ assigned_password r' = None).
Proof.
  intros r a ws wf.
  pose proof free_clears_stored_secret as [Hs Hf]. split.
  - apply (Hs ws 1 "A" []); [vm_compute; reflexivity|].
    right. right. reflexivity.
  - apply (Hf wf 1 "A" []); [vm_compute; reflexivity|].
    right. left. reflexivity.
Defined.

(** C10 at a store whose user 1 is active and holds A, and where user 2 is
    unknown. *)
Lemma upsert_never_modifies_existing_user_witness :
  let r := User true (Some 9) (Some "A") (Some "pa") in
  let ws := Sqlite.World {[ 1 := r ]} [] [] in
  let wf := Firestore.World {[ 1 := r ]} ∅ [] in
  Sqlite.add_or_get_user 1 ws = (Some r, ws) ∧
  Sqlite.users (Sqlite.add_or_get_user 2 ws).2 !! 2 = Some new_user ∧
  Firestore.check_user_permission 1 wf = (true, wf) ∧
  Firestore.users (Firestore.add_or_get_user 2 wf).2 !! 2 = Some new_user.
Proof.
  intros r ws wf.
  pose proof upsert_never_modifies_existing_user as [Hs Hf]. split_and!.
  - destruct (Hs ws 1) as [H _].
    destruct (H r) as (H1 & _); [vm_compute; reflexivity|]. exact H1.
  - destruct (Hs ws 2) as [_ H].
    destruct H as (H1 & H2 & _); [vm_compute; reflexivity|].
    rewrite H2, H1. reflexivity.
  - destruct (Hf wf 1) as [H _].
    destruct (H r) as (_ & H1 & _); [vm_compute; reflexivity|]. exact H1.
  - destruct (Hf wf 2) as [_ H].
    destruct H as (H1 & H2 & _); [vm_compute; reflexivity|].
    rewrite H2, H1. reflexivity.
Defined.

(** * Further properties of the code *)

(** ** The pool *)

Lemma timedelta_days_mono d d' : d' ≤ d → timedelta_days d' ≤ timedelta_days d.
Proof. unfold timedelta_days. lia. Qed.

Lemma timedelta_days_pos d : 0 < d → 0 < timedelta_days d.
Proof. unfold timedelta_days. lia. Qed.

Lemma sorted_lookup_le {A} (R : relation A) `{!Transitive R} (l : list A)
    (i j : nat) x y :
  StronglySorted R l → (i < j)%nat → l !! i = Some x → l !! j = Some y → R x y.
Proof.
  intros Hs. revert i j. induction Hs as [|a l Hs IH Hall]; intros i j Hij Hi Hj.
  - by rewrite lookup_nil in Hi.
  - destruct j as [|j]; [lia|]. simpl in Hj. destruct i as [|i]; simpl in Hi.
    + injection Hi as <-. rewrite Forall_forall in Hall. apply Hall.
      by eapply list_elem_of_lookup_2.
    + apply (IH i j); [lia|done..].
Qed.

Module SqliteMore.
Import Sqlite SqliteFacts.

Lemma sq_fresh_name name (rows : list credential) :
  (∀ c, c ∈ rows → username c ≠ name) ↔ name ∉ username <$> rows.
Proof.
  split.
  - intros H Hin. apply list_elem_of_fmap in Hin as (c & -> & Hc).
    by apply (H c).
  - intros H c Hc Hn. apply H. rewrite <- Hn. by apply list_elem_of_fmap_2.
Qed.

Lemma sq_select_app_fresh name n' (rows : list credential) c :
  username c = name →
  select_by_username n' (rows ++ [c]) =
    if decide (n' = name)
    then match select_by_username n' rows with
         | Some x => Some x
         | None => Some c
         end
    else select_by_username n' rows.
Proof.
  intros Hn. unfold select_by_username. rewrite filter_app.
  rewrite filter_cons, filter_nil. subst name.
  destruct (decide (username c = n')) as [Heq|Hne].
  - rewrite decide_True by done.
    by destruct (filter (λ c0, username c0 = n') rows).
  - rewrite decide_False by done. by rewrite app_nil_r.
Qed.

Lemma sq_add_fresh now name pass days w :
  name ∉ username <$> credentials w →
  add_credential_to_pool now name pass days w =
    (true, World (users w)
             (credentials w ++
                [Credential name pass available (Some (now + timedelta_days days))])
             (output w)).
Proof.
  intros H. unfold add_credential_to_pool, update_credentials. run_state.
  by rewrite bool_decide_eq_false_2.
Qed.

Lemma sq_add_taken now name pass days w :
  name ∈ username <$> credentials w →
  add_credential_to_pool now name pass days w =
    (false, World (users w) (credentials w)
              (output w ++ [Log (LogDuplicateCredential name)])).
Proof.
  intros H. unfold add_credential_to_pool, emit. run_state.
  by rewrite bool_decide_eq_true_2.
Qed.

Lemma sq_find_Some_of_fit now d w c e :
  c ∈ credentials w → status c = available →
  credential_expiry_date c = Some e → now + timedelta_days d ≤ e →
  is_Some (get_available_credential now d w).1.
Proof.
  intros Hin Hs He Hle.
  destruct (get_available_credential now d w).1 as [x|] eqn:E; [by eexists|].
  by destruct (sq_find_complete now d w E c e).
Qed.

Lemma sq_list_elem now w c :
  c ∈ (get_all_available_credentials now w).1 ↔
  c ∈ credentials w ∧ status c = available ∧
  ∃ e, credential_expiry_date c = Some e ∧ now < e.
Proof.
  unfold get_all_available_credentials. run_state.
  rewrite merge_sort_Permutation, list_elem_of_filter. unfold unexpired.
  split.
  - intros [[Hs He] Hin].
    destruct (credential_expiry_date c) as [e|]; [|done]. eauto.
  - intros (Hin & Hs & e & He & Hlt). rewrite He. done.
Qed.

Lemma sq_list_sorted now w :
  StronglySorted by_expiry (get_all_available_credentials now w).1.
Proof. apply StronglySorted_merge_sort; apply _. Qed.

End SqliteMore.

Module FirestoreMore.
Import Firestore FirestoreFacts.

Lemma fs_find_Some_of_fit now d w id c e :
  credentials w !! id = Some c → status c = available →
  credential_expiry_date c = Some e → now + timedelta_days d ≤ e →
  is_Some (get_available_credential now d w).1.
Proof.
  intros Hin Hs He Hle.
  destruct (get_available_credential now d w).1 as [x|] eqn:E; [by eexists|].
  by destruct (fs_find_complete now d w E id c e).
Qed.

Lemma fs_list_elem now w c :
  c ∈ (get_all_available_credentials now w).1 ↔
  ∃ id, credentials w !! id = Some c ∧ status c = available ∧
    ∃ e, credential_expiry_date c = Some e ∧ now < e.
Proof.
  unfold get_all_available_credentials. run_state.
  rewrite list_elem_of_fmap. split.
  - intros ([id c'] & -> & Hin). simpl.
    apply fs_elem_of_query in Hin as [Hc [Hs He]].
    exists id. destruct (credential_expiry_date c') as [e|]; [|done]. eauto 10.
  - intros (id & Hc & Hs & e & He & Hlt). exists (id, c). split; [done|].
    apply fs_elem_of_query. split; [done|]. split; [done|]. by rewrite He.
Qed.

Lemma fs_by_expiry_then_id_by_expiry a b :
  by_expiry_then_id a b → by_expiry a.2 b.2.
Proof.
  unfold by_expiry_then_id, by_expiry. case_decide as Hd; [|done].
  intros _. rewrite Hd.
  destruct (total expiry_le (credential_expiry_date b.2)
              (credential_expiry_date b.2)); done.
Qed.

Lemma fs_list_sorted now w (i j : nat) ci cj :
  (i < j)%nat →
  (get_all_available_credentials now w).1 !! i = Some ci →
  (get_all_available_credentials now w).1 !! j = Some cj →
  by_expiry ci cj.
Proof.
  unfold get_all_available_credentials. run_state.
  rewrite !list_lookup_fmap. intros Hij Hi Hj.
  destruct (query (unexpired now) (credentials w) !! i) as [[ki ci']|] eqn:Ei;
    [|done].
  destruct (query (unexpired now) (credentials w) !! j) as [[kj cj']|] eqn:Ej;
    [|done].
  simpl in Hi, Hj. injection Hi as <-. injection Hj as <-.
  apply (fs_by_expiry_then_id_by_expiry (ki, ci') (kj, cj')).
  eapply (sorted_lookup_le by_expiry_then_id); [|exact Hij|exact Ei|exact Ej].
  unfold query. apply StronglySorted_merge_sort; apply _.
Qed.

End FirestoreMore.

(** X1. Add ([add_credential_to_pool]) of a username that is not in the
    pool, in both stores: it returns [True]; [get_credential] of that
    username then yields the credential with the given password, status
    [available] and expiry [now] plus the days; the lookup of any other
    username and every user are as before; and at the same clock reading the
    pool can serve a grant of that many days. *)
Theorem add_then_get_credential :
  (∀ (w : Sqlite.world) (now : Z) (name pass : string) (days : Z),
     (∀ c, c ∈ Sqlite.credentials w → username c ≠ name) →
     let res := Sqlite.add_credential_to_pool now name pass days w in
     res.1 = true ∧
     (Sqlite.get_credential name res.2).1 =
       Some {| username := name; password := pass; status := available;
               credential_expiry_date := Some (now + timedelta_days days) |} ∧
     (∀ other, other ≠ name →
        (Sqlite.get_credential other res.2).1 =
          (Sqlite.get_credential other w).1) ∧
     Sqlite.users res.2 = Sqlite.users w ∧
     is_Some (Sqlite.get_available_credential now days res.2).1) ∧
  (∀ (w : Firestore.world) (now : Z) (name pass : string) (days : Z),
     Firestore.credentials w !! name = None →
     let res := Firestore.add_credential_to_pool now name pass days w in
     res.1 = true ∧
     (Firestore.get_credential name res.2).1 =
       Some {| username := name; password := pass; status := available;
               credential_expiry_date := Some (now + timedelta_days days) |} ∧
     (∀ other, other ≠ name →
        (Firestore.get_credential other res.2).1 =
          (Firestore.get_credential other w).1) ∧
     Firestore.users res.2 = Firestore.users w ∧
     is_Some (Firestore.get_available_credential now days res.2).1).
Proof.
  split; intros w now name pass days Hfresh.
  - pose proof Hfresh as Hnone.
    apply SqliteFacts.sq_select_by_username_None in Hnone.
    apply SqliteMore.sq_fresh_name in Hfresh.
    rewrite (SqliteMore.sq_add_fresh now name pass days w Hfresh).
    cbn [fst snd]. split_and!; [done| | |done|].
    + unfold Sqlite.get_credential. run_state.
      rewrite (SqliteMore.sq_select_app_fresh name) by done.
      by rewrite decide_True, Hnone.
    + intros other Hne. unfold Sqlite.get_credential. run_state.
      rewrite (SqliteMore.sq_select_app_fresh name) by done.
      by rewrite decide_False.
    + apply (SqliteMore.sq_find_Some_of_fit now days _
               (Credential name pass available (Some (now + timedelta_days days)))
               (now + timedelta_days days)); [|done|done|lia].
      simpl. apply elem_of_app. right. by apply list_elem_of_singleton.
  - unfold Firestore.add_credential_to_pool, Firestore.get_credential,
      Firestore.credentials_set.
    run_state. rewrite Hfresh. cbn [fst snd]. split_and!; [done| | |done|].
    + simpl. by rewrite lookup_insert_eq.
    + intros other Hne. simpl. by rewrite lookup_insert_ne.
    + apply (FirestoreMore.fs_find_Some_of_fit now days _ name
               (Credential name pass available (Some (now + timedelta_days days)))
               (now + timedelta_days days)); [|done|done|lia].
      simpl. by rewrite lookup_insert_eq.
Qed.

(** X2. Add of a username that is in the pool, in both stores: it returns
    [False], logs the duplicate, and changes no credential and no user; in
    particular a credential in use is not made available again by adding it
    anew. *)
Theorem add_never_overwrites :
  (∀ (w : Sqlite.world) (now : Z) (name pass : string) (days : Z) c,
     c ∈ Sqlite.credentials w → username c = name →
     let res := Sqlite.add_credential_to_pool now name pass days w in
     res.1 = false ∧
     Sqlite.credentials res.2 = Sqlite.credentials w ∧
     Sqlite.users res.2 = Sqlite.users w ∧
     Sqlite.output res.2 =
       Sqlite.output w ++ [Log (LogDuplicateCredential name)]) ∧
  (∀ (w : Firestore.world) (now : Z) (name pass : string) (days : Z) c,
     Firestore.credentials w !! name = Some c →
     let res := Firestore.add_credential_to_pool now name pass days w in
     res.1 = false ∧
     Firestore.credentials res.2 = Firestore.credentials w ∧
     Firestore.users res.2 = Firestore.users w ∧
     Firestore.output res.2 =
       Firestore.output w ++ [Log (LogDuplicateCredential name)]).
Proof.
  split.
  - intros w now name pass days c Hin Hn.
    rewrite (SqliteMore.sq_add_taken now name pass days w); [done|].
    rewrite <- Hn. by apply list_elem_of_fmap_2.
  - intros w now name pass days c Hc.
    unfold Firestore.add_credential_to_pool, Firestore.get_credential,
      Firestore.emit.
    run_state. by rewrite Hc.
Qed.

(** X3. ListAvailable ([get_all_available_credentials]), in both stores: the
    list holds exactly the credentials of the pool that are available and
    expire after [now]; it is in ascending order of expiry; the call does
    not change the store. *)
Theorem list_available_is_sorted_filter :
  (∀ (w : Sqlite.world) (now : Z),
     let l := (Sqlite.get_all_available_credentials now w).1 in
     (Sqlite.get_all_available_credentials now w).2 = w ∧
     (∀ c, c ∈ l ↔
        c ∈ Sqlite.credentials w ∧ status c = available ∧
        ∃ e, credential_expiry_date c = Some e ∧ now < e) ∧
     ∀ (i j : nat) ci cj ei ej,
       (i < j)%nat → l !! i = Some ci → l !! j = Some cj →
       credential_expiry_date ci = Some ei →
       credential_expiry_date cj = Some ej → ei ≤ ej) ∧
  (∀ (w : Firestore.world) (now : Z),
     let l := (Firestore.get_all_available_credentials now w).1 in
     (Firestore.get_all_available_credentials now w).2 = w ∧
     (∀ c, c ∈ l ↔
        ∃ id, Firestore.credentials w !! id = Some c ∧ status c = available ∧
          ∃ e, credential_expiry_date c = Some e ∧ now < e) ∧
     ∀ (i j : nat) ci cj ei ej,
       (i < j)%nat → l !! i = Some ci → l !! j = Some cj →
       credential_expiry_date ci = Some ei →
       credential_expiry_date cj = Some ej → ei ≤ ej).
Proof.
  split; intros w now l; (split; [done|]); split.
  - apply SqliteMore.sq_list_elem.
  - intros i j ci cj ei ej Hij Hi Hj Hei Hej.
    assert (by_expiry ci cj) as Hb.
    { eapply (sorted_lookup_le by_expiry); [|exact Hij|exact Hi|exact Hj].
      apply SqliteMore.sq_list_sorted. }
    unfold by_expiry in Hb. by rewrite Hei, Hej in Hb.
  - apply FirestoreMore.fs_list_elem.
  - intros i j ci cj ei ej Hij Hi Hj Hei Hej.
    pose proof (FirestoreMore.fs_list_sorted now w i j ci cj Hij Hi Hj) as Hb.
    unfold by_expiry in Hb. by rewrite Hei, Hej in Hb.
Qed.

(** X4. In both stores, a credential that FindBestFit returns for a positive
    number of days is among those ListAvailable returns at the same clock
    reading. *)
Theorem best_fit_is_listed :
  (∀ (w : Sqlite.world) (now d : Z) c,
     0 < d → (Sqlite.get_available_credential now d w).1 = Some c →
     c ∈ (Sqlite.get_all_available_credentials now w).1) ∧
  (∀ (w : Firestore.world) (now d : Z) c,
     0 < d → (Firestore.get_available_credential now d w).1 = Some c →
     c ∈ (Firestore.get_all_available_credentials now w).1).
Proof.
  split; intros w now d c Hd Hf.
  - apply SqliteFacts.sq_find_sound in Hf as (Hin & Hs & e & He & Hle & _).
    apply SqliteMore.sq_list_elem. split_and!; [done..|]. exists e.
    split; [done|]. pose proof (timedelta_days_pos d Hd). lia.
  - apply FirestoreFacts.fs_find_sound in Hf as ([id Hin] & Hs & e & He & Hle & _).
    apply FirestoreMore.fs_list_elem. exists id. split_and!; [done..|].
    exists e. split; [done|]. pose proof (timedelta_days_pos d Hd). lia.
Qed.

(** X5. In both stores FindBestFit is monotone in the days asked for: when it
    finds a credential for [d] days it finds one for every shorter duration
    at the same clock reading, and that one expires no later. *)
Theorem best_fit_monotone_in_days :
  (∀ (w : Sqlite.world) (now d d' : Z) c e,
     d' ≤ d → (Sqlite.get_available_credential now d w).1 = Some c →
     credential_expiry_date c = Some e →
     ∃ c' e', (Sqlite.get_available_credential now d' w).1 = Some c' ∧
              credential_expiry_date c' = Some e' ∧ e' ≤ e) ∧
  (∀ (w : Firestore.world) (now d d' : Z) c e,
     d' ≤ d → (Firestore.get_available_credential now d w).1 = Some c →
     credential_expiry_date c = Some e →
     ∃ c' e', (Firestore.get_available_credential now d' w).1 = Some c' ∧
              credential_expiry_date c' = Some e' ∧ e' ≤ e).
Proof.
  split; intros w now d d' c e Hd Hf He.
  - apply SqliteFacts.sq_find_sound in Hf as (Hin & Hs & e0 & He0 & Hle & _).
    assert (e0 = e) by congruence. subst e0.
    pose proof (timedelta_days_mono d d' Hd) as Hm.
    destruct (SqliteMore.sq_find_Some_of_fit now d' w c e) as [c' Hc'];
      [done..|lia|].
    pose proof Hc' as Hc''.
    apply SqliteFacts.sq_find_sound in Hc'' as (_ & _ & e' & He' & _ & Hmin).
    exists c', e'. split_and!; [done..|]. apply (Hmin c e); [done..|lia].
  - apply FirestoreFacts.fs_find_sound in Hf
      as ([id Hin] & Hs & e0 & He0 & Hle & _).
    assert (e0 = e) by congruence. subst e0.
    pose proof (timedelta_days_mono d d' Hd) as Hm.
    destruct (FirestoreMore.fs_find_Some_of_fit now d' w id c e) as [c' Hc'];
      [done..|lia|].
    pose proof Hc' as Hc''.
    apply FirestoreFacts.fs_find_sound in Hc''
      as (_ & _ & e' & He' & _ & Hmin).
    exists c', e'. split_and!; [done..|]. apply (Hmin id c e); [done..|lia].
Qed.

(** X6. In every store reached from the empty one by serving requests, in
    both files, every user record has a plan expiry exactly when its access
    is active, carries a credential whenever its access is active, and has an
    assigned username exactly when it has an assigned password. *)
Theorem reachable_user_records_are_leases :
  (∀ (rs : list Sqlite.request) u r,
     Sqlite.users (Sqlite.run rs Sqlite.initial) !! u = Some r →
     (is_bot_use r = true ↔ is_Some (plan_expiry_date r)) ∧
     (is_bot_use r = true → is_Some (assigned_username r)) ∧
     (is_Some (assigned_username r) ↔ is_Some (assigned_password r))) ∧
  (∀ (rs : list Firestore.request) u r,
     Firestore.users (Firestore.run rs Firestore.initial) !! u = Some r →
     (is_bot_use r = true ↔ is_Some (plan_expiry_date r)) ∧
     (is_bot_use r = true → is_Some (assigned_username r)) ∧
     (is_Some (assigned_username r) ↔ is_Some (assigned_password r))).
Proof.
  split; intros rs u r Hr.
  - eapply (SqliteLeases.sq_run_records rs Sqlite.initial); [|exact Hr].
    intros u' x Hx. simpl in Hx. by rewrite lookup_empty in Hx.
  - eapply (FirestoreLeases.fs_run_records rs Firestore.initial); [|exact Hr].
    intros u' x Hx. simpl in Hx. by rewrite lookup_empty in Hx.
Qed.

(** X7. A successful grant ([permit_bot_use]) in a store reached from the
    empty one, in both files: only the record of the target user and the
    status of the found credential change. A credential the user carried
    before is therefore not returned to the pool: it stays in use, and no
    user carries it any more. *)
Theorem grant_leaves_previous_credential_in_use :
  (∀ (rs : list Sqlite.request) (u d nf ng : Z) c,
     let w := Sqlite.run rs Sqlite.initial in
     let w' := (Sqlite.permit_bot_use true [Some u; Some d] nf ng w).2 in
     is_Some (Sqlite.users w !! u) →
     (Sqlite.get_available_credential nf d w).1 = Some c →
     (∀ v, v ≠ u → Sqlite.users w' !! v = Sqlite.users w !! v) ∧
     (∀ x, username x ≠ username c →
        x ∈ Sqlite.credentials w' ↔ x ∈ Sqlite.credentials w) ∧
     ∀ r old, Sqlite.users w !! u = Some r → assigned_username r = Some old →
       (∃ x, x ∈ Sqlite.credentials w' ∧ username x = old ∧ status x = in_use) ∧
       ∀ v r', Sqlite.users w' !! v = Some r' →
         assigned_username r' ≠ Some old) ∧
  (∀ (rs : list Firestore.request) (u d nf ng : Z) c,
     let w := Firestore.run rs Firestore.initial in
     let w' := (Firestore.permit_bot_use true [Some u; Some d] nf ng w).2 in
     is_Some (Firestore.users w !! u) →
     (Firestore.get_available_credential nf d w).1 = Some c →
     (∀ v, v ≠ u → Firestore.users w' !! v = Firestore.users w !! v) ∧
     (∀ id, id ≠ username c →
        Firestore.credentials w' !! id = Firestore.credentials w !! id) ∧
     ∀ r old, Firestore.users w !! u = Some r → assigned_username r = Some old →
       (∃ x, Firestore.credentials w' !! old = Some x ∧ status x = in_use) ∧
       ∀ v r', Firestore.users w' !! v = Some r' →
         assigned_username r' ≠ Some old).
Proof.
  split.
  - intros rs u d nf ng c w w' Hu Hf.
    pose proof (SqliteFacts.sq_run_consistent rs Sqlite.initial
                  SqliteFacts.sq_initial_consistent) as [Hnd Hh Ho].
    fold w in Hnd, Hh, Ho.
    destruct (SqliteFacts.sq_find_sound nf d w c Hf) as (Hin & Hav & _).
    unfold w'. rewrite (SqliteFacts.sq_permit_granted u d nf ng w c) by done.
    simpl. split_and!.
    + intros v Hv. by rewrite !lookup_alter_ne.
    + intros x Hx. by apply SqliteFacts.sq_sql_update_other.
    + intros r old Hr Ha.
      destruct (Hh u r old Hr Ha) as (x & Hx & Hn & Hs).
      assert (old ≠ username c) as Hne.
      { intros ->. assert (x = c)
          by by apply (SqliteFacts.sq_unique_row (Sqlite.credentials w)).
        subst x. congruence. }
      split.
      * exists x. split_and!; [|done..].
        apply SqliteFacts.sq_sql_update_other; [congruence|done|done].
      * intros v r'. rewrite alter_alter_eq, lookup_alter.
        case_decide as Hd.
        -- subst v. rewrite Hr. simpl. intros [= <-]. simpl. congruence.
        -- intros Hr' Ha'. apply Hd. by apply (Ho u v r r' old).
  - intros rs u d nf ng c w w' Hu Hf.
    pose proof (FirestoreFacts.fs_run_consistent rs Firestore.initial
                  FirestoreFacts.fs_initial_consistent) as [Hk Hh Ho].
    fold w in Hk, Hh, Ho.
    pose proof (FirestoreFacts.fs_find_keyed nf d w c Hk Hf) as Hc.
    destruct (FirestoreFacts.fs_find_sound nf d w c Hf) as (_ & Hav & _).
    unfold w'. rewrite (FirestoreFacts.fs_permit_granted u d nf ng w c) by done.
    simpl. split_and!.
    + intros v Hv. by rewrite !lookup_alter_ne.
    + intros id Hid. by rewrite lookup_alter_ne.
    + intros r old Hr Ha.
      destruct (Hh u r old Hr Ha) as (x & Hx & Hs).
      assert (old ≠ username c) as Hne.
      { intros ->. congruence. }
      split.
      * exists x. split; [|done]. by rewrite lookup_alter_ne.
      * intros v r'. rewrite alter_alter_eq, lookup_alter.
        case_decide as Hd.
        -- subst v. rewrite Hr. simpl. intros [= <-]. simpl. congruence.
        -- intros Hr' Ha'. apply Hd. by apply (Ho u v r r' old).
Qed.

(** X8. Grant followed by the cleanup task, in a store reached from the
    empty one, in both files: when the grant finds a credential (of a
    non-empty username), the task that it schedules, fired next, leaves the
    credential pool exactly as it was before the grant, the user inactive
    with no plan expiry and no credential on record, and every other user
    as before. *)
Theorem grant_then_cleanup_restores_pool :
  (∀ (rs : list Sqlite.request) (u d nf ng : Z) c,
     let w := Sqlite.run rs Sqlite.initial in
     let w1 := (Sqlite.permit_bot_use true [Some u; Some d] nf ng w).2 in
     let w2 := (Sqlite.run_cleanup_task_after_delay u w1).2 in
     is_Some (Sqlite.users w !! u) →
     (Sqlite.get_available_credential nf d w).1 = Some c →
     username c ≠ "" →
     Sqlite.credentials w2 = Sqlite.credentials w ∧
     Sqlite.users w2 !! u = Some (User false None None None) ∧
     ∀ v, v ≠ u → Sqlite.users w2 !! v = Sqlite.users w !! v) ∧
  (∀ (rs : list Firestore.request) (u d nf ng : Z) c,
     let w := Firestore.run rs Firestore.initial in
     let w1 := (Firestore.permit_bot_use true [Some u; Some d] nf ng w).2 in
     let w2 := (Firestore.run_cleanup_task_after_delay u w1).2 in
     is_Some (Firestore.users w !! u) →
     (Firestore.get_available_credential nf d w).1 = Some c →
     username c ≠ "" →
     Firestore.credentials w2 = Firestore.credentials w ∧
     Firestore.users w2 !! u = Some (User false None None None) ∧
     ∀ v, v ≠ u → Firestore.users w2 !! v = Firestore.users w !! v).
Proof.
  split.
  - intros rs u d nf ng c w w1 w2 Hu Hf Hne.
    pose proof (SqliteFacts.sq_run_consistent rs Sqlite.initial
                  SqliteFacts.sq_initial_consistent) as [Hnd _ _].
    fold w in Hnd.
    destruct (SqliteFacts.sq_find_sound nf d w c Hf) as (Hin & Hav & _).
    destruct Hu as [r Hr].
    assert (Sqlite.users w1 !! u =
            Some (User true (Some (ng + timedelta_days d))
                    (Some (username c)) (Some (password c)))) as Hu1.
    { unfold w1. rewrite (SqliteFacts.sq_permit_granted u d nf ng w c) by done.
      simpl. by rewrite alter_alter_eq, lookup_alter, decide_True, Hr. }
    unfold w2.
    rewrite (SqliteFacts.sq_cleanup_freed u w1 _ (username c) Hu1) by done.
    simpl. unfold w1.
    rewrite (SqliteFacts.sq_permit_granted u d nf ng w c) by done. simpl.
    split_and!.
    + by apply SqliteLeases.sq_status_round_trip.
    + by rewrite alter_insert_eq, lookup_insert_eq.
    + intros v Hv. rewrite alter_insert_eq, lookup_insert_ne by done.
      by rewrite !lookup_alter_ne.
  - intros rs u d nf ng c w w1 w2 Hu Hf Hne.
    pose proof (FirestoreFacts.fs_run_consistent rs Firestore.initial
                  FirestoreFacts.fs_initial_consistent) as [Hk _ _].
    fold w in Hk.
    pose proof (FirestoreFacts.fs_find_keyed nf d w c Hk Hf) as Hc.
    destruct (FirestoreFacts.fs_find_sound nf d w c Hf) as (_ & Hav & _).
    destruct Hu as [r Hr].
    assert (Firestore.users w1 !! u =
            Some (User true (Some (ng + timedelta_days d))
                    (Some (username c)) (Some (password c)))) as Hu1.
    { unfold w1. rewrite (FirestoreFacts.fs_permit_granted u d nf ng w c) by done.
      simpl. by rewrite alter_alter_eq, lookup_alter, decide_True, Hr. }
    unfold w2.
    rewrite (FirestoreFacts.fs_cleanup_freed u w1 _ (username c) Hu1) by done.
    simpl. unfold w1.
    rewrite (FirestoreFacts.fs_permit_granted u d nf ng w c) by done. simpl.
    split_and!.
    + by apply FirestoreLeases.fs_status_round_trip.
    + by rewrite alter_insert_eq, lookup_insert_eq.
    + intros v Hv. rewrite alter_insert_eq, lookup_insert_ne by done.
      by rewrite !lookup_alter_ne.
Qed.

(** X9. A successful grant, in both files: the credential handed out has an
    expiry date, and the plan expiry written into the user's record exceeds
    it by no more than the time between the clock reading of the query and
    that of the grant; when the two readings agree, the plan ends no later
    than the credential. *)
Theorem lease_ends_before_credential :
  (∀ (w : Sqlite.world) (u d nf ng : Z) c,
     is_Some (Sqlite.users w !! u) →
     (Sqlite.get_available_credential nf d w).1 = Some c →
     ∃ r e p,
       Sqlite.users (Sqlite.permit_bot_use true [Some u; Some d] nf ng w).2 !! u
         = Some r ∧
       assigned_username r = Some (username c) ∧
       credential_expiry_date c = Some e ∧ plan_expiry_date r = Some p ∧
       p - e ≤ ng - nf) ∧
  (∀ (w : Firestore.world) (u d nf ng : Z) c,
     is_Some (Firestore.users w !! u) →
     (Firestore.get_available_credential nf d w).1 = Some c →
     ∃ r e p,
       Firestore.users
         (Firestore.permit_bot_use true [Some u; Some d] nf ng w).2 !! u
         = Some r ∧
       assigned_username r = Some (username c) ∧
       credential_expiry_date c = Some e ∧ plan_expiry_date r = Some p ∧
       p - e ≤ ng - nf).
Proof.
  split; intros w u d nf ng c Hu Hf.
  - destruct (SqliteFacts.sq_find_sound nf d w c Hf) as (_ & _ & e & He & Hle & _).
    rewrite (SqliteFacts.sq_permit_granted u d nf ng w c) by done.
    destruct Hu as [r Hr]. simpl.
    rewrite alter_alter_eq, lookup_alter, decide_True, Hr by done. simpl.
    eexists _, e, _. split_and!; [done..|]. lia.
  - destruct (FirestoreFacts.fs_find_sound nf d w c Hf)
      as (_ & _ & e & He & Hle & _).
    rewrite (FirestoreFacts.fs_permit_granted u d nf ng w c) by done.
    destruct Hu as [r Hr]. simpl.
    rewrite alter_alter_eq, lookup_alter, decide_True, Hr by done. simpl.
    eexists _, e, _. split_and!; [done..|]. lia.
Qed.

(** X10. For a user who carries a credential (of a non-empty username), in
    both files: the admin's [/freecredential] after [/restrictbotuse] leaves
    the same user records and the same credentials as [/freecredential]
    alone. *)
Theorem free_after_restrict_is_free :
  (∀ (w : Sqlite.world) (u : Z) r name,
     Sqlite.users w !! u = Some r → assigned_username r = Some name →
     name ≠ "" →
     let w1 := (Sqlite.restrict_bot_use true [Some u] w).2 in
     Sqlite.users (Sqlite.free_credential true [Some u] w1).2 =
       Sqlite.users (Sqlite.free_credential true [Some u] w).2 ∧
     Sqlite.credentials (Sqlite.free_credential true [Some u] w1).2 =
       Sqlite.credentials (Sqlite.free_credential true [Some u] w).2) ∧
  (∀ (w : Firestore.world) (u : Z) r name,
     Firestore.users w !! u = Some r → assigned_username r = Some name →
     name ≠ "" →
     let w1 := (Firestore.restrict_bot_use true [Some u] w).2 in
     Firestore.users (Firestore.free_credential true [Some u] w1).2 =
       Firestore.users (Firestore.free_credential true [Some u] w).2 ∧
     Firestore.credentials (Firestore.free_credential true [Some u] w1).2 =
       Firestore.credentials (Firestore.free_credential true [Some u] w).2).
Proof.
  split.
  - intros w u r name Hr Ha Hne w1.
    assert (Sqlite.users w1 = alter (set_access false None) u (Sqlite.users w) ∧
            Sqlite.credentials w1 = Sqlite.credentials w) as [Hu1 Hc1].
    { unfold w1, Sqlite.restrict_bot_use, Sqlite.get_user. run_state.
      by rewrite Hr. }
    assert (Sqlite.users w1 !! u = Some (set_access false None r)) as Hr1.
    { by rewrite Hu1, lookup_alter, decide_True, Hr. }
    rewrite (SqliteFacts.sq_free_credential_freed u [] w1 _ name Hr1) by done.
    rewrite (SqliteFacts.sq_free_credential_freed u [] w r name Hr) by done.
    simpl. rewrite Hu1, Hc1. split; [|done].
    by rewrite !alter_insert_eq, insert_alter_eq.
  - intros w u r name Hr Ha Hne w1.
    assert (Firestore.users w1 =
              alter (set_access false None) u (Firestore.users w) ∧
            Firestore.credentials w1 = Firestore.credentials w) as [Hu1 Hc1].
    { unfold w1, Firestore.restrict_bot_use, Firestore.get_user. run_state.
      rewrite Hr. rewrite FirestoreFacts.fs_revoke_user_access.
      unfold Firestore.emit. run_state. done. }
    assert (Firestore.users w1 !! u = Some (set_access false None r)) as Hr1.
    { by rewrite Hu1, lookup_alter, decide_True, Hr. }
    rewrite (FirestoreFacts.fs_free_credential_freed u [] w1 _ name Hr1) by done.
    rewrite (FirestoreFacts.fs_free_credential_freed u [] w r name Hr) by done.
    simpl. rewrite Hu1, Hc1. split; [|done].
    by rewrite !alter_insert_eq, insert_alter_eq.
Qed.

(** X11. The cleanup task fired twice for the same user leaves the same user
    records and the same credentials as the task fired once, in both
    files. *)
Theorem cleanup_twice_is_cleanup_once :
  (∀ (w : Sqlite.world) (u : Z),
     let w1 := (Sqlite.run_cleanup_task_after_delay u w).2 in
     let w2 := (Sqlite.run_cleanup_task_after_delay u w1).2 in
     Sqlite.users w2 = Sqlite.users w1 ∧
     Sqlite.credentials w2 = Sqlite.credentials w1) ∧
  (∀ (w : Firestore.world) (u : Z),
     let w1 := (Firestore.run_cleanup_task_after_delay u w).2 in
     let w2 := (Firestore.run_cleanup_task_after_delay u w1).2 in
     Firestore.users w2 = Firestore.users w1 ∧
     Firestore.credentials w2 = Firestore.credentials w1).
Proof.
  split; intros w u w1 w2.
  - assert (held_username (Sqlite.users w1 !! u) = None) as Hh1.
    { unfold w1. destruct (held_username (Sqlite.users w !! u)) as [n|] eqn:Hh.
      - apply held_username_Some in Hh as (r & Hr & Ha & Hne).
        rewrite (SqliteFacts.sq_cleanup_freed u w r n Hr Ha Hne). simpl.
        by rewrite alter_insert_eq, lookup_insert_eq.
      - by rewrite (SqliteFacts.sq_cleanup_nothing u w Hh). }
    unfold w2. by rewrite (SqliteFacts.sq_cleanup_nothing u w1 Hh1).
  - assert (held_username (Firestore.users w1 !! u) = None ∧
            alter (set_access false None) u (Firestore.users w1) =
              Firestore.users w1) as [Hh1 Hid].
    { unfold w1.
      destruct (held_username (Firestore.users w !! u)) as [n|] eqn:Hh.
      - apply held_username_Some in Hh as (r & Hr & Ha & Hne).
        rewrite (FirestoreFacts.fs_cleanup_freed u w r n Hr Ha Hne). simpl.
        rewrite !alter_insert_eq, lookup_insert_eq. done.
      - rewrite (FirestoreFacts.fs_cleanup_nothing u w Hh). simpl.
        split.
        + rewrite lookup_alter, decide_True by done.
          destruct (Firestore.users w !! u) as [r|] eqn:Hr; [|done].
          simpl in *. exact Hh.
        + by rewrite alter_alter_eq. }
    unfold w2. rewrite (FirestoreFacts.fs_cleanup_nothing u w1 Hh1). simpl.
    by rewrite Hid.
Qed.

(** X12. For a user without a record, Assign, grant and revoke never create
    one. In bot.py Assign all the same marks the credential in use, which
    then no user carries; in bot_v2.0.py the failed update of the user stops
    Assign, and neither the credential nor any user changes. *)
Theorem unknown_user_is_never_created :
  (∀ (w : Sqlite.world) (u now d : Z) c,
     Sqlite.users w !! u = None →
     Sqlite.users (Sqlite.assign_credential_to_user u c w).2 = Sqlite.users w ∧
     Sqlite.users (Sqlite.grant_user_access now u d w).2 = Sqlite.users w ∧
     Sqlite.users (Sqlite.revoke_user_access u w).2 = Sqlite.users w ∧
     (c ∈ Sqlite.credentials w →
      {| username := username c; password := password c; status := in_use;
         credential_expiry_date := credential_expiry_date c |}
        ∈ Sqlite.credentials (Sqlite.assign_credential_to_user u c w).2)) ∧
  (∀ (w : Firestore.world) (u now d : Z) c,
     Firestore.users w !! u = None →
     Firestore.users (Firestore.assign_credential_to_user u c w).2 =
       Firestore.users w ∧
     Firestore.credentials (Firestore.assign_credential_to_user u c w).2 =
       Firestore.credentials w ∧
     Firestore.output (Firestore.assign_credential_to_user u c w).2 =
       Firestore.output w ++ [Log (LogErrorAssign u)] ∧
     Firestore.users (Firestore.grant_user_access now u d w).2 =
       Firestore.users w ∧
     Firestore.users (Firestore.revoke_user_access u w).2 = Firestore.users w).
Proof.
  split; intros w u now d c Hu.
  - simpl. rewrite !FirestoreFacts.fs_alter_missing by done.
    split_and!; [done..|]. intros Hin.
    apply SqliteFacts.sq_elem_of_sql_update. exists c. by rewrite decide_True.
  - rewrite (FirestoreFacts.fs_assign_unknown_user u c w Hu).
    rewrite FirestoreFacts.fs_revoke_user_access.
    unfold Firestore.grant_user_access, Firestore.users_update, Firestore.emit.
    run_state. rewrite Hu. simpl.
    by rewrite FirestoreFacts.fs_alter_missing.
Qed.

(** ** The plans offered by [/start] *)

Module SqliteStart.
Import Sqlite SqliteFacts.

Lemma sq_offered_filter clock ds w :
  (offered clock ds w).1 =
    filter (λ d, is_Some (get_available_credential (clock d) d w).1) ds.
Proof.
  induction ds as [|d ds IH]; [done|].
  simpl. run_state. rewrite filter_cons.
  pose proof (sq_offered_read_only clock ds w) as Hro.
  destruct (offered clock ds w) as [more w'] eqn:E. simpl in *. subst w'.
  rewrite <- IH.
  by destruct (head _).
Qed.

Lemma sq_start_output user_id clock w :
  ∃ l, output (start user_id clock w).2 =
         output w ++ l ++
           [ReplyText (Welcome (default_plans ++
              filter (λ d, is_Some (get_available_credential (clock d) d w).1)
                dynamic_durations))].
Proof.
  unfold start. generalize dynamic_durations default_plans. intros ds dp.
  unfold emit at 1. run_state.
  set (w0 := World (users w) (credentials w)
               (output w ++ [Log (LogStartedBot user_id)])).
  destruct (add_or_get_user user_id w0) as [r w1] eqn:E1.
  assert (credentials w1 = credentials w ∧
          ∃ l1, output w1 = output w0 ++ l1) as [Hc [l1 Ho]].
  { revert E1. unfold add_or_get_user, get_user, update_users, emit.
    run_state. destruct (users w !! user_id); intros [= <- <-]; simpl.
    - split; [done|]. exists []. by rewrite app_nil_r.
    - split; [done|]. by eexists. }
  pose proof (sq_offered_read_only clock ds w1) as Hro.
  pose proof (sq_offered_filter clock ds w1) as Hf.
  destruct (offered clock ds w1) as [kb w2] eqn:E2.
  simpl in Hro, Hf. subst w2 kb. unfold emit. run_state.
  exists (Log (LogStartedBot user_id) :: l1). rewrite Ho. unfold w0. simpl.
  rewrite <- !app_assoc. simpl.
  unfold get_available_credential. run_state. by rewrite Hc.
Qed.

End SqliteStart.

Module FirestoreStart.
Import Firestore FirestoreFacts.

Lemma fs_offer_elem now kb c d :
  d ∈ offer now kb c ↔
  d ∈ kb ∨ ∃ e, credential_expiry_date c = Some e ∧ 0 < e - now ∧
               d = delta_days (e - now) ∧ 1 ≤ d.
Proof.
  unfold offer. destruct (credential_expiry_date c) as [e|].
  - case_decide as Hpos.
    + case_decide as Hd.
      * rewrite elem_of_app, list_elem_of_singleton. split.
        -- intros [?| ->]; [by left|]. right. exists e. by destruct Hd.
        -- intros [?|(e' & [= <-] & _ & -> & _)]; [by left|by right].
      * split; [by left|]. intros [?|(e' & [= <-] & _ & -> & Hge)]; [done|].
        destruct (decide (delta_days (e - now) ∈ kb)); [done|].
        exfalso. by apply Hd.
    + split; [by left|]. intros [?|(e' & [= <-] & Hp & _)]; [done|lia].
  - split; [by left|]. by intros [?|(e' & ? & _)].
Qed.

Lemma fs_offer_NoDup now kb c : NoDup kb → NoDup (offer now kb c).
Proof.
  intros Hnd. unfold offer. destruct (credential_expiry_date c) as [e|]; [|done].
  case_decide; [|done]. case_decide as Hd; [|done].
  apply NoDup_app. split; [done|]. split; [|apply NoDup_singleton].
  intros x Hx Hx'. apply list_elem_of_singleton in Hx'. subst x.
  by destruct Hd.
Qed.

Lemma fs_offers_elem now (l : list credential) kb d :
  d ∈ foldl (offer now) kb l ↔
  d ∈ kb ∨ ∃ c e, c ∈ l ∧ credential_expiry_date c = Some e ∧ 0 < e - now ∧
                 d = delta_days (e - now) ∧ 1 ≤ d.
Proof.
  revert kb. induction l as [|c l IH]; intros kb; simpl.
  - split; [by left|]. intros [?|(c & e & Hc & _)]; [done|].
    by apply not_elem_of_nil in Hc.
  - rewrite IH, fs_offer_elem. split.
    + intros [[?|(e & He & Hp & Hd & Hge)]|(c' & e & Hc' & H)].
      * by left.
      * right. exists c, e. split; [left|done].
      * right. exists c', e. split; [by right|done].
    + intros [?|(c' & e & Hc' & H)]; [by left; left|].
      apply elem_of_cons in Hc' as [->|Hc'].
      * left. right. by exists e.
      * right. by exists c', e.
Qed.

Lemma fs_offers_NoDup now (l : list credential) kb :
  NoDup kb → NoDup (foldl (offer now) kb l).
Proof.
  revert kb. induction l as [|c l IH]; intros kb Hnd; [done|].
  simpl. apply IH. by apply fs_offer_NoDup.
Qed.

Lemma fs_start_output user_id now_query now w :
  ∃ l, output (start user_id now_query now w).2 =
         output w ++ l ++
           [ReplyText (Welcome (merge_sort Z.le
              (foldl (offer now) []
                 (get_all_available_credentials now_query w).1)))].
Proof.
  unfold start. unfold emit at 1. run_state.
  set (w0 := World (users w) (credentials w)
               (output w ++ [Log (LogStartedBot user_id)])).
  destruct (add_or_get_user user_id w0) as [r w1] eqn:E1.
  assert (credentials w1 = credentials w ∧
          ∃ l1, output w1 = output w0 ++ l1) as [Hc [l1 Ho]].
  { revert E1. unfold add_or_get_user, get_user, users_set, emit.
    run_state. destruct (users w !! user_id); intros [= <- <-]; simpl.
    - split; [done|]. exists []. by rewrite app_nil_r.
    - split; [done|]. by eexists. }
  unfold get_all_available_credentials, emit. run_state.
  exists (Log (LogStartedBot user_id) :: l1). rewrite Ho, Hc. unfold w0. simpl.
  by rewrite <- !app_assoc.
Qed.

End FirestoreStart.

Lemma sorted_nodup_lookup_lt (l : list Z) (i j : nat) a b :
  StronglySorted Z.le l → NoDup l → (i < j)%nat →
  l !! i = Some a → l !! j = Some b → a < b.
Proof.
  intros Hs Hnd Hij Hi Hj.
  pose proof (sorted_lookup_le Z.le l i j a b Hs Hij Hi Hj) as Hle.
  assert (a ≠ b); [|lia]. intros ->.
  pose proof (NoDup_lookup l i j b Hnd Hi Hj). lia.
Qed.

Lemma delta_days_floor t : 0 ≤ t → timedelta_days (delta_days t) ≤ t.
Proof.
  intros Ht. unfold timedelta_days, delta_days.
  pose proof (Z.mul_div_le t 86400000000). lia.
Qed.

(** X13. [/start] of bot.py answers with a keyboard that always offers the
    plans of 14 and 7 days, whatever the pool holds, and besides them
    exactly those of the durations 2, 3, 4, 5, 8, ..., 13 for which
    FindBestFit finds a credential in the pool at the clock reading of its
    query. *)
Theorem start_offers_default_plans_always :
  ∀ (w : Sqlite.world) (u : Z) (clock : Z → Z),
    ∃ keyboard,
      last (Sqlite.output (Sqlite.start u clock w).2) =
        Some (ReplyText (Welcome keyboard)) ∧
      ∀ d, d ∈ keyboard ↔
        d = 14 ∨ d = 7 ∨
        (d ∈ Sqlite.dynamic_durations ∧
         is_Some (Sqlite.get_available_credential (clock d) d w).1).
Proof.
  intros w u clock.
  destruct (SqliteStart.sq_start_output u clock w) as [l Hl].
  eexists. split.
  - rewrite Hl. rewrite !app_assoc. apply last_snoc.
  - intros d. rewrite elem_of_app, list_elem_of_filter.
    unfold Sqlite.default_plans.
    rewrite !elem_of_cons, elem_of_nil. tauto.
Qed.

(** X14. [/start] of bot_v2.0.py answers with a keyboard of durations in
    strictly ascending order, each at least one day and each one that
    FindBestFit can serve from the pool at the clock reading [now] of the
    handler; and the number of whole days left to any credential that the
    list of available credentials returns, when at least one, is among
    them. *)
Theorem start_offers_what_is_in_stock :
  ∀ (w : Firestore.world) (u nq now : Z),
    ∃ keyboard,
      last (Firestore.output (Firestore.start u nq now w).2) =
        Some (ReplyText (Welcome keyboard)) ∧
      (∀ (i j : nat) di dj, (i < j)%nat → keyboard !! i = Some di →
         keyboard !! j = Some dj → di < dj) ∧
      (∀ d, d ∈ keyboard →
         1 ≤ d ∧ is_Some (Firestore.get_available_credential now d w).1) ∧
      (∀ c e, c ∈ (Firestore.get_all_available_credentials nq w).1 →
         credential_expiry_date c = Some e → 1 ≤ delta_days (e - now) →
         delta_days (e - now) ∈ keyboard).
Proof.
  intros w u nq now.
  destruct (FirestoreStart.fs_start_output u nq now w) as [l Hl].
  eexists. split_and!.
  - rewrite Hl. rewrite !app_assoc. apply last_snoc.
  - intros i j di dj Hij Hi Hj.
    eapply (sorted_nodup_lookup_lt _ i j); [| |done..].
    + apply StronglySorted_merge_sort; apply _.
    + rewrite merge_sort_Permutation.
      apply FirestoreStart.fs_offers_NoDup, NoDup_nil_2.
  - intros d Hd. rewrite merge_sort_Permutation in Hd.
    apply FirestoreStart.fs_offers_elem in Hd
      as [Hd|(c & e & Hc & He & Hpos & -> & Hge)];
      [by apply elem_of_nil in Hd|].
    split; [done|].
    apply FirestoreMore.fs_list_elem in Hc as (id & Hid & Hs & e' & He' & _).
    assert (e' = e) by congruence. subst e'.
    apply (FirestoreMore.fs_find_Some_of_fit now _ w id c e); [done..|].
    pose proof (delta_days_floor (e - now)). lia.
  - intros c e Hc He Hge. rewrite merge_sort_Permutation.
    apply FirestoreStart.fs_offers_elem. right. exists c, e.
    split_and!; [done..| |done|done].
    unfold delta_days in Hge.
    destruct (decide (0 < e - now)); [done|].
    assert ((e - now) `div` 86400000000 ≤ 0); [|lia].
    apply Z.div_le_upper_bound; lia.
Qed.

(** ** Helpers of the handlers *)

Lemma backslash_not_special : backslash ∉ escape_chars.
Proof.
  assert (bool_decide (backslash ∉ escape_chars) = true) as H
    by (vm_compute; reflexivity).
  by apply bool_decide_eq_true in H.
Qed.

Lemma escape_markdown_head text c rest :
  escape_markdown text = String c rest → c ∉ escape_chars.
Proof.
  destruct text as [|a t]; [done|]. simpl. case_decide as Hd.
  - intros [= <- _]. apply backslash_not_special.
  - by intros [= <- _].
Qed.

Lemma escape_markdown_inj a b : escape_markdown a = escape_markdown b → a = b.
Proof.
  revert b. induction a as [|x a IH]; intros [|y b]; simpl.
  - done.
  - case_decide; discriminate.
  - case_decide; discriminate.
  - destruct (decide (x ∈ escape_chars)) as [Hx|Hx];
      destruct (decide (y ∈ escape_chars)) as [Hy|Hy].
    + intros [= -> Heq]. f_equal. by apply IH.
    + intros [= <- Heq]. symmetry in Heq.
      by apply escape_markdown_head in Heq.
    + intros [= -> Heq]. by apply escape_markdown_head in Heq.
    + intros [= -> Heq]. f_equal. by apply IH.
Qed.

Lemma escape_markdown_clean text :
  (∀ c, c ∈ String.list_ascii_of_string text → c ∉ escape_chars) →
  escape_markdown text = text.
Proof.
  induction text as [|a t IH]; intros Hall; [done|]. simpl.
  rewrite decide_False.
  - f_equal. apply IH. intros c Hc. apply Hall. simpl. by right.
  - apply Hall. simpl. left.
Qed.

Lemma escape_markdown_escaped text (i : nat) c :
  String.list_ascii_of_string (escape_markdown text) !! i = Some c →
  c ∈ escape_chars →
  ∃ k : nat, i = S k ∧
    String.list_ascii_of_string (escape_markdown text) !! k = Some backslash.
Proof.
  revert i. induction text as [|a t IH]; intros i; simpl.
  - by rewrite lookup_nil.
  - case_decide as Hd; simpl.
    + destruct i as [|[|i]]; simpl.
      * intros [= <-] Hc. by destruct backslash_not_special.
      * intros _ _. by exists 0%nat.
      * intros Hi Hc. destruct (IH i Hi Hc) as (k & -> & Hk).
        by exists (S (S k)).
    + destruct i as [|i]; simpl.
      * intros [= <-] Hc. done.
      * intros Hi Hc. destruct (IH i Hi Hc) as (k & -> & Hk).
        by exists (S k).
Qed.

(** X15. [escape_markdown] returns a text without any of the characters
    [_*[]()~`>#+-=|{}.!] as it is, and in every text it returns, each of
    these characters directly follows a backslash. *)
Theorem escape_markdown_escapes_every_special :
  ∀ text,
    ((∀ c, c ∈ String.list_ascii_of_string text → c ∉ escape_chars) →
     escape_markdown text = text) ∧
    ∀ (i : nat) c,
      String.list_ascii_of_string (escape_markdown text) !! i = Some c →
      c ∈ escape_chars →
      ∃ k : nat, i = S k ∧
        String.list_ascii_of_string (escape_markdown text) !! k
          = Some backslash.
Proof.
  intros text. split.
  - apply escape_markdown_clean.
  - apply escape_markdown_escaped.
Qed.

(** X16. [escape_markdown] is injective: two texts with the same escaped
    form are the same text. *)
Theorem escape_markdown_injective :
  ∀ a b, escape_markdown a = escape_markdown b → a = b.
Proof. apply escape_markdown_inj. Qed.

(** X17. [is_admin] holds of at most one user id, and of none when
    [ADMIN_USERID] is not set. *)
Theorem at_most_one_admin :
  ∀ (ADMIN_USERID : option string) (u v : Z),
    (is_admin ADMIN_USERID u = true → is_admin ADMIN_USERID v = true → u = v) ∧
    is_admin None u = false.
Proof.
  intros adm u v. split; [|done]. unfold is_admin.
  intros Hu Hv. apply bool_decide_eq_true in Hu, Hv.
  rewrite <- Hv in Hu. injection Hu as Hu. by apply (inj pretty).
Qed.

(** ** Listings *)

Lemma lifetime_bracket t :
  let days := delta_days t in
  let hours := timedelta_seconds t `div` 3600 in
  0 ≤ hours < 24 ∧
  (days * 24 + hours) * 3600000000 ≤ t < (days * 24 + hours + 1) * 3600000000 ∧
  (days < 0 ↔ t < 0).
Proof.
  unfold delta_days, timedelta_seconds. simpl.
  rewrite Z.div_div by lia. change (1000000 * 3600) with 3600000000.
  pose proof (Z.div_mod t 86400000000 ltac:(lia)) as Hdm.
  pose proof (Z.mod_pos_bound t 86400000000 ltac:(lia)) as Hm.
  set (m := t `mod` 86400000000) in *. set (d := t `div` 86400000000) in *.
  pose proof (Z.div_mod m 3600000000 ltac:(lia)) as Hdm'.
  pose proof (Z.mod_pos_bound m 3600000000 ltac:(lia)) as Hm'.
  set (h := m `div` 3600000000) in *. lia.
Qed.

Lemma mapM_elem {A B} (f : A → option B) (l : list A) (k : list B) y :
  mapM f l = Some k → y ∈ k → ∃ x, x ∈ l ∧ f x = Some y.
Proof.
  intros Hm Hy. apply mapM_Some in Hm.
  apply list_elem_of_lookup in Hy as [i Hi].
  destruct (Forall2_lookup_r _ _ _ i y Hm Hi) as (x & Hx & Hf).
  exists x. split; [|done]. by eapply list_elem_of_lookup_2.
Qed.

(** X18. [see_available_credentials] called by the admin, in both files.
    It leaves the store as it is. When [get_all_available_credentials]
    returns nothing it says that the pool has none available. Otherwise it
    never raises and shows the credentials line by line, one line for each
    credential of that list and in the order of the list: the line of a
    credential has its escaped username, and days and hours such that the
    hours are between 0 and 23 and days and hours together are the time left
    to the credential at the clock reading of the rendering, rounded down to
    the hour; the days are negative exactly when the credential has expired
    by then. Called by anyone else it answers nothing and changes
    nothing. *)
Theorem available_listing_lines :
  (∀ (w : Sqlite.world) (nq now : Z),
     Sqlite.see_available_credentials false nq now w = (Silent, w) ∧
     (Sqlite.see_available_credentials true nq now w).2 = w ∧
     let creds := (Sqlite.get_all_available_credentials nq w).1 in
     (creds = [] →
      (Sqlite.see_available_credentials true nq now w).1 = NothingToList) ∧
     (creds ≠ [] →
      ∃ lines,
        (Sqlite.see_available_credentials true nq now w).1 = Lines lines ∧
        Forall2
          (λ c '(name, days, hours),
             ∃ e, credential_expiry_date c = Some e ∧
               name = escape_markdown (username c) ∧
               0 ≤ hours < 24 ∧
               (days * 24 + hours) * 3600000000 ≤ e - now
                 < (days * 24 + hours + 1) * 3600000000 ∧
               (days < 0 ↔ e < now))
          creds lines)) ∧
  (∀ (w : Firestore.world) (nq now : Z),
     Firestore.see_available_credentials false nq now w = (Silent, w) ∧
     (Firestore.see_available_credentials true nq now w).2 = w ∧
     let creds := (Firestore.get_all_available_credentials nq w).1 in
     (creds = [] →
      (Firestore.see_available_credentials true nq now w).1 = NothingToList) ∧
     (creds ≠ [] →
      ∃ lines,
        (Firestore.see_available_credentials true nq now w).1 = Lines lines ∧
        Forall2
          (λ c '(name, days, hours),
             ∃ e, credential_expiry_date c = Some e ∧
               name = escape_markdown (username c) ∧
               0 ≤ hours < 24 ∧
               (days * 24 + hours) * 3600000000 ≤ e - now
                 < (days * 24 + hours + 1) * 3600000000 ∧
               (days < 0 ↔ e < now))
          creds lines)).
Proof.
  split; intros w nq now; (split; [done|]).
  - split.
    { unfold Sqlite.see_available_credentials. run_state.
      by destruct (merge_sort _ _). }
    intros creds. unfold Sqlite.see_available_credentials. run_state.
    change (merge_sort _ _) with creds.
    assert (∀ c, c ∈ creds → is_Some (credential_expiry_date c)) as Hex.
    { intros c Hc. apply SqliteMore.sq_list_elem in Hc as (_ & _ & e & -> & _).
      by eexists. }
    clearbody creds. split; [by intros ->|]. intros Hne.
    destruct creds as [|c0 creds'] eqn:Ecreds; [done|].
    rewrite <- Ecreds in *. clear Ecreds Hne. simpl.
    destruct (mapM _ creds) as [lines|] eqn:Hm; simpl.
    + exists lines. split; [done|]. apply mapM_Some in Hm.
      eapply Forall2_impl; [exact Hm|]. intros c [[name days] hours] Hf.
      simpl in Hf.
      destruct (credential_expiry_date c) as [e|] eqn:He; [|done].
      injection Hf as <- <- <-. exists e.
      pose proof (lifetime_bracket (e - now)) as (H1 & H2 & H3).
      do 4 (split; [done|]). rewrite H3. lia.
    + apply mapM_None_1, Exists_exists in Hm as (c & Hc & Hf).
      destruct (Hex c Hc) as [e He]. by rewrite He in Hf.
  - split.
    { unfold Firestore.see_available_credentials. run_state.
      by destruct ((Firestore.query _ _).*2). }
    intros creds. unfold Firestore.see_available_credentials. run_state.
    change ((Firestore.query _ _).*2) with creds.
    assert (∀ c, c ∈ creds → is_Some (credential_expiry_date c)) as Hex.
    { intros c Hc.
      apply FirestoreMore.fs_list_elem in Hc as (id & _ & _ & e & -> & _).
      by eexists. }
    clearbody creds. split; [by intros ->|]. intros Hne.
    destruct creds as [|c0 creds'] eqn:Ecreds; [done|].
    rewrite <- Ecreds in *. clear Ecreds Hne. simpl.
    destruct (mapM _ creds) as [lines|] eqn:Hm; simpl.
    + exists lines. split; [done|]. apply mapM_Some in Hm.
      eapply Forall2_impl; [exact Hm|]. intros c [[name days] hours] Hf.
      simpl in Hf.
      destruct (credential_expiry_date c) as [e|] eqn:He; [|done].
      injection Hf as <- <- <-. exists e.
      pose proof (lifetime_bracket (e - now)) as (H1 & H2 & H3).
      do 4 (split; [done|]). rewrite H3. lia.
    + apply mapM_None_1, Exists_exists in Hm as (c & Hc & Hf).
      destruct (Hex c Hc) as [e He]. by rewrite He in Hf.
Qed.

(** ** The list of credentials in use *)

Module SqliteUsed.
Import Sqlite.

Lemma sq_used_elem w row :
  row ∈ (get_all_used_credentials w).1 ↔
  ∃ c u r, c ∈ credentials w ∧ status c = in_use ∧
    users w !! u = Some r ∧ assigned_username r = Some (username c) ∧
    row = UsedRow (username c) (credential_expiry_date c) u.
Proof.
  unfold get_all_used_credentials. run_state.
  rewrite list_elem_of_bind. split.
  - intros (c & Hrow & Hc).
    apply list_elem_of_bind in Hrow as ([u r] & Hrow & Hur).
    apply elem_of_map_to_list in Hur. simpl in Hrow.
    case_decide as Hd; [|by apply elem_of_nil in Hrow].
    apply list_elem_of_singleton in Hrow. destruct Hd as [Hs Ha].
    by exists c, u, r.
  - intros (c & u & r & Hc & Hs & Hu & Ha & ->).
    exists c. split; [|done]. apply list_elem_of_bind.
    exists (u, r). split; [|by apply elem_of_map_to_list].
    simpl. rewrite decide_True by done. by apply list_elem_of_singleton.
Qed.

End SqliteUsed.

Module FirestoreUsed.
Import Firestore.

Lemma fs_all_users_elem w s r :
  (s, r) ∈ all_users w ↔ ∃ u, s = pretty u ∧ users w !! u = Some r.
Proof.
  unfold all_users. rewrite merge_sort_Permutation, list_elem_of_fmap. split.
  - intros ([u r'] & [= -> ->] & Hin). exists u.
    by apply elem_of_map_to_list in Hin.
  - intros (u & -> & Hu). exists (u, r). split; [done|].
    by apply elem_of_map_to_list.
Qed.

Lemma fs_used_elem w c s :
  (c, s) ∈ (get_all_used_credentials w).1 ↔
  ∃ id i r, credentials w !! id = Some c ∧ status c = in_use ∧
    list_find (λ ud : string * user, assigned_username ud.2 = Some (username c))
      (all_users w) = Some (i, (s, r)).
Proof.
  unfold get_all_used_credentials. run_state.
  rewrite list_elem_of_omap. split.
  - intros ([id c'] & Hin & Hf).
    rewrite merge_sort_Permutation in Hin.
    apply list_elem_of_filter in Hin as [Hs Hin].
    apply elem_of_map_to_list in Hin. simpl in *.
    destruct (list_find _ _) as [[i [s' r]]|] eqn:Hfind; [|done].
    injection Hf as -> ->. by exists id, i, r.
  - intros (id & i & r & Hc & Hs & Hfind). exists (id, c). split.
    + rewrite merge_sort_Permutation. apply list_elem_of_filter.
      split; [done|]. by apply elem_of_map_to_list.
    + simpl. by rewrite Hfind.
Qed.

Lemma fs_used_sound w c s :
  (c, s) ∈ (get_all_used_credentials w).1 →
  ∃ id u r, credentials w !! id = Some c ∧ status c = in_use ∧
    s = pretty u ∧ users w !! u = Some r ∧
    assigned_username r = Some (username c).
Proof.
  intros (id & i & r & Hc & Hs & Hfind)%fs_used_elem.
  apply list_find_Some in Hfind as (Hi & Ha & _).
  apply list_elem_of_lookup_2, fs_all_users_elem in Hi as (u & -> & Hu).
  by exists id, u, r.
Qed.

Lemma fs_used_complete w id c u r :
  credentials w !! id = Some c → status c = in_use →
  users w !! u = Some r → assigned_username r = Some (username c) →
  ∃ u' r', (c, pretty u') ∈ (get_all_used_credentials w).1 ∧
    users w !! u' = Some r' ∧ assigned_username r' = Some (username c).
Proof.
  intros Hc Hs Hu Ha.
  destruct (list_find_elem_of
              (λ ud : string * user,
                 assigned_username ud.2 = Some (username c))
              (all_users w) (pretty u, r)) as [[i [s r']] Hfind].
  { apply fs_all_users_elem. by exists u. }
  { done. }
  pose proof Hfind as (Hi & Ha' & _)%list_find_Some.
  apply list_elem_of_lookup_2, fs_all_users_elem in Hi as (u' & -> & Hu').
  exists u', r'. split; [|done]. apply fs_used_elem. by exists id, i, r'.
Qed.

End FirestoreUsed.

(** X19. The list of credentials in use ([get_all_used_credentials]) in a
    store reached from the empty one, in both files, is exactly the set of
    leases on record: a credential is listed with a user exactly when that
    user's record carries its username. *)
Theorem used_list_is_the_leases :
  (∀ (rs : list Sqlite.request) name e u,
     let w := Sqlite.run rs Sqlite.initial in
     Sqlite.UsedRow name e u ∈ (Sqlite.get_all_used_credentials w).1 ↔
     ∃ r c, Sqlite.users w !! u = Some r ∧ assigned_username r = Some name ∧
       c ∈ Sqlite.credentials w ∧ username c = name ∧
       credential_expiry_date c = e) ∧
  (∀ (rs : list Firestore.request) c s,
     let w := Firestore.run rs Firestore.initial in
     (c, s) ∈ (Firestore.get_all_used_credentials w).1 ↔
     ∃ u r, s = pretty u ∧ Firestore.users w !! u = Some r ∧
       assigned_username r = Some (username c) ∧
       Firestore.credentials w !! username c = Some c).
Proof.
  split.
  - intros rs name e u w.
    pose proof (SqliteFacts.sq_run_consistent rs Sqlite.initial
                  SqliteFacts.sq_initial_consistent) as [Hnd Hh Ho].
    fold w in Hnd, Hh, Ho.
    rewrite SqliteUsed.sq_used_elem. split.
    + intros (c & u' & r & Hc & Hs & Hu & Ha & [= -> -> ->]).
      by exists r, c.
    + intros (r & c & Hu & Ha & Hc & <- & <-).
      destruct (Hh u r _ Hu Ha) as (x & Hx & Hn & Hs).
      assert (x = c)
        by by apply (SqliteFacts.sq_unique_row (Sqlite.credentials w)).
      subst x. by exists c, u, r.
  - intros rs c s w.
    pose proof (FirestoreFacts.fs_run_consistent rs Firestore.initial
                  FirestoreFacts.fs_initial_consistent) as [Hk Hh Ho].
    fold w in Hk, Hh, Ho. split.
    + intros (id & u & r & Hc & Hs & -> & Hu & Ha)%FirestoreUsed.fs_used_sound.
      exists u, r. split_and!; [done..|].
      by rewrite (Hk id c Hc).
    + intros (u & r & -> & Hu & Ha & Hc).
      destruct (Hh u r _ Hu Ha) as (x & Hx & Hs).
      assert (x = c) by congruence. subst x.
      destruct (FirestoreUsed.fs_used_complete w _ c u r Hc Hs Hu Ha)
        as (u' & r' & Hin & Hu' & Ha').
      by rewrite (Ho u u' r r' _ Hu Hu' Ha Ha').
Qed.

(** ** A credential in use that no user carries *)

Lemma carried_alter_access (us : gmap Z user) name u a e :
  (∀ v r, us !! v = Some r → assigned_username r ≠ Some name) →
  ∀ v r, alter (set_access a e) u us !! v = Some r →
    assigned_username r ≠ Some name.
Proof.
  intros H v r. rewrite lookup_alter. case_decide; [subst v|by apply H].
  destruct (us !! u) as [r0|] eqn:Hu; [|done]. intros [= <-]. simpl. by eapply H.
Qed.

Lemma carried_alter_assigned (us : gmap Z user) name u n p :
  n ≠ Some name →
  (∀ v r, us !! v = Some r → assigned_username r ≠ Some name) →
  ∀ v r, alter (set_assigned n p) u us !! v = Some r →
    assigned_username r ≠ Some name.
Proof.
  intros Hn H v r. rewrite lookup_alter. case_decide; [subst v|by apply H].
  destruct (us !! u) as [r0|] eqn:Hu; [|done]. by intros [= <-].
Qed.

Lemma carried_insert (us : gmap Z user) name u r0 :
  assigned_username r0 ≠ Some name →
  (∀ v r, us !! v = Some r → assigned_username r ≠ Some name) →
  ∀ v r, <[u := r0]> us !! v = Some r → assigned_username r ≠ Some name.
Proof.
  intros Hn H v r. rewrite lookup_insert. case_decide; [|by apply H].
  by intros [= <-].
Qed.

Lemma carried_upsert (us : gmap Z user) name u :
  (∀ v r, us !! v = Some r → assigned_username r ≠ Some name) →
  ∀ v r,
    match us !! u with Some _ => us | None => <[u := new_user]> us end !! v
      = Some r →
    assigned_username r ≠ Some name.
Proof.
  intros H. destruct (us !! u); [done|]. by apply carried_insert.
Qed.

Module SqliteLost.
Import Sqlite SqliteFacts.

Lemma sq_unheld_never_freed name r w : unheld name w → ¬ frees name r w.
Proof.
  intros Hun Hf.
  assert (∀ u, (free_credential_from_user u w).1 ≠ Some name) as Hno.
  { intros u Hfree.
    destruct (held_username (users w !! u)) as [n|] eqn:Hh.
    - apply held_username_Some in Hh as (r0 & Hr & Ha & Hne).
      rewrite (sq_free_holding _ _ _ _ Hr Ha Hne) in Hfree.
      injection Hfree as ->. by eapply Hun.
    - by rewrite sq_free_nothing in Hfree. }
  destruct r as [| | | | |? ?|[] [|[u|] ?]|u]; simpl in Hf; try done;
    by eapply Hno.
Qed.

Lemma sq_serve_unheld name r w :
  pinned name w → unheld name w → unheld name (serve r w).2.
Proof.
  intros Hp Hun. destruct r as [uid clock|uid|now n pass days|now n p days
                               |a args nf ng|a args|a args|uid]; simpl.
  - run_state. destruct (start uid clock w) as [st w'] eqn:E. simpl.
    pose proof (sq_start_db uid clock w) as [_ Hus]. rewrite E in Hus.
    unfold unheld. simpl in Hus. rewrite Hus. by apply carried_upsert.
  - unfold check_user_permission. run_state.
    destruct (add_or_get_user uid w) as [st w'] eqn:E. simpl.
    pose proof (sq_add_or_get_user_db uid w) as [_ Hus]. rewrite E in Hus.
    unfold unheld. simpl in Hus. rewrite Hus. by apply carried_upsert.
  - destruct w as [us cs out].
    unfold add_credential_to_pool, update_credentials, emit. run_state.
    by case_bool_decide.
  - destruct w as [us cs out].
    unfold edit_credential_in_pool, update_credentials. run_state.
    by destruct (select_by_username n cs).
  - destruct a; [|done].
    destruct args as [|[u|] [|[d|] [|? ?]]]; try (by destruct w).
    destruct (users w !! u) as [r|] eqn:Hu.
    + destruct (get_available_credential nf d w).1 as [c|] eqn:E.
      * rewrite (sq_permit_granted u d nf ng w c) by done.
        pose proof (sq_pinned_not_found name w nf d c Hp E) as Hne.
        unfold unheld. simpl.
        apply carried_alter_access, carried_alter_assigned; [congruence|done].
      * rewrite sq_permit_out_of_stock by done. by destruct w.
    + rewrite sq_permit_no_user by done. by destruct w.
  - destruct w as [us cs out].
    unfold restrict_bot_use. destruct a; simpl; [|done].
    destruct args as [|[u|] ?]; simpl; try done.
    unfold get_user. run_state. destruct (us !! u); [|done].
    simpl. unfold unheld. simpl. by apply carried_alter_access.
  - destruct a; [|done].
    destruct args as [|[u|] ?]; try (by destruct w).
    destruct (held_username (users w !! u)) as [n|] eqn:Hh.
    + apply held_username_Some in Hh as (r & Hr & Ha & Hne).
      rewrite (sq_free_credential_freed _ _ _ _ _ Hr Ha Hne).
      unfold unheld. simpl. by apply carried_alter_access, carried_insert.
    + rewrite sq_free_credential_nothing by done. by destruct w.
  - destruct (held_username (users w !! uid)) as [n|] eqn:Hh.
    + apply held_username_Some in Hh as (r & Hr & Ha & Hne).
      rewrite (sq_cleanup_freed _ _ _ _ Hr Ha Hne).
      unfold unheld. simpl. by apply carried_alter_access, carried_insert.
    + rewrite sq_cleanup_nothing by done. by destruct w.
Qed.

Lemma sq_run_lost name rs w :
  pinned name w → unheld name w →
  pinned name (run rs w) ∧ unheld name (run rs w).
Proof.
  revert w. induction rs as [|r rs IH]; intros w Hp Hun; [done|].
  simpl. apply IH.
  - apply sq_serve_pinned; [done|]. by apply sq_unheld_never_freed.
  - by apply sq_serve_unheld.
Qed.

End SqliteLost.

Module FirestoreLost.
Import Firestore FirestoreFacts.

Lemma fs_unheld_never_freed name r w : unheld name w → ¬ frees name r w.
Proof.
  intros Hun Hf.
  assert (∀ u, (free_credential_from_user u w).1 ≠ Some name) as Hno.
  { intros u Hfree.
    destruct (held_username (users w !! u)) as [n|] eqn:Hh.
    - apply held_username_Some in Hh as (r0 & Hr & Ha & Hne).
      rewrite (fs_free_holding _ _ _ _ Hr Ha Hne) in Hfree.
      injection Hfree as ->. by eapply Hun.
    - by rewrite fs_free_nothing in Hfree. }
  destruct r as [| | | | |? ?|[] [|[u|] ?]|u]; simpl in Hf; try done;
    by eapply Hno.
Qed.

Lemma fs_serve_unheld name r w :
  keyed w → pinned name w → unheld name w → unheld name (serve r w).2.
Proof.
  intros Hk Hp Hun. destruct r as [uid nq now|uid|now n pass days|now n p days
                                  |a args nf ng|a args|a args|uid]; simpl.
  - run_state. destruct (start uid nq now w) as [st w'] eqn:E. simpl.
    pose proof (fs_start_db uid nq now w) as [_ Hus]. rewrite E in Hus.
    unfold unheld. simpl in Hus. rewrite Hus. by apply carried_upsert.
  - unfold check_user_permission. run_state.
    destruct (add_or_get_user uid w) as [st w'] eqn:E. simpl.
    pose proof (fs_add_or_get_user_db uid w) as [_ Hus]. rewrite E in Hus.
    unfold unheld. simpl in Hus. rewrite Hus. by apply carried_upsert.
  - destruct w as [us cs out].
    unfold add_credential_to_pool, get_credential, credentials_set, emit.
    run_state. by destruct (cs !! n).
  - destruct w as [us cs out].
    unfold edit_credential_in_pool, get_credential, credentials_update.
    run_state. destruct (cs !! n) as [c|] eqn:Hn; simpl; [|done].
    by rewrite Hn.
  - destruct a; [|done].
    destruct args as [|[u|] [|[d|] [|? ?]]]; try (by destruct w).
    destruct (users w !! u) as [r|] eqn:Hu.
    + destruct (get_available_credential nf d w).1 as [c|] eqn:E.
      * rewrite (fs_permit_granted u d nf ng w c) by done.
        pose proof (fs_pinned_not_found name w nf d c Hk Hp E) as Hne.
        unfold unheld. simpl.
        apply carried_alter_access, carried_alter_assigned; [congruence|done].
      * rewrite fs_permit_out_of_stock by done. by destruct w.
    + rewrite fs_permit_no_user by done. by destruct w.
  - unfold restrict_bot_use. destruct a; simpl; [|done].
    destruct args as [|[u|] ?]; simpl; try (by destruct w).
    unfold get_user. run_state.
    destruct (users w !! u) as [r|] eqn:Hu; [|by destruct w].
    rewrite fs_revoke_user_access. unfold emit. run_state.
    unfold unheld. simpl. by apply carried_alter_access.
  - destruct a; [|done].
    destruct args as [|[u|] ?]; try (by destruct w).
    destruct (held_username (users w !! u)) as [n|] eqn:Hh.
    + apply held_username_Some in Hh as (r & Hr & Ha & Hne).
      rewrite (fs_free_credential_freed _ _ _ _ _ Hr Ha Hne).
      unfold unheld. simpl. by apply carried_alter_access, carried_insert.
    + rewrite fs_free_credential_nothing by done. by destruct w.
  - destruct (held_username (users w !! uid)) as [n|] eqn:Hh.
    + apply held_username_Some in Hh as (r & Hr & Ha & Hne).
      rewrite (fs_cleanup_freed _ _ _ _ Hr Ha Hne).
      unfold unheld. simpl. by apply carried_alter_access, carried_insert.
    + rewrite fs_cleanup_nothing by done.
      unfold unheld. simpl. by apply carried_alter_access.
Qed.

Lemma fs_run_lost name rs w :
  keyed w → pinned name w → unheld name w →
  keyed (run rs w) ∧ pinned name (run rs w) ∧ unheld name (run rs w).
Proof.
  revert w. induction rs as [|r rs IH]; intros w Hk Hp Hun; [done|].
  simpl. apply IH.
  - by apply fs_serve_keyed.
  - apply fs_serve_pinned; [done|]. by apply fs_unheld_never_freed.
  - by apply fs_serve_unheld.
Qed.

End FirestoreLost.

(** X20. A credential that is in use while no user record carries it is
    lost to the bot, in both files: whatever requests follow, it stays in
    use and uncarried, so it is on neither the list of available nor the
    list of used credentials, and no search for a plan finds it. *)
Theorem uncarried_credential_in_use_is_lost :
  (∀ (w : Sqlite.world) (rs : list Sqlite.request) (name : string),
     Sqlite.pinned name w → Sqlite.unheld name w →
     let w' := Sqlite.run rs w in
     Sqlite.pinned name w' ∧ Sqlite.unheld name w' ∧
     (∀ now c, c ∈ (Sqlite.get_all_available_credentials now w').1 →
        username c ≠ name) ∧
     (∀ row, row ∈ (Sqlite.get_all_used_credentials w').1 →
        Sqlite.used_username row ≠ name) ∧
     (∀ now d c, (Sqlite.get_available_credential now d w').1 = Some c →
        username c ≠ name)) ∧
  (∀ (w : Firestore.world) (rs : list Firestore.request) (name : string),
     Firestore.keyed w → Firestore.pinned name w → Firestore.unheld name w →
     let w' := Firestore.run rs w in
     Firestore.pinned name w' ∧ Firestore.unheld name w' ∧
     (∀ now c, c ∈ (Firestore.get_all_available_credentials now w').1 →
        username c ≠ name) ∧
     (∀ c s, (c, s) ∈ (Firestore.get_all_used_credentials w').1 →
        username c ≠ name) ∧
     (∀ now d c, (Firestore.get_available_credential now d w').1 = Some c →
        username c ≠ name)).
Proof.
  split.
  - intros w rs name Hp Hun w'.
    destruct (SqliteLost.sq_run_lost name rs w Hp Hun) as [Hp' Hun'].
    fold w' in Hp', Hun'. split_and!; [done..| | |].
    + intros now c Hc Hn.
      apply SqliteMore.sq_list_elem in Hc as (Hin & Hav & _).
      destruct Hp' as [_ Hall]. specialize (Hall c Hin Hn). congruence.
    + intros row Hrow Hn.
      apply SqliteUsed.sq_used_elem in Hrow
        as (c & u & r & Hc & Hs & Hu & Ha & ->).
      simpl in Hn. subst name. by eapply Hun'.
    + intros now d c Hf. by eapply SqliteFacts.sq_pinned_not_found.
  - intros w rs name Hk Hp Hun w'.
    destruct (FirestoreLost.fs_run_lost name rs w Hk Hp Hun)
      as (Hk' & Hp' & Hun').
    fold w' in Hk', Hp', Hun'. split_and!; [done..| | |].
    + intros now c Hc Hn.
      apply FirestoreMore.fs_list_elem in Hc as (id & Hin & Hav & _).
      destruct Hp' as (c0 & Hc0 & Hs).
      rewrite <- (Hk' id c Hin), Hn in Hin. congruence.
    + intros c s Hrow Hn.
      apply FirestoreUsed.fs_used_sound in Hrow
        as (id & u & r & Hc & Hs & -> & Hu & Ha).
      subst name. by eapply Hun'.
    + intros now d c Hf. by eapply FirestoreFacts.fs_pinned_not_found.
Qed.

(** ** What [/mydetails] shows *)

(** X21. What [my_details] shows to a user along a lease. After a
    successful grant both files show the escaped username and password of
    the granted credential and the plan expiry. After [/restrictbotuse],
    bot.py still shows the same username and password, now without an
    expiry, while bot_v2.0.py says that there is no active plan. After
    [/freecredential], bot.py shows [Not set] twice and bot_v2.0.py says
    that there is no active plan. (bot.py takes an empty username or
    password for a missing one, hence the two conditions.) *)
Theorem details_shown_along_a_lease :
  (∀ (w : Sqlite.world) (u d nf ng : Z) c,
     let w1 := (Sqlite.permit_bot_use true [Some u; Some d] nf ng w).2 in
     let w2 := (Sqlite.restrict_bot_use true [Some u] w1).2 in
     let w3 := (Sqlite.free_credential true [Some u] w1).2 in
     is_Some (Sqlite.users w !! u) →
     (Sqlite.get_available_credential nf d w).1 = Some c →
     username c ≠ "" → password c ≠ "" →
     (Sqlite.my_details u w1).1 =
       YourDetails (escape_markdown (username c))
         (escape_markdown (password c)) (Some (ng + timedelta_days d)) ∧
     (Sqlite.my_details u w2).1 =
       YourDetails (escape_markdown (username c))
         (escape_markdown (password c)) None ∧
     (Sqlite.my_details u w3).1 = YourDetails "Not set" "Not set" None) ∧
  (∀ (w : Firestore.world) (u d nf ng : Z) c,
     let w1 := (Firestore.permit_bot_use true [Some u; Some d] nf ng w).2 in
     let w2 := (Firestore.restrict_bot_use true [Some u] w1).2 in
     let w3 := (Firestore.free_credential true [Some u] w1).2 in
     is_Some (Firestore.users w !! u) →
     (Firestore.get_available_credential nf d w).1 = Some c →
     (Firestore.my_details u w1).1 =
       YourDetails (escape_markdown (username c))
         (escape_markdown (password c)) (Some (ng + timedelta_days d)) ∧
     (Firestore.my_details u w2).1 = NoActivePlan ∧
     (username c ≠ "" → (Firestore.my_details u w3).1 = NoActivePlan)).
Proof.
  split.
  - intros w u d nf ng c w1 w2 w3 [r Hr] Hf Hn Hp.
    assert (Sqlite.users w1 !! u =
            Some (User true (Some (ng + timedelta_days d))
                    (Some (username c)) (Some (password c)))) as Hu1.
    { unfold w1. rewrite (SqliteFacts.sq_permit_granted u d nf ng w c) by done.
      simpl. by rewrite alter_alter_eq, lookup_alter, decide_True, Hr. }
    split_and!.
    + unfold Sqlite.my_details, Sqlite.get_user. run_state.
      rewrite Hu1. unfold truthy. simpl. by rewrite !decide_False.
    + unfold w2, Sqlite.restrict_bot_use, Sqlite.get_user,
        Sqlite.revoke_user_access, Sqlite.update_users, Sqlite.emit.
      run_state. rewrite Hu1. simpl.
      unfold Sqlite.my_details, Sqlite.get_user. run_state.
      rewrite lookup_alter, decide_True, Hu1 by done. unfold truthy. simpl.
      by rewrite !decide_False.
    + unfold w3.
      rewrite (SqliteFacts.sq_free_credential_freed u [] w1 _ (username c) Hu1)
        by done.
      unfold Sqlite.my_details, Sqlite.get_user. run_state.
      by rewrite lookup_alter, decide_True, lookup_insert_eq.
  - intros w u d nf ng c w1 w2 w3 [r Hr] Hf.
    assert (Firestore.users w1 !! u =
            Some (User true (Some (ng + timedelta_days d))
                    (Some (username c)) (Some (password c)))) as Hu1.
    { unfold w1.
      rewrite (FirestoreFacts.fs_permit_granted u d nf ng w c) by done.
      simpl. by rewrite alter_alter_eq, lookup_alter, decide_True, Hr. }
    split_and!.
    + unfold Firestore.my_details, Firestore.get_user. run_state.
      by rewrite Hu1.
    + unfold w2, Firestore.restrict_bot_use, Firestore.get_user. run_state.
      rewrite Hu1. simpl. rewrite FirestoreFacts.fs_revoke_user_access.
      unfold Firestore.emit. run_state.
      unfold Firestore.my_details, Firestore.get_user. run_state.
      by rewrite lookup_alter, decide_True, Hu1.
    + intros Hn. unfold w3.
      rewrite (FirestoreFacts.fs_free_credential_freed u [] w1 _ (username c)
                 Hu1) by done.
      unfold Firestore.my_details, Firestore.get_user. run_state.
      by rewrite lookup_alter, decide_True, lookup_insert_eq.
Qed.

(** ** The purchase conversation *)

(** X22. An order from the choice of a plan that is in stock to the
    screenshot, in both files: the three handlers pass through the two
    waiting states and end the conversation with the staged plan cleared;
    the admin is sent the order and the command [/permitbotuse] with the
    buyer's id and the chosen number of days; the price is the number of
    days in bot.py and twice that in bot_v2.0.py; and the store is left as
    it was, so the credential that was found is not held back for the
    buyer. For a plan that is out of stock the handler shows its notice,
    keeps what was staged and changes no credential; but it has the message
    deleted that [start] then edits, so it raises instead of ending the
    conversation, unless Telegram left the message in place. *)
Theorem order_reaches_admin_and_reserves_nothing :
  (∀ (w : Sqlite.world) (u d now : Z) (clock : Z → Z) (staged : option plan)
     (message_left : bool),
     let s1 :=
       Sqlite.handle_buy_plan u (Some d) staged now clock message_left w in
     let s2 := Sqlite.handle_payment_confirmation u (user_data s1.1) s1.2 in
     let s3 := Sqlite.handle_screenshot u (user_data s2.1) s2.2 in
     (is_Some (Sqlite.get_available_credential now d w).1 →
        ended s1.1 = Returns (Some AWAITING_PAYMENT_CONFIRM) ∧
        ended s2.1 = Returns (Some AWAITING_SCREENSHOT) ∧
        ended s3.1 = Returns None ∧ user_data s3.1 = None ∧ s3.2 = w ∧
        ∃ p, price p = d ∧ duration p = d ∧
          shown s3.1 = [(AdminChat, OrderConfirmation u p);
                        (AdminChat, PermitCommand u d);
                        (UserChat u, OrderBeingVerified)]) ∧
     ((Sqlite.get_available_credential now d w).1 = None →
        ended s1.1 = (if message_left then Returns None else Raises) ∧
        user_data s1.1 = staged ∧
        shown s1.1 = [(UserChat u, PlanOutOfStock)] ∧
        Sqlite.credentials s1.2 = Sqlite.credentials w)) ∧
  (∀ (w : Firestore.world) (u d now nq ns : Z) (staged : option plan)
     (message_left : bool),
     let s1 :=
       Firestore.handle_buy_plan u (Some d) staged now nq ns message_left w in
     let s2 := Firestore.handle_payment_confirmation u (user_data s1.1) s1.2 in
     let s3 := Firestore.handle_screenshot u (user_data s2.1) s2.2 in
     (is_Some (Firestore.get_available_credential now d w).1 →
        ended s1.1 = Returns (Some AWAITING_PAYMENT_CONFIRM) ∧
        ended s2.1 = Returns (Some AWAITING_SCREENSHOT) ∧
        ended s3.1 = Returns None ∧ user_data s3.1 = None ∧ s3.2 = w ∧
        ∃ p, price p = d * 2 ∧ duration p = d ∧
          shown s3.1 = [(AdminChat, OrderConfirmation u p);
                        (AdminChat, PermitCommand u d);
                        (UserChat u, OrderBeingVerified)]) ∧
     ((Firestore.get_available_credential now d w).1 = None →
        ended s1.1 = (if message_left then Returns None else Raises) ∧
        user_data s1.1 = staged ∧
        shown s1.1 = [(UserChat u, PlanOutOfStock)] ∧
        Firestore.credentials s1.2 = Firestore.credentials w)).
Proof.
  split.
  - intros w u d now clock staged left s1 s2 s3.
    pose proof (SqliteFacts.sq_find_read_only now d w) as Hro.
    subst s3 s2 s1. unfold Sqlite.handle_buy_plan. run_state.
    destruct (Sqlite.get_available_credential now d w) as [cred w0].
    simpl in *. subst w0. split.
    + intros [c ->]. simpl. split_and!; try done.
      repeat case_decide; eexists; (split; [|split; [|reflexivity]]);
        simpl; lia.
    + intros ->. simpl. unfold Sqlite.start_from_callback.
      destruct left; run_state.
      * destruct (Sqlite.start u clock w) as [st w'] eqn:E. simpl.
        pose proof (SqliteFacts.sq_start_db u clock w) as [Hcr _].
        by rewrite E in Hcr.
      * destruct (Sqlite.add_or_get_user u _) as [r w1] eqn:E1. simpl.
        pose proof (SqliteFacts.sq_add_or_get_user_db u
                      (Sqlite.World (Sqlite.users w) (Sqlite.credentials w)
                         (Sqlite.output w ++ [Log (LogStartedBot u)])))
          as [Hcr _].
        rewrite E1 in Hcr. simpl in Hcr. done.
  - intros w u d now nq ns staged left s1 s2 s3.
    pose proof (FirestoreFacts.fs_find_read_only now d w) as Hro.
    subst s3 s2 s1. unfold Firestore.handle_buy_plan. run_state.
    destruct (Firestore.get_available_credential now d w) as [cred w0].
    simpl in *. subst w0. split.
    + intros [c ->]. simpl. split_and!; try done.
      eexists; (split; [|split; [|reflexivity]]); simpl; lia.
    + intros ->. simpl. unfold Firestore.start_from_callback.
      destruct left; run_state.
      * destruct (Firestore.start u nq ns w) as [st w'] eqn:E. simpl.
        pose proof (FirestoreFacts.fs_start_db u nq ns w) as [Hcr _].
        by rewrite E in Hcr.
      * destruct (Firestore.add_or_get_user u _) as [r w1] eqn:E1. simpl.
        pose proof (FirestoreFacts.fs_add_or_get_user_db u
                      (Firestore.World (Firestore.users w)
                         (Firestore.credentials w)
                         (Firestore.output w ++ [Log (LogStartedBot u)])))
          as [Hcr _].
        rewrite E1 in Hcr. simpl in Hcr. done.
Qed.

(** ** Every credential of a reachable store carries an expiry *)

Module SqliteDated.
Import Sqlite SqliteFacts.

Lemma sq_serve_credentials r w :
  credentials (serve r w).2 = credentials w ∨
  (∃ n p e,
     credentials (serve r w).2 =
       credentials w ++ [Credential n p available (Some e)]) ∨
  (∃ n p e,
     credentials (serve r w).2 =
       sql_update n (set_secret p (Some e)) (credentials w)) ∨
  (∃ n s,
     credentials (serve r w).2 = sql_update n (set_status s) (credentials w)).
Proof.
  destruct r as [uid clock|uid|now n pass days|now n p days
                |a args nf ng|a args|a args|uid]; simpl.
  - left. run_state. destruct (start uid clock w) as [st w'] eqn:E. simpl.
    pose proof (sq_start_db uid clock w) as [Hcr _]. by rewrite E in Hcr.
  - left. unfold check_user_permission. run_state.
    destruct (add_or_get_user uid w) as [st w'] eqn:E. simpl.
    pose proof (sq_add_or_get_user_db uid w) as [Hcr _]. by rewrite E in Hcr.
  - unfold add_credential_to_pool, update_credentials, emit. run_state.
    case_bool_decide; simpl; [by left|]. right. left. by eexists _, _, _.
  - unfold edit_credential_in_pool, update_credentials. run_state.
    destruct (select_by_username n (credentials w)); simpl; [|by left].
    right. right. left. by eexists _, _, _.
  - destruct a; [|by left].
    destruct args as [|[u|] [|[d|] [|? ?]]]; try (by left).
    destruct (users w !! u) as [r|] eqn:Hu.
    + destruct (get_available_credential nf d w).1 as [c|] eqn:E.
      * rewrite (sq_permit_granted u d nf ng w c) by done.
        right. right. right. by eexists _, _.
      * rewrite sq_permit_out_of_stock by done. by left.
    + rewrite sq_permit_no_user by done. by left.
  - left. unfold restrict_bot_use. destruct a; simpl; [|done].
    destruct args as [|[u|] ?]; simpl; try done.
    unfold get_user. run_state. by destruct (users w !! u).
  - destruct a; [|by left].
    destruct args as [|[u|] ?]; try (by left).
    destruct (held_username (users w !! u)) as [n|] eqn:Hh.
    + apply held_username_Some in Hh as (r & Hr & Ha & Hne).
      rewrite (sq_free_credential_freed _ _ _ _ _ Hr Ha Hne).
      right. right. right. by eexists _, _.
    + rewrite sq_free_credential_nothing by done. by left.
  - destruct (held_username (users w !! uid)) as [n|] eqn:Hh.
    + apply held_username_Some in Hh as (r & Hr & Ha & Hne).
      rewrite (sq_cleanup_freed _ _ _ _ Hr Ha Hne).
      right. right. right. by eexists _, _.
    + rewrite sq_cleanup_nothing by done. by left.
Qed.

Lemma sq_run_dated rs w c :
  (∀ c, c ∈ credentials w → is_Some (credential_expiry_date c)) →
  c ∈ credentials (run rs w) → is_Some (credential_expiry_date c).
Proof.
  revert w c. induction rs as [|r rs IH]; intros w c Hw; [by apply Hw|].
  simpl. apply IH. clear c. intros c.
  destruct (sq_serve_credentials r w)
    as [->|[(n & p & e & ->)|[(n & p & e & ->)|(n & s & ->)]]].
  - apply Hw.
  - intros [Hc| ->%list_elem_of_singleton]%elem_of_app; [by apply Hw|done].
  - intros (c0 & Hc0 & ->)%sq_elem_of_sql_update.
    case_decide; [done|by apply Hw].
  - intros (c0 & Hc0 & ->)%sq_elem_of_sql_update.
    case_decide; simpl; by apply Hw.
Qed.

End SqliteDated.

Module FirestoreDated.
Import Firestore FirestoreFacts.

Lemma fs_serve_credentials r w :
  credentials (serve r w).2 = credentials w ∨
  (∃ n p e,
     credentials (serve r w).2 =
       <[n := Credential n p available (Some e)]> (credentials w)) ∨
  (∃ n p e,
     credentials (serve r w).2 =
       alter (set_secret p (Some e)) n (credentials w)) ∨
  (∃ n s, credentials (serve r w).2 = alter (set_status s) n (credentials w)).
Proof.
  destruct r as [uid nq now|uid|now n pass days|now n p days
                |a args nf ng|a args|a args|uid]; simpl.
  - left. run_state. destruct (start uid nq now w) as [st w'] eqn:E. simpl.
    pose proof (fs_start_db uid nq now w) as [Hcr _]. by rewrite E in Hcr.
  - left. unfold check_user_permission. run_state.
    destruct (add_or_get_user uid w) as [st w'] eqn:E. simpl.
    pose proof (fs_add_or_get_user_db uid w) as [Hcr _]. by rewrite E in Hcr.
  - unfold add_credential_to_pool, get_credential, credentials_set, emit.
    run_state. destruct (credentials w !! n) eqn:Hn; simpl; [by left|].
    right. left. by eexists _, _, _.
  - unfold edit_credential_in_pool, get_credential, credentials_update.
    run_state. destruct (credentials w !! n) as [c|] eqn:Hn; simpl; [|by left].
    rewrite Hn. simpl.
    rewrite (fs_insert_alter (set_secret p (Some (now + timedelta_days days)))
               (credentials w) n c) by done.
    right. right. left. by eexists _, _, _.
  - destruct a; [|by left].
    destruct args as [|[u|] [|[d|] [|? ?]]]; try (by left).
    destruct (users w !! u) as [r|] eqn:Hu.
    + destruct (get_available_credential nf d w).1 as [c|] eqn:E.
      * rewrite (fs_permit_granted u d nf ng w c) by done.
        right. right. right. by eexists _, _.
      * rewrite fs_permit_out_of_stock by done. by left.
    + rewrite fs_permit_no_user by done. by left.
  - left. unfold restrict_bot_use. destruct a; simpl; [|done].
    destruct args as [|[u|] ?]; simpl; try done.
    unfold get_user. run_state.
    destruct (users w !! u) as [r|] eqn:Hu; [|done].
    rewrite fs_revoke_user_access. unfold emit. by run_state.
  - destruct a; [|by left].
    destruct args as [|[u|] ?]; try (by left).
    destruct (held_username (users w !! u)) as [n|] eqn:Hh.
    + apply held_username_Some in Hh as (r & Hr & Ha & Hne).
      rewrite (fs_free_credential_freed _ _ _ _ _ Hr Ha Hne).
      right. right. right. by eexists _, _.
    + rewrite fs_free_credential_nothing by done. by left.
  - destruct (held_username (users w !! uid)) as [n|] eqn:Hh.
    + apply held_username_Some in Hh as (r & Hr & Ha & Hne).
      rewrite (fs_cleanup_freed _ _ _ _ Hr Ha Hne).
      right. right. right. by eexists _, _.
    + rewrite fs_cleanup_nothing by done. by left.
Qed.

Lemma fs_run_dated rs w id c :
  (∀ id c, credentials w !! id = Some c →
     is_Some (credential_expiry_date c)) →
  credentials (run rs w) !! id = Some c → is_Some (credential_expiry_date c).
Proof.
  revert w id c. induction rs as [|r rs IH]; intros w id c Hw; [by apply Hw|].
  simpl. apply IH. clear id c. intros id c.
  destruct (fs_serve_credentials r w)
    as [->|[(n & p & e & ->)|[(n & p & e & ->)|(n & s & ->)]]].
  - apply Hw.
  - rewrite lookup_insert. case_decide; [by intros [= <-]|by apply Hw].
  - rewrite lookup_alter. case_decide; [|by apply Hw].
    destruct (credentials w !! n); [|done]. by intros [= <-].
  - rewrite lookup_alter. case_decide; [|by apply Hw]. subst.
    destruct (credentials w !! id) as [c0|] eqn:Hc0; [|done].
    intros [= <-]. simpl. by eapply Hw.
Qed.

End FirestoreDated.

(** X23. [see_used_credentials] called by the admin on a store reached from
    the empty one, in both files. It leaves the store as it is and never
    raises. When [get_all_used_credentials] returns nothing it says that
    nothing is in use. Otherwise it shows the rows line by line, one line
    for each row of that list and in the order of the list: the line of a
    row has the escaped username, the user, and a lifetime that is
    [Expired] exactly when the expiry lies before the clock reading, and
    otherwise days and hours (the hours between 0 and 23) that are the time
    left, rounded down to the hour. *)
Theorem used_listing_lines :
  (∀ (rs : list Sqlite.request) (now : Z),
     let w := Sqlite.run rs Sqlite.initial in
     let rows := (Sqlite.get_all_used_credentials w).1 in
     (Sqlite.see_used_credentials true now w).2 = w ∧
     (rows = [] →
      (Sqlite.see_used_credentials true now w).1 = NothingToList) ∧
     (rows ≠ [] →
      ∃ lines,
        (Sqlite.see_used_credentials true now w).1 = Lines lines ∧
        Forall2
          (λ row '(name, uid, life),
             ∃ e, Sqlite.used_expiry row = Some e ∧
               name = escape_markdown (Sqlite.used_username row) ∧
               uid = Sqlite.used_by row ∧
               match life with
               | Expired => e < now
               | Remaining days hours =>
                   now ≤ e ∧ 0 ≤ hours < 24 ∧
                   (days * 24 + hours) * 3600000000 ≤ e - now
                     < (days * 24 + hours + 1) * 3600000000
               end)
          rows lines)) ∧
  (∀ (rs : list Firestore.request) (now : Z),
     let w := Firestore.run rs Firestore.initial in
     let rows := (Firestore.get_all_used_credentials w).1 in
     (Firestore.see_used_credentials true now w).2 = w ∧
     (rows = [] →
      (Firestore.see_used_credentials true now w).1 = NothingToList) ∧
     (rows ≠ [] →
      ∃ lines,
        (Firestore.see_used_credentials true now w).1 = Lines lines ∧
        Forall2
          (λ (row : credential * string) '(name, uid, life),
             ∃ e, credential_expiry_date row.1 = Some e ∧
               name = escape_markdown (username row.1) ∧
               uid = escape_markdown row.2 ∧
               match life with
               | Expired => e < now
               | Remaining days hours =>
                   now ≤ e ∧ 0 ≤ hours < 24 ∧
                   (days * 24 + hours) * 3600000000 ≤ e - now
                     < (days * 24 + hours + 1) * 3600000000
               end)
          rows lines)).
Proof.
  split.
  - intros rs now w rows. split.
    { unfold Sqlite.see_used_credentials. run_state.
      by destruct (Sqlite.credentials w ≫= _). }
    assert (∀ row, row ∈ rows → is_Some (Sqlite.used_expiry row)) as Hex.
    { intros row (c & u & r & Hc & _ & _ & _ & ->)%SqliteUsed.sq_used_elem.
      simpl. eapply SqliteDated.sq_run_dated; [|exact Hc].
      intros c0 Hc0. by apply elem_of_nil in Hc0. }
    unfold Sqlite.see_used_credentials. run_state.
    change (Sqlite.credentials w ≫= _) with rows. clearbody rows.
    split; [by intros ->|]. intros Hne.
    destruct rows as [|r0 rows'] eqn:Erows; [done|].
    rewrite <- Erows in *. clear Erows Hne. simpl.
    destruct (mapM _ rows) as [lines|] eqn:Hm; simpl.
    + exists lines. split; [done|]. apply mapM_Some in Hm.
      eapply Forall2_impl; [exact Hm|]. intros row [[name uid] life] Hf.
      simpl in Hf.
      destruct (Sqlite.used_expiry row) as [e|] eqn:He; [|done].
      injection Hf as <- <- <-. exists e.
      do 3 (split; [done|]).
      pose proof (lifetime_bracket (e - now)) as (H1 & H2 & H3).
      case_decide; [lia|]. split; [lia|done].
    + apply mapM_None_1, Exists_exists in Hm as (row & Hrow & Hf).
      destruct (Hex row Hrow) as [e He]. by rewrite He in Hf.
  - intros rs now w rows. split.
    { unfold Firestore.see_used_credentials. run_state.
      by destruct (omap _ _). }
    assert (∀ c s, (c, s) ∈ rows → is_Some (credential_expiry_date c)) as Hex.
    { intros c s (id & _ & _ & Hc & _)%FirestoreUsed.fs_used_sound.
      eapply FirestoreDated.fs_run_dated; [|exact Hc].
      intros id0 c0 Hc0. simpl in Hc0. by rewrite lookup_empty in Hc0. }
    unfold Firestore.see_used_credentials. run_state.
    change (omap _ _) with rows. clearbody rows.
    split; [by intros ->|]. intros Hne.
    destruct rows as [|r0 rows'] eqn:Erows; [done|].
    rewrite <- Erows in *. clear Erows Hne. simpl.
    destruct (mapM _ rows) as [lines|] eqn:Hm; simpl.
    + exists lines. split; [done|]. apply mapM_Some in Hm.
      eapply Forall2_impl; [exact Hm|]. intros [c s] [[name uid] life] Hf.
      simpl in Hf.
      destruct (credential_expiry_date c) as [e|] eqn:He; [|done].
      injection Hf as <- <- <-. exists e.
      do 3 (split; [done|]).
      pose proof (lifetime_bracket (e - now)) as (H1 & H2 & H3).
      case_decide; [lia|]. split; [lia|done].
    + apply mapM_None_1, Exists_exists in Hm as ([c s] & Hrow & Hf).
      simpl in Hf. destruct (Hex c s Hrow) as [e He]. by rewrite He in Hf.
Qed.

(** ** Who passes the permission check *)

(** X24. The permission check ([check_user_permission]) on a store reached
    from the empty one, in both files: it answers yes only for a user whose
    record has a plan expiry and carries a credential that is in the pool
    and in use; a user seen for the first time is refused. *)
Theorem permitted_user_holds_a_credential :
  (∀ (rs : list Sqlite.request) (u : Z),
     let w := Sqlite.run rs Sqlite.initial in
     ((Sqlite.check_user_permission u w).1 = true →
        ∃ r name c, Sqlite.users w !! u = Some r ∧
          is_Some (plan_expiry_date r) ∧ assigned_username r = Some name ∧
          c ∈ Sqlite.credentials w ∧ username c = name ∧ status c = in_use) ∧
     (Sqlite.users w !! u = None →
        (Sqlite.check_user_permission u w).1 = false)) ∧
  (∀ (rs : list Firestore.request) (u : Z),
     let w := Firestore.run rs Firestore.initial in
     ((Firestore.check_user_permission u w).1 = true →
        ∃ r name c, Firestore.users w !! u = Some r ∧
          is_Some (plan_expiry_date r) ∧ assigned_username r = Some name ∧
          Firestore.credentials w !! name = Some c ∧ username c = name ∧
          status c = in_use) ∧
     (Firestore.users w !! u = None →
        (Firestore.check_user_permission u w).1 = false)).
Proof.
  split.
  - intros rs u w.
    pose proof (SqliteFacts.sq_run_consistent rs Sqlite.initial
                  SqliteFacts.sq_initial_consistent) as [_ Hh _].
    fold w in Hh.
    unfold Sqlite.check_user_permission, Sqlite.add_or_get_user,
      Sqlite.get_user, Sqlite.update_users, Sqlite.emit. run_state.
    destruct (Sqlite.users w !! u) as [r|] eqn:Hu; simpl.
    + split; [|done]. intros Hb.
      destruct (SqliteLeases.sq_run_records rs Sqlite.initial) with u r
        as (Hexp & Hcarry & _); [|done|].
      { intros u' x Hx. simpl in Hx. by rewrite lookup_empty in Hx. }
      destruct (Hcarry Hb) as [name Hname].
      destruct (Hh u r name Hu Hname) as (c & Hc & Hn & Hs).
      exists r, name, c. split_and!; try done. by apply Hexp.
    + by rewrite lookup_insert_eq.
  - intros rs u w.
    pose proof (FirestoreFacts.fs_run_consistent rs Firestore.initial
                  FirestoreFacts.fs_initial_consistent) as [Hk Hh _].
    fold w in Hk, Hh.
    unfold Firestore.check_user_permission, Firestore.add_or_get_user,
      Firestore.get_user, Firestore.users_set, Firestore.emit. run_state.
    destruct (Firestore.users w !! u) as [r|] eqn:Hu; simpl.
    + split; [|done]. intros Hb.
      destruct (FirestoreLeases.fs_run_records rs Firestore.initial) with u r
        as (Hexp & Hcarry & _); [|done|].
      { intros u' x Hx. simpl in Hx. by rewrite lookup_empty in Hx. }
      destruct (Hcarry Hb) as [name Hname].
      destruct (Hh u r name Hu Hname) as (c & Hc & Hs).
      exists r, name, c. split_and!; try done; [by apply Hexp|by apply Hk].
    + done.
Qed.

(** ** Instances *)

(** X16 at a version string written in two ways. *)
Lemma escape_markdown_injective_witness :
  let a := "v1.0_beta" in
  let b := String.append "v1.0" "_beta" in
  escape_markdown a = escape_markdown b ∧ a = b.
Proof.
  intros a b. split; [vm_compute; reflexivity|].
  apply escape_markdown_injective. vm_compute. reflexivity.
Defined.

(** X20 at the store reached by adding A (10 days) and B (20 days) and
    granting 5 days to user 1 twice: the first grant assigns A, the second
    assigns B, and A is left in use with no user carrying it; no request
    sequence brings it back. *)
Lemma uncarried_credential_in_use_is_lost_witness :
  let ws := Sqlite.run
              [Sqlite.ChessLink 1;
               Sqlite.AddCredential 0 "A" "pa" 10;
               Sqlite.AddCredential 0 "B" "pb" 20;
               Sqlite.PermitBotUse true [Some 1; Some 5] 0 0;
               Sqlite.PermitBotUse true [Some 1; Some 5] 0 0]
              Sqlite.initial in
  let wf := Firestore.run
              [Firestore.ChessLink 1;
               Firestore.AddCredential 0 "A" "pa" 10;
               Firestore.AddCredential 0 "B" "pb" 20;
               Firestore.PermitBotUse true [Some 1; Some 5] 0 0;
               Firestore.PermitBotUse true [Some 1; Some 5] 0 0]
              Firestore.initial in
  (Sqlite.pinned "A" ws ∧ Sqlite.unheld "A" ws ∧
   ∀ rs now d c,
     (Sqlite.get_available_credential now d (Sqlite.run rs ws)).1 = Some c →
     username c ≠ "A") ∧
  (Firestore.pinned "A" wf ∧ Firestore.unheld "A" wf ∧
   ∀ rs now d c,
     (Firestore.get_available_credential now d (Firestore.run rs wf)).1
       = Some c →
     username c ≠ "A").
Proof.
  intros ws wf.
  assert (Sqlite.pinned "A" ws) as Hps.
  { split.
    - exists (Credential "A" "pa" in_use (Some (timedelta_days 10))).
      split; [|reflexivity]. vm_compute. apply list_elem_of_here.
    - intros c Hc Hn.
      assert (Sqlite.credentials ws =
              [Credential "A" "pa" in_use (Some (timedelta_days 10));
               Credential "B" "pb" in_use (Some (timedelta_days 20))]) as E
        by (vm_compute; reflexivity).
      rewrite E in Hc. apply elem_of_cons in Hc as [->|Hc]; [reflexivity|].
      apply list_elem_of_singleton in Hc. subst c. discriminate Hn. }
  assert (Sqlite.unheld "A" ws) as Hus.
  { intros v r Hv.
    assert (Sqlite.users ws =
            {[ 1 := User true (Some (timedelta_days 5)) (Some "B") (Some "pb") ]})
      as E by (vm_compute; reflexivity).
    rewrite E in Hv. apply lookup_singleton_Some in Hv as [_ <-].
    discriminate. }
  assert (Firestore.pinned "A" wf) as Hpf.
  { exists (Credential "A" "pa" in_use (Some (timedelta_days 10))).
    split; vm_compute; reflexivity. }
  assert (Firestore.unheld "A" wf) as Huf.
  { intros v r Hv.
    assert (Firestore.users wf =
            {[ 1 := User true (Some (timedelta_days 5)) (Some "B") (Some "pb") ]})
      as E by (vm_compute; reflexivity).
    rewrite E in Hv. apply lookup_singleton_Some in Hv as [_ <-].
    discriminate. }
  pose proof uncarried_credential_in_use_is_lost as [Hs Hf]. split.
  - split; [exact Hps|]. split; [exact Hus|]. intros rs.
    destruct (Hs ws rs "A" Hps Hus) as (_ & _ & _ & _ & H). exact H.
  - split; [exact Hpf|]. split; [exact Huf|]. intros rs.
    destruct (Hf wf rs "A") as (_ & _ & _ & _ & H); [|exact Hpf|exact Huf|exact H].
    apply (Firestore.keyed_by_username _
             (FirestoreFacts.fs_run_consistent _ _
                FirestoreFacts.fs_initial_consistent)).
Defined.

(** X1 at the empty store: A is added for 10 days and read back. *)
Lemma add_then_get_credential_witness :
  (Sqlite.get_credential "A"
     (Sqlite.add_credential_to_pool 0 "A" "pa" 10 Sqlite.initial).2).1 =
    Some (Credential "A" "pa" available (Some (timedelta_days 10))) ∧
  (Firestore.get_credential "A"
     (Firestore.add_credential_to_pool 0 "A" "pa" 10 Firestore.initial).2).1 =
    Some (Credential "A" "pa" available (Some (timedelta_days 10))).
Proof.
  pose proof add_then_get_credential as [Hs Hf]. split.
  - destruct (Hs Sqlite.initial 0 "A" "pa" 10) as (_ & H & _); [|exact H].
    intros c Hc. apply elem_of_nil in Hc. destruct Hc.
  - destruct (Hf Firestore.initial 0 "A" "pa" 10) as (_ & H & _); [|exact H].
    vm_compute. reflexivity.
Defined.

(** X5 at the pool of A (10 days) and B (20 days): a search for 15 days
    finds B, so a search for 5 days finds a credential that expires no
    later than B. *)
Lemma best_fit_monotone_in_days_witness :
  let a := Credential "A" "pa" available (Some (timedelta_days 10)) in
  let b := Credential "B" "pb" available (Some (timedelta_days 20)) in
  let ws := Sqlite.World ∅ [a; b] [] in
  let wf := Firestore.World ∅ {[ "A" := a; "B" := b ]} [] in
  (∃ c' e', (Sqlite.get_available_credential 0 5 ws).1 = Some c' ∧
            credential_expiry_date c' = Some e' ∧ e' ≤ timedelta_days 20) ∧
  (∃ c' e', (Firestore.get_available_credential 0 5 wf).1 = Some c' ∧
            credential_expiry_date c' = Some e' ∧ e' ≤ timedelta_days 20).
Proof.
  intros a b ws wf. pose proof best_fit_monotone_in_days as [Hs Hf]. split.
  - apply (Hs ws 0 15 5 b (timedelta_days 20));
      [lia|vm_compute; reflexivity|reflexivity].
  - apply (Hf wf 0 15 5 b (timedelta_days 20));
      [lia|vm_compute; reflexivity|reflexivity].
Defined.

(** X8 at the store with user 1 and the credentials A (10 days) and B
    (20 days): a grant of 5 days to user 1 followed by the cleanup task
    leaves the pool as it was. *)
Lemma grant_then_cleanup_restores_pool_witness :
  let ws := Sqlite.run
              [Sqlite.ChessLink 1;
               Sqlite.AddCredential 0 "A" "pa" 10;
               Sqlite.AddCredential 0 "B" "pb" 20] Sqlite.initial in
  let wf := Firestore.run
              [Firestore.ChessLink 1;
               Firestore.AddCredential 0 "A" "pa" 10;
               Firestore.AddCredential 0 "B" "pb" 20] Firestore.initial in
  Sqlite.credentials
    (Sqlite.run_cleanup_task_after_delay 1
       (Sqlite.permit_bot_use true [Some 1; Some 5] 0 0 ws).2).2 =
    Sqlite.credentials ws ∧
  Firestore.credentials
    (Firestore.run_cleanup_task_after_delay 1
       (Firestore.permit_bot_use true [Some 1; Some 5] 0 0 wf).2).2 =
    Firestore.credentials wf.
Proof.
  intros ws wf. pose proof grant_then_cleanup_restores_pool as [Hs Hf]. split.
  - destruct (Hs [Sqlite.ChessLink 1;
                  Sqlite.AddCredential 0 "A" "pa" 10;
                  Sqlite.AddCredential 0 "B" "pb" 20] 1 5 0 0
                (Credential "A" "pa" available (Some (timedelta_days 10))))
      as (H & _); [vm_compute; eexists; reflexivity|vm_compute; reflexivity
                  |discriminate|exact H].
  - destruct (Hf [Firestore.ChessLink 1;
                  Firestore.AddCredential 0 "A" "pa" 10;
                  Firestore.AddCredential 0 "B" "pb" 20] 1 5 0 0
                (Credential "A" "pa" available (Some (timedelta_days 10))))
      as (H & _); [vm_compute; eexists; reflexivity|vm_compute; reflexivity
                  |discriminate|exact H].
Defined.

(** X21 at the store with user 1 and the credential A: what user 1 is shown
    after the grant, after the restriction and after the manual free. *)
Lemma details_shown_along_a_lease_witness :
  let a := Credential "a_1" "p.w" available (Some (timedelta_days 10)) in
  let ws := Sqlite.World {[ 1 := new_user ]} [a] [] in
  let wf := Firestore.World {[ 1 := new_user ]} {[ "a_1" := a ]} [] in
  let ws1 := (Sqlite.permit_bot_use true [Some 1; Some 5] 0 0 ws).2 in
  let wf1 := (Firestore.permit_bot_use true [Some 1; Some 5] 0 0 wf).2 in
  (Sqlite.my_details 1 (Sqlite.restrict_bot_use true [Some 1] ws1).2).1 =
    YourDetails (escape_markdown "a_1") (escape_markdown "p.w") None ∧
  (Firestore.my_details 1 (Firestore.restrict_bot_use true [Some 1] wf1).2).1 =
    NoActivePlan.
Proof.
  intros a ws wf ws1 wf1. pose proof details_shown_along_a_lease as [Hs Hf].
  split.
  - destruct (Hs ws 1 5 0 0 a) as (_ & H & _);
      [vm_compute; eexists; reflexivity|vm_compute; reflexivity
      |discriminate|discriminate|exact H].
  - destruct (Hf wf 1 5 0 0 a) as (_ & H & _);
      [vm_compute; eexists; reflexivity|vm_compute; reflexivity|exact H].
Defined.

(** X2 at a pool where A is in use: adding A again is refused and A stays
    in use. *)
Lemma add_never_overwrites_witness :
  let a := Credential "A" "pa" in_use (Some (timedelta_days 10)) in
  let ws := Sqlite.World ∅ [a] [] in
  let wf := Firestore.World ∅ {[ "A" := a ]} [] in
  Sqlite.credentials (Sqlite.add_credential_to_pool 0 "A" "new" 30 ws).2
    = [a] ∧
  Firestore.credentials (Firestore.add_credential_to_pool 0 "A" "new" 30 wf).2
    = {[ "A" := a ]}.
Proof.
  intros a ws wf. pose proof add_never_overwrites as [Hs Hf]. split.
  - destruct (Hs ws 0 "A" "new" 30 a) as (_ & H & _);
      [apply list_elem_of_here|reflexivity|exact H].
  - destruct (Hf wf 0 "A" "new" 30 a) as (_ & H & _);
      [vm_compute; reflexivity|exact H].
Defined.

(** X4 at the pool of A (10 days) and B (20 days): the credential found for
    15 days is on the list of available credentials. *)
Lemma best_fit_is_listed_witness :
  let a := Credential "A" "pa" available (Some (timedelta_days 10)) in
  let b := Credential "B" "pb" available (Some (timedelta_days 20)) in
  let ws := Sqlite.World ∅ [a; b] [] in
  let wf := Firestore.World ∅ {[ "A" := a; "B" := b ]} [] in
  b ∈ (Sqlite.get_all_available_credentials 0 ws).1 ∧
  b ∈ (Firestore.get_all_available_credentials 0 wf).1.
Proof.
  intros a b ws wf. pose proof best_fit_is_listed as [Hs Hf]. split.
  - apply (Hs ws 0 15 b); [lia|vm_compute; reflexivity].
  - apply (Hf wf 0 15 b); [lia|vm_compute; reflexivity].
Defined.

(** X7 at the store reached by adding A and B and granting 5 days to user
    1, who then carries A: after a second grant A is still in use, and no
    user carries it. *)
Lemma grant_leaves_previous_credential_in_use_witness :
  let rss := [Sqlite.ChessLink 1;
              Sqlite.AddCredential 0 "A" "pa" 10;
              Sqlite.AddCredential 0 "B" "pb" 20;
              Sqlite.PermitBotUse true [Some 1; Some 5] 0 0] in
  let rsf := [Firestore.ChessLink 1;
              Firestore.AddCredential 0 "A" "pa" 10;
              Firestore.AddCredential 0 "B" "pb" 20;
              Firestore.PermitBotUse true [Some 1; Some 5] 0 0] in
  let ws' := (Sqlite.permit_bot_use true [Some 1; Some 5] 0 0
                (Sqlite.run rss Sqlite.initial)).2 in
  let wf' := (Firestore.permit_bot_use true [Some 1; Some 5] 0 0
                (Firestore.run rsf Firestore.initial)).2 in
  ((∃ x, x ∈ Sqlite.credentials ws' ∧ username x = "A" ∧ status x = in_use) ∧
   ∀ v r', Sqlite.users ws' !! v = Some r' → assigned_username r' ≠ Some "A") ∧
  ((∃ x, Firestore.credentials wf' !! "A" = Some x ∧ status x = in_use) ∧
   ∀ v r', Firestore.users wf' !! v = Some r' →
     assigned_username r' ≠ Some "A").
Proof.
  intros rss rsf ws' wf'.
  pose proof grant_leaves_previous_credential_in_use as [Hs Hf]. split.
  - destruct (Hs rss 1 5 0 0
                (Credential "B" "pb" available (Some (timedelta_days 20))))
      as (_ & _ & H); [vm_compute; eexists; reflexivity|vm_compute; reflexivity|].
    apply (H (User true (Some (timedelta_days 5)) (Some "A") (Some "pa")));
      vm_compute; reflexivity.
  - destruct (Hf rsf 1 5 0 0
                (Credential "B" "pb" available (Some (timedelta_days 20))))
      as (_ & _ & H); [vm_compute; eexists; reflexivity|vm_compute; reflexivity|].
    apply (H (User true (Some (timedelta_days 5)) (Some "A") (Some "pa")));
      vm_compute; reflexivity.
Defined.

(** X9 at the pool with A expiring after 10 days: a grant of 5 days made one
    second after the search ends the plan before A expires. *)
Lemma lease_ends_before_credential_witness :
  let a := Credential "A" "pa" available (Some (timedelta_days 10)) in
  let ws := Sqlite.World {[ 1 := new_user ]} [a] [] in
  let wf := Firestore.World {[ 1 := new_user ]} {[ "A" := a ]} [] in
  (∃ r e p,
     Sqlite.users (Sqlite.permit_bot_use true [Some 1; Some 5] 0 1000000 ws).2
       !! 1 = Some r ∧
     assigned_username r = Some "A" ∧
     credential_expiry_date a = Some e ∧ plan_expiry_date r = Some p ∧
     p - e ≤ 1000000 - 0) ∧
  (∃ r e p,
     Firestore.users
       (Firestore.permit_bot_use true [Some 1; Some 5] 0 1000000 wf).2
       !! 1 = Some r ∧
     assigned_username r = Some "A" ∧
     credential_expiry_date a = Some e ∧ plan_expiry_date r = Some p ∧
     p - e ≤ 1000000 - 0).
Proof.
  intros a ws wf. pose proof lease_ends_before_credential as [Hs Hf]. split.
  - apply (Hs ws 1 5 0 1000000 a);
      [vm_compute; eexists; reflexivity|vm_compute; reflexivity].
  - apply (Hf wf 1 5 0 1000000 a);
      [vm_compute; eexists; reflexivity|vm_compute; reflexivity].
Defined.

(** X10 at a store where user 1 carries A. *)
Lemma free_after_restrict_is_free_witness :
  let a := Credential "A" "pa" in_use (Some (timedelta_days 10)) in
  let r := User true (Some (timedelta_days 5)) (Some "A") (Some "pa") in
  let ws := Sqlite.World {[ 1 := r ]} [a] [] in
  let wf := Firestore.World {[ 1 := r ]} {[ "A" := a ]} [] in
  Sqlite.credentials
    (Sqlite.free_credential true [Some 1]
       (Sqlite.restrict_bot_use true [Some 1] ws).2).2 =
    Sqlite.credentials (Sqlite.free_credential true [Some 1] ws).2 ∧
  Firestore.credentials
    (Firestore.free_credential true [Some 1]
       (Firestore.restrict_bot_use true [Some 1] wf).2).2 =
    Firestore.credentials (Firestore.free_credential true [Some 1] wf).2.
Proof.
  intros a r ws wf. pose proof free_after_restrict_is_free as [Hs Hf]. split.
  - destruct (Hs ws 1 r "A") as (_ & H);
      [vm_compute; reflexivity|reflexivity|discriminate|exact H].
  - destruct (Hf wf 1 r "A") as (_ & H);
      [vm_compute; reflexivity|reflexivity|discriminate|exact H].
Defined.

(** X12 at a store that knows no user 9: assigning A to user 9 creates no
    record; bot.py marks A in use all the same, bot_v2.0.py leaves it. *)
Lemma unknown_user_is_never_created_witness :
  let a := Credential "A" "pa" available (Some (timedelta_days 10)) in
  let ws := Sqlite.World ∅ [a] [] in
  let wf := Firestore.World ∅ {[ "A" := a ]} [] in
  (Sqlite.users (Sqlite.assign_credential_to_user 9 a ws).2 = ∅ ∧
   Credential "A" "pa" in_use (Some (timedelta_days 10))
     ∈ Sqlite.credentials (Sqlite.assign_credential_to_user 9 a ws).2) ∧
  (Firestore.users (Firestore.assign_credential_to_user 9 a wf).2 = ∅ ∧
   Firestore.credentials (Firestore.assign_credential_to_user 9 a wf).2 =
     {[ "A" := a ]}).
Proof.
  intros a ws wf. pose proof unknown_user_is_never_created as [Hs Hf]. split.
  - destruct (Hs ws 9 0 0 a) as (H1 & _ & _ & H2); [vm_compute; reflexivity|].
    split; [exact H1|]. apply H2. apply list_elem_of_here.
  - destruct (Hf wf 9 0 0 a) as (H1 & H2 & _); [vm_compute; reflexivity|].
    split; [exact H1|exact H2].
Defined.

(** X22 at the pool with A expiring after 10 days: user 1 orders 7 days,
    which is in stock; an order of 30 days is not, and the handler raises
    after the deletion of its message. *)
Lemma order_reaches_admin_and_reserves_nothing_witness :
  let a := Credential "A" "pa" available (Some (timedelta_days 10)) in
  let ws := Sqlite.World {[ 1 := new_user ]} [a] [] in
  let wf := Firestore.World {[ 1 := new_user ]} {[ "A" := a ]} [] in
  let s1 := Sqlite.handle_buy_plan 1 (Some 7) None 0 (λ _, 0) false ws in
  let s2 := Sqlite.handle_payment_confirmation 1 (user_data s1.1) s1.2 in
  let s3 := Sqlite.handle_screenshot 1 (user_data s2.1) s2.2 in
  let t1 := Firestore.handle_buy_plan 1 (Some 7) None 0 0 0 false wf in
  let t2 := Firestore.handle_payment_confirmation 1 (user_data t1.1) t1.2 in
  let t3 := Firestore.handle_screenshot 1 (user_data t2.1) t2.2 in
  (s3.2 = ws ∧
   (∃ p, price p = 7 ∧ duration p = 7 ∧
      shown s3.1 = [(AdminChat, OrderConfirmation 1 p);
                    (AdminChat, PermitCommand 1 7);
                    (UserChat 1, OrderBeingVerified)]) ∧
   ended (Sqlite.handle_buy_plan 1 (Some 30) None 0 (λ _, 0) false ws).1
     = Raises) ∧
  (t3.2 = wf ∧
   (∃ p, price p = 7 * 2 ∧ duration p = 7 ∧
      shown t3.1 = [(AdminChat, OrderConfirmation 1 p);
                    (AdminChat, PermitCommand 1 7);
                    (UserChat 1, OrderBeingVerified)]) ∧
   ended (Firestore.handle_buy_plan 1 (Some 30) None 0 0 0 false wf).1
     = Raises).
Proof.
  intros a ws wf s1 s2 s3 t1 t2 t3.
  pose proof order_reaches_admin_and_reserves_nothing as [Hs Hf]. split.
  - destruct (Hs ws 1 7 0 (λ _, 0) None false) as [H _].
    destruct H as (_ & _ & _ & _ & H1 & H2); [vm_compute; eexists; reflexivity|].
    destruct (Hs ws 1 30 0 (λ _, 0) None false) as [_ H].
    destruct H as (H3 & _); [vm_compute; reflexivity|].
    split; [exact H1|]. split; [exact H2|exact H3].
  - destruct (Hf wf 1 7 0 0 0 None false) as [H _].
    destruct H as (_ & _ & _ & _ & H1 & H2); [vm_compute; eexists; reflexivity|].
    destruct (Hf wf 1 30 0 0 0 None false) as [_ H].
    destruct H as (H3 & _); [vm_compute; reflexivity|].
    split; [exact H1|]. split; [exact H2|exact H3].
Defined.

(** X24 at the store where user 1 was granted A: the check lets user 1
    pass, and user 1 carries a credential in use. *)
Lemma permitted_user_holds_a_credential_witness :
  let rss := [Sqlite.ChessLink 1;
              Sqlite.AddCredential 0 "A" "pa" 10;
              Sqlite.PermitBotUse true [Some 1; Some 5] 0 0] in
  let rsf := [Firestore.ChessLink 1;
              Firestore.AddCredential 0 "A" "pa" 10;
              Firestore.PermitBotUse true [Some 1; Some 5] 0 0] in
  let ws := Sqlite.run rss Sqlite.initial in
  let wf := Firestore.run rsf Firestore.initial in
  (∃ r name c, Sqlite.users ws !! 1 = Some r ∧
     is_Some (plan_expiry_date r) ∧ assigned_username r = Some name ∧
     c ∈ Sqlite.credentials ws ∧ username c = name ∧ status c = in_use) ∧
  (∃ r name c, Firestore.users wf !! 1 = Some r ∧
     is_Some (plan_expiry_date r) ∧ assigned_username r = Some name ∧
     Firestore.credentials wf !! name = Some c ∧ username c = name ∧
     status c = in_use).
Proof.
  intros rss rsf ws wf.
  pose proof permitted_user_holds_a_credential as [Hs Hf]. split.
  - destruct (Hs rss 1) as [H _]. apply H. vm_compute. reflexivity.
  - destruct (Hf rsf 1) as [H _]. apply H. vm_compute. reflexivity.
Defined.

(** X6 at the store where user 1 was granted A for 5 days. *)
Lemma reachable_user_records_are_leases_witness :
  let r := User true (Some (timedelta_days 5)) (Some "A") (Some "pa") in
  ((is_bot_use r = true ↔ is_Some (plan_expiry_date r)) ∧
   (is_bot_use r = true → is_Some (assigned_username r)) ∧
   (is_Some (assigned_username r) ↔ is_Some (assigned_password r))) ∧
  ((is_bot_use r = true ↔ is_Some (plan_expiry_date r)) ∧
   (is_bot_use r = true → is_Some (assigned_username r)) ∧
   (is_Some (assigned_username r) ↔ is_Some (assigned_password r))).
Proof.
  intros r. pose proof reachable_user_records_are_leases as [Hs Hf]. split.
  - apply (Hs [Sqlite.ChessLink 1;
               Sqlite.AddCredential 0 "A" "pa" 10;
               Sqlite.PermitBotUse true [Some 1; Some 5] 0 0] 1 r).
    vm_compute. reflexivity.
  - apply (Hf [Firestore.ChessLink 1;
               Firestore.AddCredential 0 "A" "pa" 10;
               Firestore.PermitBotUse true [Some 1; Some 5] 0 0] 1 r).
    vm_compute. reflexivity.
Defined.

(** X17 with [ADMIN_USERID] set to 42 and the user id 40 + 2. *)
Lemma at_most_one_admin_witness :
  let v := 40 + 2 in
  is_admin (Some "42") v = true ∧ 42 = v.
Proof.
  intros v. split; [vm_compute; reflexivity|].
  apply (proj1 (at_most_one_admin (Some "42") 42 v)); vm_compute; reflexivity.
Defined.

(** X18 at a pool of two available credentials: both are listed. *)
Lemma available_listing_lines_witness :
  let a := Credential "A" "pa" available (Some (timedelta_days 10)) in
  let b := Credential "B" "pb" available (Some (timedelta_days 20)) in
  let ws := Sqlite.World ∅ [b; a] [] in
  let wf := Firestore.World ∅ {[ "A" := a; "B" := b ]} [] in
  (∃ lines,
     (Sqlite.see_available_credentials true 0 0 ws).1 = Lines lines ∧
     length lines = 2%nat) ∧
  (∃ lines,
     (Firestore.see_available_credentials true 0 0 wf).1 = Lines lines ∧
     length lines = 2%nat).
Proof.
  intros a b ws wf. pose proof available_listing_lines as [Hs Hf]. split.
  - destruct (Hs ws 0 0) as (_ & _ & _ & H).
    destruct H as (lines & Hl & HF); [vm_compute; discriminate|].
    exists lines. split; [exact Hl|].
    apply Forall2_length in HF. rewrite <- HF. vm_compute. reflexivity.
  - destruct (Hf wf 0 0) as (_ & _ & _ & H).
    destruct H as (lines & Hl & HF); [vm_compute; discriminate|].
    exists lines. split; [exact Hl|].
    apply Forall2_length in HF. rewrite <- HF. vm_compute. reflexivity.
Defined.

(** X23 at the store where user 1 was granted A: the listing has the line
    of that lease. *)
Lemma used_listing_lines_witness :
  let rss := [Sqlite.ChessLink 1;
              Sqlite.AddCredential 0 "A" "pa" 10;
              Sqlite.PermitBotUse true [Some 1; Some 5] 0 0] in
  let rsf := [Firestore.ChessLink 1;
              Firestore.AddCredential 0 "A" "pa" 10;
              Firestore.PermitBotUse true [Some 1; Some 5] 0 0] in
  (∃ lines,
     (Sqlite.see_used_credentials true 0 (Sqlite.run rss Sqlite.initial)).1
       = Lines lines ∧
     length lines = 1%nat) ∧
  (∃ lines,
     (Firestore.see_used_credentials true 0
        (Firestore.run rsf Firestore.initial)).1 = Lines lines ∧
     length lines = 1%nat).
Proof.
  intros rss rsf. pose proof used_listing_lines as [Hs Hf]. split.
  - destruct (Hs rss 0) as (_ & _ & H).
    destruct H as (lines & Hl & HF); [vm_compute; discriminate|].
    exists lines. split; [exact Hl|].
    apply Forall2_length in HF. rewrite <- HF. vm_compute. reflexivity.
  - destruct (Hf rsf 0) as (_ & _ & H).
    destruct H as (lines & Hl & HF); [vm_compute; discriminate|].
    exists lines. split; [exact Hl|].
    apply Forall2_length in HF. rewrite <- HF. vm_compute. reflexivity.
Defined.
